(** * Smart-Tender-Search: scheduling core

    A shallow embedding of the scheduling Lambda functions of the
    repository and the properties of its specification:

    - [centralSchedulerLambda.py]  (module [Scheduler]): the hourly sweep
      that matches every preference record against the clock and enqueues
      a task for each due record;
    - [CheckUserRole.py]           (module [Reconciler]): the sweeper that
      removes the records of users the WordPress site no longer authorises;
    - [evenbridge_based_on_user_preferences.py] (module [RuleManager]): the
      full rebuild of the EventBridge rules from the preference records;
    - [DynamoDB_handler.py]        (module [Intake]): the handler that
      writes the preference record of a submitted form;
    - [sqsWorkerLambda.py]         (module [Worker]): the handler that hands
      the tasks of the queue to the search function;
    - [main_function.py]: the cleaning of a record's keywords.

    Python strings are lists of Unicode code points, dictionaries are
    finite maps, the AWS services are fields of one [world] record that the
    handlers thread through a state-and-exception monad. *)

From Stdlib Require Import ZArith List Lia Bool.
From stdpp Require Import base option list numbers strings gmap.

Local Open Scope Z_scope.

(* ===================================================================== *)
(** * Python strings *)
(* ===================================================================== *)

(** A [str] is the sequence of its code points. *)
Definition str : Type := list Z.

(** Decoding of the UTF-8 bytes of a source literal into code points. *)
Fixpoint utf8_decode (bs : list Z) : str :=
  match bs with
  | [] => []
  | b :: r =>
      if b <? 128 then b :: utf8_decode r
      else if b <? 224 then
        match r with
        | c1 :: r1 => ((b - 192) * 64 + (c1 - 128)) :: utf8_decode r1
        | [] => [65533]
        end
      else if b <? 240 then
        match r with
        | c1 :: c2 :: r2 =>
            ((b - 224) * 4096 + (c1 - 128) * 64 + (c2 - 128)) :: utf8_decode r2
        | _ => [65533]
        end
      else
        match r with
        | c1 :: c2 :: c3 :: r3 =>
            ((b - 240) * 262144 + (c1 - 128) * 4096 + (c2 - 128) * 64 + (c3 - 128))
              :: utf8_decode r3
        | _ => [65533]
        end
  end.

Fixpoint bytes_of_literal (s : String.string) : list Z :=
  match s with
  | String.EmptyString => []
  | String.String a s' => Z.of_N (Ascii.N_of_ascii a) :: bytes_of_literal s'
  end.

(** [py "..."] is the Python string written by the literal ["..."]. *)
Definition py (s : String.string) : str := utf8_decode (bytes_of_literal s).
Arguments py s%_string.

(** [s.startswith(p)] *)
Fixpoint startswith (p s : str) : bool :=
  match p, s with
  | [], _ => true
  | _ :: _, [] => false
  | a :: p', b :: s' => (a =? b) && startswith p' s'
  end.

(** [needle in s] on strings: substring test. *)
Fixpoint contains (needle s : str) : bool :=
  startswith needle s
  || match s with
     | [] => false
     | _ :: s' => contains needle s'
     end.

(** [s.split(sep)] for a non-empty separator: the occurrences of [sep] are
    found left to right and do not overlap. [skip] counts the characters of
    a separator that has just been matched and is being stepped over. The
    source only calls [split] with non-empty literal separators (Python
    raises [ValueError] on the empty one). *)
Fixpoint split_from (sep : str) (skip : nat) (s : str) : list str :=
  match s with
  | [] => [[]]
  | c :: s' =>
      match skip with
      | S k => split_from sep k s'
      | O =>
          if startswith sep s then [] :: split_from sep (length sep - 1) s'
          else
            match split_from sep 0 s' with
            | p :: ps => (c :: p) :: ps
            | [] => [[c]]
            end
      end
  end.

Definition split (sep s : str) : list str := split_from sep 0 s.

(** [parts[0]] of the result of a [split], which is never empty. *)
Definition first_part (parts : list str) : str :=
  match parts with
  | p :: _ => p
  | [] => []
  end.

(** The interpreter's Unicode character database, for the code points
    outside ASCII: the tables behind [int()] and [str.lower()]. They are
    data of the Python runtime, not of the repository, and the development
    is parametric in them. *)
Class UnicodeData := {
  (* Py_UNICODE_ISSPACE *)
  unicode_isspace : Z -> bool;
  (* Py_UNICODE_TODECIMAL: the value of a decimal digit character *)
  unicode_todecimal : Z -> option Z;
  (* the lower-case expansion of a character, given the text before
     (most recent first) and after it *)
  unicode_lower : str -> Z -> str -> str
}.

(** The tables of an interpreter that knows ASCII only. *)
Definition ascii_only : UnicodeData :=
  {| unicode_isspace := fun _ => false;
     unicode_todecimal := fun _ => None;
     unicode_lower := fun _ c _ => [c] |}.

(** Exceptions raised by the modelled code and by the services it calls. *)
Inductive exn :=
  | KeyError (key : str)
  | ValueError
  | HTTPError (code : Z)
  | ServiceError (tag : Z).   (* botocore ClientError, URLError, ... *)

(** Outcome of a computation that may raise. *)
Inductive result (A : Type) :=
  | Ok (a : A)
  | Raise (e : exn).
Arguments Ok {A} a.
Arguments Raise {A} e.

#[global] Instance result_ret : MRet result := fun _ a => Ok a.
#[global] Instance result_bind : MBind result := fun _ _ f m =>
  match m with
  | Ok a => f a
  | Raise e => Raise e
  end.

Section Strings.
Context {U : UnicodeData}.

(** White space and decimal digits as [int()] sees them: ASCII by the
    C tables, the rest by the Unicode database. *)
Definition int_isspace (c : Z) : bool :=
  if c <? 127 then ((9 <=? c) && (c <=? 13)) || (c =? 32)
  else unicode_isspace c.

Definition int_todecimal (c : Z) : option Z :=
  if c <? 127 then
    if (48 <=? c) && (c <=? 57) then Some (c - 48) else None
  else unicode_todecimal c.

Fixpoint lstrip (s : str) : str :=
  match s with
  | c :: s' => if int_isspace c then lstrip s' else s
  | [] => []
  end.

Inductive scan_state := AtStart | AfterDigit | AfterUnderscore.

(** The digits of a decimal literal, single underscores allowed between
    digits; returns the value and the unread rest. *)
Fixpoint scan_digits (st : scan_state) (acc : Z) (s : str) : option (Z * str) :=
  match s with
  | [] =>
      match st with
      | AfterDigit => Some (acc, [])
      | _ => None
      end
  | c :: s' =>
      if c =? 95 then
        match st with
        | AfterDigit => scan_digits AfterUnderscore acc s'
        | _ => None
        end
      else
        match int_todecimal c with
        | Some d => scan_digits AfterDigit (10 * acc + d) s'
        | None =>
            match st with
            | AfterDigit => Some (acc, s)
            | _ => None
            end
        end
  end.

(** The number of digits of the literal that [scan_digits] reads: the
    underscores are not counted, leading zeros are. *)
Fixpoint digit_count (s : str) : Z :=
  match s with
  | [] => 0
  | c :: s' =>
      if c =? 95 then digit_count s'
      else
        match int_todecimal c with
        | Some _ => 1 + digit_count s'
        | None => 0
        end
  end.

(** [sys.get_int_max_str_digits()], at its default. *)
Definition int_max_str_digits : Z := 4300.

(** [int(s)] for a string, base 10: optional white space, an optional
    sign, digits, optional white space; [ValueError] otherwise, also for
    a literal of more digits than [int_max_str_digits]. *)
Definition py_int (s : str) : result Z :=
  let t := lstrip s in
  let '(sign, body) :=
    match t with
    | c :: r => if c =? 43 then (1, r) else if c =? 45 then (-1, r) else (1, t)
    | [] => (1, t)
    end in
  match scan_digits AtStart 0 body with
  | Some (n, rest) =>
      if forallb int_isspace rest then
        if int_max_str_digits <? digit_count body then Raise ValueError
        else Ok (sign * n)
      else Raise ValueError
  | None => Raise ValueError
  end.

(** [s.lower()] *)
Fixpoint lower_from (before : str) (s : str) : str :=
  match s with
  | [] => []
  | c :: r =>
      (if c <? 128 then
         if (65 <=? c) && (c <=? 90) then [c + 32] else [c]
       else unicode_lower before c r)
      ++ lower_from (c :: before) r
  end.

Definition lower (s : str) : str := lower_from [] s.
End Strings.

(** [str(n)] for an integer. *)
Fixpoint decimal_digits (fuel : nat) (n : Z) (acc : str) : str :=
  let acc' := (48 + n mod 10) :: acc in
  match fuel with
  | O => acc'
  | S f => if n <? 10 then acc' else decimal_digits f (n / 10) acc'
  end.

Definition str_of_int (n : Z) : str :=
  if n <? 0 then 45 :: decimal_digits (Z.to_nat (Z.log2 (- n))) (- n) []
  else decimal_digits (Z.to_nat (Z.log2 n)) n [].

(* ===================================================================== *)
(** * datetime *)
(* ===================================================================== *)

(** A [datetime]: the proleptic Gregorian ordinal of its date and its time
    of day. *)
Record datetime := {
  toordinal : Z;
  hour : Z;
  minute : Z;
  second : Z;
  microsecond : Z
}.

(** [t.weekday()]: Monday is 0. *)
Definition weekday (t : datetime) : Z := (toordinal t + 6) mod 7.

(** [t + timedelta(hours=h)] *)
Definition plus_hours (t : datetime) (h : Z) : datetime :=
  let total := hour t + h in
  {| toordinal := toordinal t + total / 24;
     hour := total mod 24;
     minute := minute t;
     second := second t;
     microsecond := microsecond t |}.

(* ===================================================================== *)
(** * centralSchedulerLambda.py: the due-time evaluator *)
(* ===================================================================== *)

Definition Pondeli : str := Eval cbv in py "Pondělí".
Definition Utery : str := Eval cbv in py "Úterý".
Definition Streda : str := Eval cbv in py "Středa".
Definition Ctvrtek : str := Eval cbv in py "Čtvrtek".
Definition Patek : str := Eval cbv in py "Pátek".
Definition Sobota : str := Eval cbv in py "Sobota".
Definition Nedele : str := Eval cbv in py "Neděle".
Definition Jednou_denne : str := Eval cbv in py "Jednou denně".
Definition sep_v : str := Eval cbv in py " v ".
Definition colon : str := Eval cbv in py ":".

(** Mapping Czech days to the outputs of [weekday()]. *)
Definition day_mapping : gmap str Z :=
  list_to_map
    [ (Pondeli, 0); (Utery, 1); (Streda, 2); (Ctvrtek, 3);
      (Patek, 4); (Sobota, 5); (Nedele, 6) ].

Section Evaluator.
Context {U : UnicodeData}.

Definition is_scheduled_time (current_time : datetime)
    (schedule_preference : str) : result bool :=
  let current_weekday := weekday current_time in
  let current_hour := hour current_time in
  if contains Jednou_denne schedule_preference then
    Ok (current_hour =? 12)
  else
    match split sep_v schedule_preference with
    | [day_name; time_str] =>
        schedule_hour ← py_int (first_part (split colon time_str));
        match day_mapping !! day_name with
        | Some d =>
            if (current_weekday =? d) && (current_hour =? schedule_hour)
            then Ok true else Ok false
        | None => Ok false
        end
    | _ => Ok false
    end.
End Evaluator.


(* ===================================================================== *)
(** * The services and the handlers' monad *)
(* ===================================================================== *)

(** A Preference Store item without its key [user_id]. An absent field, or
    one that does not hold a value of the type the code reads, is [None]. *)
Record preference_record := {
  user_email : option str;
  user_role : option str;
  preferences : option (gmap str str)
}.

(** The message body sent to the queue ([task_details]). *)
Record task := {
  task_user_id : str;
  task_email : str;
  task_keywords : str;
  task_description : str;
  task_role : str;
  task_frekvence_zasilani : str
}.

(** An EventBridge target; [Input] is the [user_id] of its JSON payload. *)
Record target := {
  Id : str;
  Arn : str;
  Input : str
}.

(** An EventBridge rule, without its name. *)
Record rule := {
  ScheduleExpression : str;
  State : str;
  Targets : gmap str target
}.

(** What the WordPress endpoint answers for a user: a list of roles, or
    the exception [urlopen] and the decoding of its answer raise. *)
Inductive reply :=
  | Roles (user_roles : list str)
  | Fails (e : exn).

(** The lines the handlers print or log. *)
Inductive event :=
  (* centralSchedulerLambda *)
  | Started
  | Scan_response (items : list (str * preference_record))
  | Scan_failed (e : exn)
  | Message_sent (user_id : str)
  | Send_failed (user_id : str) (e : exn)
  (* CheckUserRole *)
  | User_roles (user_id : Z) (user_roles : list str)
  | Not_deleting (user_id : Z)
  | Deleting_unauthorised (user_id : Z)
  | Failed_to_get_roles (user_id : Z) (code : Z)
  | Deleting_unknown (user_id : Z)
  | Unhandled_exception (user_id : Z) (e : exn)
  (* evenbridge_based_on_user_preferences *)
  | Clearing_rules
  | Processing_users
  | Processing_preferences (user_id : str)
  | Skipping_rule (rule_name : str)
  | Targets_removed (rule_name : str)
  | Deleted_rule (rule_name : str)
  | Everyday_preference (user_id : str)
  | Day_preference (day_part : str) (user_id : str)
  | Created_rule (rule_name : str) (cron_expression : str)
  | Error_processing (e : exn).

(** What a run cannot control: the clock, the failures of the AWS calls
    (by the number of the call), the answers of the role authority (by
    user) and the random numbers (by the number of the draw). *)
Record env := {
  utcnow : datetime;
  fault : nat -> option exn;
  role_authority : Z -> reply;
  entropy : nat -> Z;
  (* how many items the one page holds that a Scan of the table returns
     (the service ends a page at 1 MB of data) *)
  scan_page : nat;
  (* how many rules the one page holds that ListRules returns *)
  rules_page : nat
}.

(** The state the handlers act on: the [UserPreferences] table keyed by
    [user_id], the [UserTaskQueue], the EventBridge rules keyed by name,
    the log, and the numbers of AWS calls and random draws made so far. *)
Record world := {
  store : gmap str preference_record;
  queue : list task;
  rules : gmap str rule;
  log : list event;
  calls : nat;
  draws : nat
}.

Definition set_store (s : gmap str preference_record) (w : world) : world :=
  {| store := s; queue := queue w; rules := rules w; log := log w;
     calls := calls w; draws := draws w |}.
Definition set_queue (q : list task) (w : world) : world :=
  {| store := store w; queue := q; rules := rules w; log := log w;
     calls := calls w; draws := draws w |}.
Definition set_rules (r : gmap str rule) (w : world) : world :=
  {| store := store w; queue := queue w; rules := r; log := log w;
     calls := calls w; draws := draws w |}.
Definition set_log (l : list event) (w : world) : world :=
  {| store := store w; queue := queue w; rules := rules w; log := l;
     calls := calls w; draws := draws w |}.
Definition set_calls (n : nat) (w : world) : world :=
  {| store := store w; queue := queue w; rules := rules w; log := log w;
     calls := n; draws := draws w |}.
Definition set_draws (n : nat) (w : world) : world :=
  {| store := store w; queue := queue w; rules := rules w; log := log w;
     calls := calls w; draws := n |}.

(** A handler step: it may raise, and its effects stay either way. *)
Definition M (A : Type) : Type := world -> result A * world.

#[global] Instance M_ret : MRet M := fun _ a w => (Ok a, w).
#[global] Instance M_bind : MBind M := fun _ _ f m w =>
  match m w with
  | (Ok a, w') => f a w'
  | (Raise e, w') => (Raise e, w')
  end.

Definition raise {A} (e : exn) : M A := fun w => (Raise e, w).

Definition lift {A} (r : result A) : M A := fun w => (r, w).

(** [try: body / except Exception as e: handler e] *)
Definition try_except {A} (body : M A) (handler : exn -> M A) : M A := fun w =>
  match body w with
  | (Ok a, w') => (Ok a, w')
  | (Raise e, w') => handler e w'
  end.

(** The outcome of a [try] body, for an [except] clause that returns. *)
Definition catch {A} (body : M A) : M (result A) := fun w =>
  let '(r, w') := body w in (Ok r, w').

(** [print(...)] and [logger.info(...)] *)
Definition print (e : event) : M unit := fun w =>
  (Ok tt, set_log (log w ++ [e]) w).

(** [for x in l: body x] *)
Fixpoint for_each {A} (body : A -> M unit) (l : list A) : M unit :=
  match l with
  | [] => mret tt
  | a :: l' => body a;; for_each body l'
  end.

(** A loop that carries a local variable. *)
Fixpoint for_fold {A S} (body : S -> A -> M S) (s : S) (l : list A) : M S :=
  match l with
  | [] => mret s
  | a :: l' => s' ← body s a; for_fold body s' l'
  end.

(** [d[key]] on a dictionary lookup result. *)
Definition getitem {A} (key : str) (v : option A) : M A :=
  match v with
  | Some a => mret a
  | None => raise (KeyError key)
  end.

(** A boto3 call: it is counted, fails when the environment says so, and
    otherwise does [op]. *)
Definition aws_call {A} (E : env) (op : M A) : M A := fun w =>
  let w1 := set_calls (S (calls w)) w in
  match fault E (calls w) with
  | Some e => (Raise e, w1)
  | None => op w1
  end.

(** [random.randint(1000, 9999)] *)
Definition randint_1000_9999 (E : env) : M Z := fun w =>
  (Ok (1000 + entropy E (draws w) mod 9000), set_draws (S (draws w)) w).

(** The value a handler returns. *)
Inductive body_text :=
  | Failed_to_scan (e : exn)
  | Messages_successfully_sent (successful_sends : nat)
  | Cleanup_completed
  | Rules_recreated
  | Error_processing_items.

Record response := {
  statusCode : Z;
  body : body_text
}.

Definition k_preferences : str := Eval cbv in py "preferences".
Definition k_frekvence_zasilani : str := Eval cbv in py "frekvence_zasilani".
Definition k_email_pro_zasilani_vysledku : str :=
  Eval cbv in py "email_pro_zasilani_vysledku".
Definition k_klicova_slova : str := Eval cbv in py "klicova_slova".
Definition k_popis_firmy : str := Eval cbv in py "popis_firmy".
Definition k_user_role : str := Eval cbv in py "user_role".

(* ===================================================================== *)
(** * centralSchedulerLambda.py: the sweep *)
(* ===================================================================== *)

Module Scheduler.
Section Handler.
Context {U : UnicodeData} (E : env).

(** [dynamodb.scan(TableName=table_name)['Items']]: the items of one
    page; the handler makes this one call and does not read
    [LastEvaluatedKey]. *)
Definition dynamodb_scan : M (list (str * preference_record)) :=
  aws_call E (fun w =>
    (Ok (take (scan_page E) (map_to_list (store w))), w)).

(** [sqs.send_message(QueueUrl=queue_url, MessageBody=...)] *)
Definition sqs_send_message (t : task) : M unit :=
  aws_call E (fun w => (Ok tt, set_queue (queue w ++ [t]) w)).

(** The body of the loop over the scanned items. *)
Definition process_item (now : datetime) (successful_sends : nat)
    (item : str * preference_record) : M nat :=
  user_preferences ← getitem k_preferences (preferences item.2);
  frekvence_zasilani ←
    getitem k_frekvence_zasilani (user_preferences !! k_frekvence_zasilani);
  due ← lift (is_scheduled_time now frekvence_zasilani);
  if due : bool then
    email ← getitem k_email_pro_zasilani_vysledku
              (user_preferences !! k_email_pro_zasilani_vysledku);
    keywords ← getitem k_klicova_slova (user_preferences !! k_klicova_slova);
    description ← getitem k_popis_firmy (user_preferences !! k_popis_firmy);
    role ← getitem k_user_role (user_role item.2);
    let task_details :=
      {| task_user_id := item.1;
         task_email := email;
         task_keywords := keywords;
         task_description := description;
         task_role := role;
         task_frekvence_zasilani := frekvence_zasilani |} in
    try_except
      (sqs_send_message task_details;;
       print (Message_sent (task_user_id task_details));;
       mret (S successful_sends))
      (fun e =>
         print (Send_failed (task_user_id task_details) e);;
         mret successful_sends)
  else mret successful_sends.

Definition lambda_handler : M response :=
  print Started;;
  let now := plus_hours (utcnow E) 2 in
  scanned ← catch (items ← dynamodb_scan;
                   print (Scan_response items);;
                   mret items);
  match scanned with
  | Raise e =>
      print (Scan_failed e);;
      mret {| statusCode := 500; body := Failed_to_scan e |}
  | Ok items =>
      successful_sends ← for_fold (process_item now) 0%nat items;
      mret {| statusCode := 200;
              body := Messages_successfully_sent successful_sends |}
  end.
End Handler.
End Scheduler.

(* ===================================================================== *)
(** * CheckUserRole.py: the reconciliation sweeper *)
(* ===================================================================== *)

Definition customer : str := Eval cbv in py "customer".
Definition administrator : str := Eval cbv in py "administrator".

Module Reconciler.
Section Handler.
Context (E : env).

(** [json.loads(urlopen(req_role).read().decode())] *)
Definition fetch_roles (user_id : Z) : M (list str) :=
  lift (match role_authority E user_id with
        | Roles user_roles => Ok user_roles
        | Fails e => Raise e
        end).

(** [table.delete_item(Key={'user_id': key})] *)
Definition delete_item (key : str) : M unit :=
  aws_call E (fun w => (Ok tt, set_store (delete key (store w)) w)).

(** The body of the loop over the user ids. *)
Definition check_user (user_id : Z) : M unit :=
  try_except
    (user_roles ← fetch_roles user_id;
     print (User_roles user_id user_roles);;
     if bool_decide (customer ∈ user_roles)
        || bool_decide (administrator ∈ user_roles)
     then print (Not_deleting user_id)
     else
       print (Deleting_unauthorised user_id);;
       delete_item (str_of_int user_id))
    (fun e =>
       match e with
       | HTTPError code =>
           print (Failed_to_get_roles user_id code);;
           if code =? 404 then
             print (Deleting_unknown user_id);;
             delete_item (str_of_int user_id)
           else mret tt
       | _ => print (Unhandled_exception user_id e)
       end).

(** [range(1, 100)] *)
Definition user_ids : list Z := seqZ 1 99.

Definition lambda_handler : M response :=
  for_each check_user user_ids;;
  mret {| statusCode := 200; body := Cleanup_completed |}.
End Handler.
End Reconciler.

(* ===================================================================== *)
(** * evenbridge_based_on_user_preferences.py: the rule rebuild *)
(* ===================================================================== *)

Definition gregi : str := Eval cbv in py "gregi".
Definition Kazdy_den : str := Eval cbv in py "Každý den".
Definition Everyday : str := Eval cbv in py "Everyday".
Definition comma_space : str := Eval cbv in py ", ".
Definition rule_for_user_ : str := Eval cbv in py "rule_for_user_".
Definition underscore : str := Eval cbv in py "_".
Definition target_ : str := Eval cbv in py "target_".
Definition ENABLED : str := Eval cbv in py "ENABLED".
Definition lambda_arn : str :=
  Eval cbv in py "arn:aws:lambda:eu-north-1:462197742027:function:EU_Czech_Tender_Search".
Definition cron_everyday : str := Eval cbv in py "cron(00 10 * * ? *)".
Definition cron_default : str := Eval cbv in py "cron(00 10 ? * * *)".
Definition ResourceNotFoundException : exn := ServiceError 404.
Definition ValidationException : exn := ServiceError 400.

Definition day_to_cron_map : gmap str str :=
  list_to_map
    [ (Pondeli, py "cron(00 10 ? * 2 *)");
      (Utery, py "cron(00 10 ? * 3 *)");
      (Streda, py "cron(00 10 ? * 4 *)");
      (Ctvrtek, py "cron(00 10 ? * 5 *)");
      (Patek, py "cron(00 10 ? * 6 *)");
      (Sobota, py "cron(00 10 ? * 7 *)");
      (Nedele, py "cron(00 10 ? * 1 *)") ].

(** Maps Czech day names to cron expressions; daily if not matched. *)
Definition day_to_cron (day_name : str) : str :=
  default cron_default (day_to_cron_map !! day_name).

Module RuleManager.
Section Handler.
Context {U : UnicodeData} (E : env).

(** The EventBridge API. [list_rules()['Rules']] is one page of the
    rules; the code makes this one call and does not read [NextToken].
    A rule that has targets cannot be deleted; targets are listed, put
    and removed on an existing rule only; [put_rule] creates the rule or
    updates it, keeping its targets. *)
Definition list_rules : M (list str) :=
  aws_call E (fun w =>
    (Ok (take (rules_page E) (map_to_list (rules w)).*1), w)).

Definition list_targets_by_rule (rule_name : str) : M (list str) :=
  aws_call E (fun w =>
    match rules w !! rule_name with
    | Some r => (Ok (map_to_list (Targets r)).*1, w)
    | None => (Raise ResourceNotFoundException, w)
    end).

Definition remove_targets (rule_name : str) (ids : list str) : M unit :=
  aws_call E (fun w =>
    match rules w !! rule_name with
    | Some r =>
        let r' := {| ScheduleExpression := ScheduleExpression r;
                     State := State r;
                     Targets := foldr delete (Targets r) ids |} in
        (Ok tt, set_rules (<[rule_name := r']> (rules w)) w)
    | None => (Raise ResourceNotFoundException, w)
    end).

Definition delete_rule (rule_name : str) : M unit :=
  aws_call E (fun w =>
    match rules w !! rule_name with
    | Some r =>
        if decide (Targets r = ∅)
        then (Ok tt, set_rules (delete rule_name (rules w)) w)
        else (Raise ValidationException, w)
    | None => (Ok tt, w)
    end).

Definition put_rule (rule_name cron_expression state : str) : M unit :=
  aws_call E (fun w =>
    let kept := match rules w !! rule_name with
                | Some r => Targets r
                | None => ∅
                end in
    let r' := {| ScheduleExpression := cron_expression;
                 State := state;
                 Targets := kept |} in
    (Ok tt, set_rules (<[rule_name := r']> (rules w)) w)).

Definition put_targets (rule_name : str) (t : target) : M unit :=
  aws_call E (fun w =>
    match rules w !! rule_name with
    | Some r =>
        let r' := {| ScheduleExpression := ScheduleExpression r;
                     State := State r;
                     Targets := <[Id t := t]> (Targets r) |} in
        (Ok tt, set_rules (<[rule_name := r']> (rules w)) w)
    | None => (Raise ResourceNotFoundException, w)
    end).

(** [table.scan().get('Items', [])]: one page, as in the sweep. *)
Definition table_scan : M (list (str * preference_record)) :=
  aws_call E (fun w =>
    (Ok (take (scan_page E) (map_to_list (store w))), w)).

(** Removes all targets from a given rule. *)
Definition remove_targets_from_rule (rule_name : str) : M unit :=
  target_ids ← list_targets_by_rule rule_name;
  match target_ids with
  | [] => mret tt
  | _ :: _ =>
      remove_targets rule_name target_ids;;
      print (Targets_removed rule_name)
  end.

(** The test that keeps a rule out of the clearing. *)
Definition protected (rule_name : str) : bool :=
  contains gregi (lower rule_name).

(** The body of the loop of [clear_all_rules]. *)
Definition clear_rule (rule_name : str) : M unit :=
  if protected rule_name then print (Skipping_rule rule_name)
  else
    remove_targets_from_rule rule_name;;
    delete_rule rule_name;;
    print (Deleted_rule rule_name).

(** Deletes all EventBridge rules and their targets, except those
    containing 'gregi'. *)
Definition clear_all_rules : M unit :=
  rule_names ← list_rules;
  for_each clear_rule rule_names.

Definition create_eventbridge_rule (user_id cron_expression day_name : str)
    : M unit :=
  random_number ← randint_1000_9999 E;
  let rule_name :=
    rule_for_user_ ++ user_id ++ underscore ++ str_of_int random_number in
  put_rule rule_name cron_expression ENABLED;;
  put_targets rule_name
    {| Id := target_ ++ user_id; Arn := lambda_arn; Input := user_id |};;
  print (Created_rule rule_name cron_expression).

(** Process a single day or daily preference to create a rule. *)
Definition process_day_with_time (user_id day_with_time : str) : M unit :=
  (if contains Kazdy_den day_with_time then
     print (Everyday_preference user_id);;
     mret (cron_everyday, Everyday)
   else
     let day_part := first_part (split sep_v day_with_time) in
     let cron_expression := day_to_cron day_part in
     print (Day_preference day_part user_id);;
     mret (cron_expression, day_part))
  ≫= fun '(cron_expression, day_part) =>
  create_eventbridge_rule user_id cron_expression day_part.

(** Create EventBridge rules based on user preferences. *)
Definition process_user_preferences (user_id : str)
    (prefs : gmap str str) : M unit :=
  match prefs !! k_frekvence_zasilani with
  | Some schedule_preference =>
      if bool_decide (schedule_preference = []) then mret tt
      else
        let days_with_times := split comma_space schedule_preference in
        for_each (process_day_with_time user_id) days_with_times
  | None => mret tt
  end.

(** The body of the loop over the scanned items. The items are typed as
    the intake writes them: [preferences], when the item has it, is a map
    of strings ([None] is the item without it). *)
Definition process_record (item : str * preference_record) : M unit :=
  let user_id := item.1 in
  match preferences item.2 with
  | Some prefs =>
      if bool_decide (user_id ≠ []) && bool_decide (prefs ≠ ∅) then
        print (Processing_preferences user_id);;
        process_user_preferences user_id prefs
      else mret tt
  | None => mret tt
  end.

(** Process user preferences to recreate EventBridge rules. *)
Definition lambda_handler : M response :=
  try_except
    (print Clearing_rules;;
     clear_all_rules;;
     print Processing_users;;
     items ← table_scan;
     for_each process_record items;;
     mret {| statusCode := 200; body := Rules_recreated |})
    (fun e =>
       print (Error_processing e);;
       mret {| statusCode := 500; body := Error_processing_items |}).
End Handler.
End RuleManager.

(* ===================================================================== *)
(** * Vocabulary of the statements *)
(* ===================================================================== *)

(** The two digits of a number below 100, and the entry
    ["<day> v <HH:MM>"]. *)
Definition two_digits (n : Z) : str := [48 + n / 10; 48 + n mod 10].

Definition day_at (day : str) (hh mm : Z) : str :=
  day ++ sep_v ++ two_digits hh ++ colon ++ two_digits mm.

(** The day token of an entry, as the rule manager extracts it. *)
Definition day_token (entry : str) : str := first_part (split sep_v entry).

(** The hour of an entry that has a day and a time reads as an integer. *)
Definition hour_readable {U : UnicodeData} (entry : str) : Prop :=
  ∀ day_name time_str,
    split sep_v entry = [day_name; time_str] →
    ∃ h, py_int (first_part (split colon time_str)) = Ok h.

(** The schedule string of a record. *)
Definition frekvence (r : preference_record) : option str :=
  prefs ← preferences r; prefs !! k_frekvence_zasilani.

(** The task of an item that has every field the sweep reads. *)
Definition task_of (item : str * preference_record) : option task :=
  prefs ← preferences item.2;
  frekvence_zasilani ← prefs !! k_frekvence_zasilani;
  email ← prefs !! k_email_pro_zasilani_vysledku;
  keywords ← prefs !! k_klicova_slova;
  description ← prefs !! k_popis_firmy;
  role ← user_role item.2;
  Some {| task_user_id := item.1;
          task_email := email;
          task_keywords := keywords;
          task_description := description;
          task_role := role;
          task_frekvence_zasilani := frekvence_zasilani |}.

(** The instant a sweep evaluates the schedules at, and what it scans:
    the records of the one page of the Scan. *)
Definition sweep_instant (E : env) : datetime := plus_hours (utcnow E) 2.
Definition scanned (E : env) (w : world) : list (str * preference_record) :=
  take (scan_page E) (map_to_list (store w)).

(** The names of the rules on the one page of ListRules. *)
Definition listed (E : env) (w : world) : list str :=
  take (rules_page E) (map_to_list (rules w)).*1.

Section SweepVocabulary.
Context {U : UnicodeData}.

(** An item is due with task [t]; an item is not due. *)
Definition due (now : datetime) (item : str * preference_record)
    (t : task) : Prop :=
  task_of item = Some t
  ∧ is_scheduled_time now (task_frekvence_zasilani t) = Ok true.

Definition not_due (now : datetime) (item : str * preference_record) : Prop :=
  ∃ s, frekvence item.2 = Some s ∧ is_scheduled_time now s = Ok false.

Definition is_due (now : datetime) (item : str * preference_record) : bool :=
  match frekvence item.2 with
  | Some s =>
      match is_scheduled_time now s with
      | Ok true => true
      | _ => false
      end
  | None => false
  end.

(** The tasks of the due items, in the order of the scan. *)
Definition due_tasks (now : datetime)
    (items : list (str * preference_record)) : list task :=
  omap task_of (filter (λ item, is_due now item) items).

(** The dispatch as the specification states it, for a sweep in which
    no call fails: with K the number of due records among the N records
    of the table, the handler returns K as its count of dispatches and
    the queue has K more tasks. *)
Definition sweep_claim (E : env) (w : world) : Prop :=
  let K := length (filter (λ item, is_due (sweep_instant E) item)
                          (map_to_list (store w))) in
  ∃ w', Scheduler.lambda_handler E w =
          (Ok {| statusCode := 200; body := Messages_successfully_sent K |},
           w')
        ∧ length (queue w') = (length (queue w) + K)%nat.
End SweepVocabulary.

(** Of the tasks sent by consecutive calls, the first being call number
    [first], those whose call does not fail. *)
Fixpoint delivered (E : env) (first : nat) (ts : list task) : list task :=
  match ts with
  | [] => []
  | t :: ts' =>
      match fault E first with
      | None => t :: delivered E (S first) ts'
      | Some _ => delivered E (S first) ts'
      end
  end.

(** The answers of the role authority on which the sweeper deletes: a
    list of roles with neither "customer" nor "administrator", or the
    HTTP error 404. *)
Definition delete_signal (r : reply) : bool :=
  match r with
  | Roles user_roles =>
      negb (bool_decide (customer ∈ user_roles)
            || bool_decide (administrator ∈ user_roles))
  | Fails (HTTPError code) => code =? 404
  | Fails _ => false
  end.

(** The line logged for a user whose lookup raises [e]. *)
Definition error_line (user_id : Z) (e : exn) : event :=
  match e with
  | HTTPError code => Failed_to_get_roles user_id code
  | _ => Unhandled_exception user_id e
  end.

(** The keys the sweeper deletes when it goes through [uids]. *)
Definition deleted_keys (E : env) (uids : list Z) : list str :=
  str_of_int <$> filter (λ u, delete_signal (role_authority E u) = true) uids.

(** A step moves the Preference Store along [R], whatever it returns. *)
Definition store_moves (R : relation (gmap str preference_record))
    {A} (m : M A) : Prop :=
  ∀ w, R (store w) (store (m w).2).

(** Two stores agree outside the keys [K]. *)
Definition agree_outside (K : list str)
    (s s' : gmap str preference_record) : Prop :=
  ∀ k, k ∉ K → s' !! k = s !! k.

(** Decimal digit characters and the value of a string of them. *)
Definition is_digit (c : Z) : Prop := 48 ≤ c ≤ 57.

Definition digits_value (acc : Z) (ds : str) : Z :=
  foldl (λ a c, 10 * a + (c - 48)) acc ds.

(** The search-worker target of a user and the rule that carries it. *)
Definition worker_target (user_id : str) : target :=
  {| Id := target_ ++ user_id; Arn := lambda_arn; Input := user_id |}.

Definition has_worker_rule (rs : gmap str rule) (user_id : str) : Prop :=
  ∃ n r,
    1000 ≤ n ≤ 9999
    ∧ rs !! (rule_for_user_ ++ user_id ++ underscore ++ str_of_int n) = Some r
    ∧ Targets r !! (target_ ++ user_id) = Some (worker_target user_id).

Definition eligible (item : str * preference_record) : Prop :=
  item.1 ≠ []
  ∧ ∃ prefs s, preferences item.2 = Some prefs
               ∧ prefs !! k_frekvence_zasilani = Some s ∧ s ≠ [].

Definition created_in (evs : list event) (rule_name : str) : Prop :=
  ∃ cron_expression, Created_rule rule_name cron_expression ∈ evs.

(** What the steps of the creation phase do to the world. *)
Definition creates (w w' : world) : Prop :=
  store w' = store w
  ∧ (∃ evs, log w' = log w ++ evs
            ∧ ∀ name, ¬ created_in evs name → rules w' !! name = rules w !! name)
  ∧ (∀ user_id, has_worker_rule (rules w) user_id →
                has_worker_rule (rules w') user_id).

(** The names the creation phase gives the rules of the users that [P]
    holds of. *)
Definition rule_name_of (P : str → Prop) (rule_name : str) : Prop :=
  ∃ user_id n,
    P user_id ∧ 1000 ≤ n ≤ 9999
    ∧ rule_name = rule_for_user_ ++ user_id ++ underscore ++ str_of_int n.

(** The steps of the creation phase create rules of such names only. *)
Definition creates_only (P : str → Prop) (w w' : world) : Prop :=
  ∃ evs, log w' = log w ++ evs
         ∧ ∀ name, created_in evs name → rule_name_of P name.

(** The user ids of the eligible records among [items]. *)
Definition eligible_user (items : list (str * preference_record))
    (user_id : str) : Prop :=
  ∃ item, item ∈ items ∧ eligible item ∧ item.1 = user_id.

(** What the steps of the clearing phase do to the world. *)
Definition clears {U : UnicodeData} (w w' : world) : Prop :=
  store w' = store w
  ∧ (∃ evs, log w' = log w ++ evs ∧ ∀ name, ¬ created_in evs name)
  ∧ (∀ name, RuleManager.protected name = true → rules w' !! name = rules w !! name)
  ∧ (∀ name, rules w !! name = None → rules w' !! name = None).

(** The rule rebuild as the specification states it. *)
Definition unprotected_absent {U : UnicodeData} (w w' : world) : Prop :=
  ∀ name r, rules w !! name = Some r → RuleManager.protected name = false →
            rules w' !! name = None.

Definition protected_untouched {U : UnicodeData} (w w' : world) : Prop :=
  ∀ name r, rules w !! name = Some r → RuleManager.protected name = true →
            rules w' !! name = Some r.

Definition records_have_rule (E : env) (w w' : world) : Prop :=
  ∀ item, item ∈ scanned E w → eligible item →
          has_worker_rule (rules w') item.1.

Definition rebuild_claim {U : UnicodeData} (E : env) (w w' : world) : Prop :=
  unprotected_absent w w' ∧ protected_untouched w w'
  ∧ records_have_rule E w w'.

(** A Wednesday, 10:07 UTC (12:07 at the offset of the sweep). *)
Definition wednesday_1007 : datetime :=
  {| toordinal := 739021; hour := 10; minute := 7; second := 0;
     microsecond := 0 |}.

(** A record with every field, and its schedule. *)
Definition record_with (schedule : str) : preference_record :=
  {| user_email := Some (py "a@example.cz");
     user_role := Some customer;
     preferences :=
       Some (list_to_map
               [ (k_frekvence_zasilani, schedule);
                 (k_email_pro_zasilani_vysledku, py "a@example.cz");
                 (k_klicova_slova, py "mosty, silnice");
                 (k_popis_firmy, py "stavby") ]) |}.

(** Three users: one due on Wednesdays at 12, one daily, one on Fridays. *)
Definition world_three : world :=
  {| store := list_to_map
                [ (py "1", record_with (py "Středa v 12:00"));
                  (py "2", record_with (py "Jednou denně"));
                  (py "7", record_with (py "Pátek v 09:30")) ];
     queue := [];
     rules := ∅;
     log := [];
     calls := 0;
     draws := 0 |}.

(** Every call succeeds; the authority knows user 1 as a customer, user 2
    as a subscriber, reports a server error for user 3 and does not know
    the others. *)
Definition env_calm : env :=
  {| utcnow := wednesday_1007;
     fault := λ _, None;
     role_authority := λ u,
       if u =? 1 then Roles [customer]
       else if u =? 2 then Roles [py "subscriber"]
       else if u =? 3 then Fails (HTTPError 500)
       else Fails (HTTPError 404);
     entropy := λ _, 4242;
     scan_page := 100;
     rules_page := 100 |}.

(** As [env_calm], but the second call (the first send) fails. *)
Definition env_first_send_fails : env :=
  {| utcnow := wednesday_1007;
     fault := λ i, if decide (i = 1%nat) then Some (ServiceError 503) else None;
     role_authority := role_authority env_calm;
     entropy := entropy env_calm;
     scan_page := 100;
     rules_page := 100 |}.

(** As [env_calm], but the first call (the scan) fails. *)
Definition env_scan_fails : env :=
  {| utcnow := wednesday_1007;
     fault := λ i, if decide (i = 0%nat) then Some (ServiceError 500) else None;
     role_authority := role_authority env_calm;
     entropy := entropy env_calm;
     scan_page := 100;
     rules_page := 100 |}.

(** As [env_calm], but the page of a Scan holds two records. *)
Definition env_short_page : env :=
  {| utcnow := wednesday_1007;
     fault := λ _, None;
     role_authority := role_authority env_calm;
     entropy := entropy env_calm;
     scan_page := 2;
     rules_page := 100 |}.

(** A run in which the random number is 1000 at every draw, over two
    users, "5" and "gregi", who each have a rule with that number from an
    earlier rebuild. *)
Definition env_1000 : env :=
  {| utcnow := {| toordinal := 739021; hour := 8; minute := 0; second := 0;
                  microsecond := 0 |};
     fault := λ _, None;
     role_authority := λ _, Roles [customer];
     entropy := λ _, 0;
     scan_page := 100;
     rules_page := 100 |}.

Definition monday_record : preference_record :=
  {| user_email := Some (py "a@example.cz");
     user_role := Some customer;
     preferences :=
       Some {[ k_frekvence_zasilani := py "Pondělí v 10:00" ]} |}.

Definition old_rule (user_id : str) : rule :=
  {| ScheduleExpression := py "cron(00 10 ? * 6 *)";
     State := ENABLED;
     Targets := {[ target_ ++ user_id := worker_target user_id ]} |}.

Definition world_1000 : world :=
  {| store := {[ py "5" := monday_record; py "gregi" := monday_record ]};
     queue := [];
     rules := {[ py "rule_for_user_5_1000" := old_rule (py "5");
                 py "rule_for_user_gregi_1000" := old_rule (py "gregi") ]};
     log := [];
     calls := 0;
     draws := 0 |}.

(* ===================================================================== *)
(** * More of Python's strings *)
(* ===================================================================== *)

(** [sep.join(l)] *)
Fixpoint join (sep : str) (l : list str) : str :=
  match l with
  | [] => []
  | p :: l' =>
      match l' with
      | [] => p
      | _ :: _ => p ++ sep ++ join sep l'
      end
  end.

(** [s.replace(old, new)] for a non-empty [old]: the parts between the
    occurrences of [old], put together again with [new]. *)
Definition replace (old new s : str) : str := join new (split old s).

(** Puts a character in front of the first part of a split. *)
Definition cons_first (c : Z) (parts : list str) : list str :=
  match parts with
  | p :: ps => (c :: p) :: ps
  | [] => [[c]]
  end.

Section Strip.
Context {U : UnicodeData}.

(** White space as [str.strip()] sees it (Py_UNICODE_ISSPACE). *)
Definition str_isspace (c : Z) : bool :=
  if c <? 128 then
    ((9 <=? c) && (c <=? 13)) || ((28 <=? c) && (c <=? 32))
  else unicode_isspace c.

Fixpoint drop_space (s : str) : str :=
  match s with
  | c :: s' => if str_isspace c then drop_space s' else s
  | [] => []
  end.

(** [s.strip()] *)
Definition strip (s : str) : str :=
  reverse (drop_space (reverse (drop_space s))).
End Strip.

(* ===================================================================== *)
(** * main_function.py: the keywords of a record *)
(* ===================================================================== *)

Definition semicolon : str := Eval cbv in py ";".
Definition bar : str := Eval cbv in py "|".
Definition comma : str := Eval cbv in py ",".
Definition one_space : str := Eval cbv in py " ".
Definition two_spaces : str := Eval cbv in py "  ".

Section Keywords.
Context {U : UnicodeData}.

(** The test of the comprehension: [keyword.strip() and
    len(keyword.strip()) > 1]. *)
Definition keeps_keyword (keyword : str) : bool :=
  negb (bool_decide (strip keyword = []))
  && bool_decide (1 < length (strip keyword))%nat.

(** Clean and split keywords. *)
Definition clean_and_split_keywords (keyword_string : str) : list str :=
  if bool_decide (keyword_string = []) then []
  else
    let cleaned := replace bar comma (replace semicolon comma keyword_string) in
    let cleaned :=
      replace two_spaces one_space (join comma_space (split comma cleaned)) in
    let keywords :=
      strip <$> filter (λ keyword, keeps_keyword keyword)
                       (split comma_space cleaned) in
    take 20 keywords.
End Keywords.

(* ===================================================================== *)
(** * The handlers around the scheduling core *)
(* ===================================================================== *)

(** The lines these handlers print. *)
Inductive note :=
  (* DynamoDB_handler *)
  | Received_event
  | Parsed_body
  | Error_processing_lambda (e : exn)
  (* sqsWorkerLambda *)
  | Received_message (message_body : gmap str str)
  | Invoked_search (user_id : str).

(** The world together with the asynchronous invocations of the search
    function ([EU_Czech_Tender_Search], by the [user_id] of the payload)
    and the lines of these handlers. *)
Record site := {
  aws : world;
  invocations : list str;
  notes : list note
}.

Definition with_aws (w : world) (s : site) : site :=
  {| aws := w; invocations := invocations s; notes := notes s |}.
Definition with_invocations (l : list str) (s : site) : site :=
  {| aws := aws s; invocations := l; notes := notes s |}.
Definition with_notes (l : list note) (s : site) : site :=
  {| aws := aws s; invocations := invocations s; notes := l |}.

(** A step of these handlers. *)
Definition N (A : Type) : Type := site -> result A * site.

#[global] Instance N_ret : MRet N := fun _ a s => (Ok a, s).
#[global] Instance N_bind : MBind N := fun _ _ f m s =>
  match m s with
  | (Ok a, s') => f a s'
  | (Raise e, s') => (Raise e, s')
  end.

(** A step on the world, as a step on the site. *)
Definition in_world {A} (m : M A) : N A := fun s =>
  let '(r, w') := m (aws s) in (r, with_aws w' s).

Definition site_try_except {A} (body : N A) (handler : exn -> N A) : N A :=
  fun s =>
    match body s with
    | (Ok a, s') => (Ok a, s')
    | (Raise e, s') => handler e s'
    end.

(** [print(...)] *)
Definition jot (n : note) : N unit := fun s =>
  (Ok tt, with_notes (notes s ++ [n]) s).

(** [for x in l: body x] *)
Fixpoint site_for_each {A} (body : A -> N unit) (l : list A) : N unit :=
  match l with
  | [] => mret tt
  | a :: l' => body a;; site_for_each body l'
  end.

(** A boto3 call that acts on the site. *)
Definition site_call {A} (E : env) (op : N A) : N A := fun s =>
  let s1 := with_aws (set_calls (S (calls (aws s))) (aws s)) s in
  match fault E (calls (aws s)) with
  | Some e => (Raise e, s1)
  | None => op s1
  end.

(** What these handlers return: the status and the text of the body. *)
Record http_response := {
  http_status : Z;
  http_body : str
}.

(** An exception of the interpreter for calling a method a value does not
    have; the handlers only catch and print it. *)
Definition AttributeError : exn := ServiceError (-1).

(* ===================================================================== *)
(** * DynamoDB_handler.py: the intake of a preference form *)
(* ===================================================================== *)

Definition f_druh_zakazek : str := Eval cbv in py "Vyberte druh zakázek:".
Definition f_klicova_slova : str :=
  Eval cbv in py "Vyhledávaná klíčová slova (Max.15 klíčových slov):".
Definition f_frekvence_zasilani : str :=
  Eval cbv in py "Časová frekvence odesílání:".
Definition f_email_pro_zasilani_vysledku : str :=
  Eval cbv in py "Emailová adresa pro zasílání výsledků:".
Definition f_popis_firmy : str := Eval cbv in py "Popis vaší firmy:".
Definition f_user_email : str := Eval cbv in py "user_email".
Definition f_user_id : str := Eval cbv in py "user_id".
Definition f_user_role : str := Eval cbv in py "user_role".
Definition k_druh_zakazek : str := Eval cbv in py "druh_zakazek".
Definition k_body : str := Eval cbv in py "body".
Definition updated_successfully : str :=
  Eval cbv in py "User preferences updated successfully".
Definition error_processing_data : str := Eval cbv in py "Error processing data".

(** The event of an HTTP request: its body, when it has one, and whether
    the body is base64-encoded. *)
Record http_event := {
  event_body : option str;
  isBase64Encoded : bool
}.

(** The fields of a decoded form, as [parse_qs] returns them: every field
    that occurs has its values, at least one. *)
Definition form : Type := gmap str (str * list str).

(** [parsed_body.get(field, [])] *)
Definition values_of (parsed_body : form) (field : str) : list str :=
  match parsed_body !! field with
  | Some (v, vs) => v :: vs
  | None => []
  end.

(** [parsed_body.get(field, [""])[0]] *)
Definition first_of (parsed_body : form) (field : str) : str :=
  match parsed_body !! field with
  | Some (v, _) => v
  | None => []
  end.

(** The item the handler writes, without its key. *)
Definition item_of (parsed_body : form) : preference_record :=
  {| user_email := Some (first_of parsed_body f_user_email);
     user_role := Some (first_of parsed_body f_user_role);
     preferences :=
       Some (list_to_map
         [ (k_druh_zakazek, join comma_space (values_of parsed_body f_druh_zakazek));
           (k_klicova_slova, join comma_space (values_of parsed_body f_klicova_slova));
           (k_frekvence_zasilani,
              join comma_space (values_of parsed_body f_frekvence_zasilani));
           (k_email_pro_zasilani_vysledku,
              join comma_space (values_of parsed_body f_email_pro_zasilani_vysledku));
           (k_popis_firmy, join comma_space (values_of parsed_body f_popis_firmy)) ]) |}.

Module Intake.
Section Handler.
(** [decode] stands for the library calls on an encoded body:
    [base64.b64decode], [bytes.decode('utf-8')] and [parse_qs] with blank
    values kept. *)
Context (E : env) (decode : str -> result form).

(** [table.put_item(Item=...)]: the item replaces the one under its
    key. *)
Definition put_item (user_id : str) (item : preference_record) : M unit :=
  aws_call E (fun w =>
    (Ok tt, set_store (<[user_id := item]> (store w)) w)).

Definition lambda_handler (event : http_event) : N http_response :=
  site_try_except
    (jot Received_event;;
     body ← in_world (getitem k_body (event_body event));
     parsed_body ←
       (if isBase64Encoded event then in_world (lift (decode body))
        else in_world (raise AttributeError));
     jot Parsed_body;;
     let user_id := first_of parsed_body f_user_id in
     in_world (put_item user_id (item_of parsed_body));;
     mret {| http_status := 200; http_body := updated_successfully |})
    (fun e =>
       jot (Error_processing_lambda e);;
       mret {| http_status := 500; http_body := error_processing_data |}).
End Handler.
End Intake.

(* ===================================================================== *)
(** * sqsWorkerLambda.py: from the queue to the search function *)
(* ===================================================================== *)

Definition k_Records : str := Eval cbv in py "Records".
Definition k_user_id : str := Eval cbv in py "user_id".
Definition k_email : str := Eval cbv in py "email".
Definition k_keywords : str := Eval cbv in py "keywords".
Definition k_description : str := Eval cbv in py "description".
Definition k_role : str := Eval cbv in py "role".
Definition all_handed_off : str :=
  Eval cbv in py "All messages handed off to EU_Czech_Tender_Search Lambda function".

(** The body of a queue record as [json.loads] sees it: no JSON text, or
    an object with string fields (what the sweep sends). *)
Inductive message_text :=
  | Not_json
  | Json_object (fields : gmap str str).

(** A record of the event: its body, when it has one. *)
Record sqs_record := {
  record_body : option message_text
}.

(** The body the sweep sends for a task: [json.dumps(task_details)]. *)
Definition task_json (t : task) : message_text :=
  Json_object
    (list_to_map
       [ (k_user_id, task_user_id t);
         (k_email, task_email t);
         (k_keywords, task_keywords t);
         (k_description, task_description t);
         (k_role, task_role t);
         (k_frekvence_zasilani, task_frekvence_zasilani t) ]).

(** The record that delivers a task of the queue. *)
Definition record_of_task (t : task) : sqs_record :=
  {| record_body := Some (task_json t) |}.

Module Worker.
Section Handler.
Context (E : env).

(** [json.loads(text)] *)
Definition json_loads (text : message_text) : M (gmap str str) :=
  match text with
  | Not_json => raise ValueError
  | Json_object fields => mret fields
  end.

(** [lambda_client.invoke(FunctionName='EU_Czech_Tender_Search',
    InvocationType='Event', Payload=...)] *)
Definition invoke_search (user_id : str) : N unit :=
  site_call E (fun s =>
    (Ok tt, with_invocations (invocations s ++ [user_id]) s)).

(** The body of the loop over the records. *)
Definition hand_off (record : sqs_record) : N unit :=
  text ← in_world (getitem k_body (record_body record));
  message_body ← in_world (json_loads text);
  jot (Received_message message_body);;
  user_id ← in_world (getitem k_user_id (message_body !! k_user_id));
  invoke_search user_id;;
  jot (Invoked_search user_id).

Definition lambda_handler (records : option (list sqs_record)) : N http_response :=
  records ← in_world (getitem k_Records records);
  site_for_each hand_off records;;
  mret {| http_status := 200; http_body := all_handed_off |}.
End Handler.
End Worker.

(* ===================================================================== *)
(** * Vocabulary of the further statements *)
(* ===================================================================== *)

(** The weekly cron expression of the rule manager for the cron day of the
    week [n] (1 is Sunday, 7 is Saturday). *)
Definition cron_weekly (n : Z) : str :=
  py "cron(00 10 ? * " ++ [48 + n] ++ py " *)".

(** A step leaves a component of the world as it is, whatever it returns. *)
Definition leaves {B} (f : world -> B) {A} (m : M A) : Prop :=
  ∀ w, f (m w).2 = f w.

(** The second store holds nothing the first does not hold. *)
Definition shrinks (s s' : gmap str preference_record) : Prop := s' ⊆ s.

(** The user id the worker reads from a record. *)
Definition user_id_of (record : sqs_record) : option str :=
  match record_body record with
  | Some (Json_object fields) => fields !! k_user_id
  | _ => None
  end.

(** The worker leaves the world alone, apart from counting its calls. *)
Definition same_services (w w' : world) : Prop :=
  store w' = store w ∧ queue w' = queue w ∧ rules w' = rules w
  ∧ log w' = log w.

(** Three users again; the schedule of the second one scanned has a time
    that is no number. *)
Definition world_unreadable : world :=
  {| store := list_to_map
                [ (py "1", record_with (py "Jednou denně"));
                  (py "2", record_with (py "Pondělí v poledne"));
                  (py "7", record_with (py "Středa v 12:00")) ];
     queue := [];
     rules := ∅;
     log := [];
     calls := 0;
     draws := 0 |}.

(** A form of user 5 with two frequency values. *)
Definition form_example : form :=
  list_to_map
    [ (f_user_id, (py "5", []));
      (f_user_role, (customer, []));
      (f_klicova_slova, (py "mosty; silnice", []));
      (f_frekvence_zasilani, (py "Pondělí v 10:00", [py "Středa v 12:00"])) ].

Definition prefs_example : gmap str str :=
  default ∅ (preferences (item_of form_example)).

(** [world_three] before any invocation. *)
Definition site_three : site :=
  {| aws := world_three; invocations := []; notes := [] |}.

(* ===================================================================== *)
(** * Strings: lemmas *)
(* ===================================================================== *)

Section StringLemmas.
Context {U : UnicodeData}.

Lemma startswith_app (p s : str) : startswith p (p ++ s) = true.
Proof.
  induction p as [|a p IH]; simpl; [done|].
  by rewrite Z.eqb_refl, IH.
Qed.

Lemma startswith_head_ne (c b : Z) (p s : str) :
  b ≠ c → startswith (c :: p) (b :: s) = false.
Proof.
  simpl. intros H. destruct (Z.eqb_spec c b); [congruence | done].
Qed.

(** A needle whose first character does not occur is not contained. *)
Lemma contains_absent (c : Z) (p s : str) :
  Forall (λ x, x ≠ c) s → contains (c :: p) s = false.
Proof.
  induction s as [|b s IH]; intros H; [done|].
  apply Forall_cons in H as [Hb H].
  cbn [contains]. rewrite (startswith_head_ne c b p s Hb). by apply IH.
Qed.

Lemma split_from_skip (sep a s : str) :
  split_from sep (length a) (a ++ s) = split_from sep 0 s.
Proof. induction a as [|x a IH]; simpl; done. Qed.

(** A text without the first character of the separator is one part. *)
Lemma split_absent (c : Z) (p s : str) :
  Forall (λ x, x ≠ c) s → split (c :: p) s = [s].
Proof.
  unfold split. induction s as [|b s IH]; intros H; [done|].
  apply Forall_cons in H as [Hb H].
  cbn [split_from]. rewrite (startswith_head_ne c b p s Hb).
  by rewrite (IH H).
Qed.

(** The first separator ends the first part. *)
Lemma split_at_first (c : Z) (p a s : str) :
  Forall (λ x, x ≠ c) a →
  split (c :: p) (a ++ (c :: p) ++ s) = a :: split (c :: p) s.
Proof.
  unfold split. induction a as [|b a IH]; intros H.
  - change ([] ++ (c :: p) ++ s) with (c :: (p ++ s)).
    cbn [split_from].
    change (c :: p ++ s) with ((c :: p) ++ s).
    rewrite startswith_app.
    replace (length (c :: p) - 1)%nat with (length p) by (simpl; lia).
    by rewrite split_from_skip.
  - apply Forall_cons in H as [Hb H].
    change ((b :: a) ++ (c :: p) ++ s) with (b :: (a ++ (c :: p) ++ s)).
    cbn [split_from].
    rewrite (startswith_head_ne c b p _ Hb). by rewrite (IH H).
Qed.

Lemma split_nonempty (sep : str) (k : nat) (s : str) :
  split_from sep k s ≠ [].
Proof.
  revert k. induction s as [|b s IH]; intros k; simpl; [done|].
  destruct k; [|apply IH].
  destruct (startswith sep (b :: s)); [done|].
  destruct (split_from sep 0 s); done.
Qed.

Lemma int_todecimal_digit (c : Z) :
  is_digit c → int_todecimal c = Some (c - 48).
Proof.
  unfold is_digit, int_todecimal. intros H.
  destruct (Z.ltb_spec c 127); [|lia].
  destruct (Z.leb_spec 48 c); [|lia].
  destruct (Z.leb_spec c 57); [done|lia].
Qed.

Lemma int_isspace_digit (c : Z) : is_digit c → int_isspace c = false.
Proof.
  unfold is_digit, int_isspace. intros H.
  destruct (Z.ltb_spec c 127); [|lia].
  destruct (Z.leb_spec 9 c), (Z.leb_spec c 13), (Z.eqb_spec c 32);
    simpl; try done; lia.
Qed.

Lemma scan_digits_all (st : scan_state) (acc : Z) (c : Z) (ds : str) :
  Forall is_digit (c :: ds) →
  scan_digits st acc (c :: ds) = Some (digits_value acc (c :: ds), []).
Proof.
  revert st acc c. induction ds as [|d ds IH]; intros st acc c H.
  - apply Forall_cons in H as [Hc _]. cbn [scan_digits].
    destruct (Z.eqb_spec c 95); [unfold is_digit in Hc; lia|].
    by rewrite (int_todecimal_digit c Hc).
  - apply Forall_cons in H as [Hc H].
    change (scan_digits st acc (c :: d :: ds)) with
      (if c =? 95 then
         match st with
         | AfterDigit => scan_digits AfterUnderscore acc (d :: ds)
         | _ => None
         end
       else
         match int_todecimal c with
         | Some x => scan_digits AfterDigit (10 * acc + x) (d :: ds)
         | None => match st with
                   | AfterDigit => Some (acc, c :: d :: ds)
                   | _ => None
                   end
         end).
    destruct (Z.eqb_spec c 95); [unfold is_digit in Hc; lia|].
    rewrite (int_todecimal_digit c Hc). by rewrite (IH _ _ _ H).
Qed.

Lemma digit_count_digits (ds : str) :
  Forall is_digit ds → digit_count ds = Z.of_nat (length ds).
Proof.
  induction 1 as [|c ds Hc _ IH]; [done|]. cbn [digit_count length].
  destruct (Z.eqb_spec c 95); [unfold is_digit in Hc; lia|].
  rewrite (int_todecimal_digit c Hc). lia.
Qed.

(** [int] of a non-empty string of ASCII digits, of no more digits than
    the interpreter converts, is its decimal value. *)
Lemma py_int_digits (c : Z) (ds : str) :
  Forall is_digit (c :: ds) →
  Z.of_nat (length (c :: ds)) ≤ int_max_str_digits →
  py_int (c :: ds) = Ok (digits_value 0 (c :: ds)).
Proof.
  intros H Hlen. unfold py_int.
  pose proof H as H'. apply Forall_cons in H' as [Hc _].
  cbn [lstrip]. rewrite (int_isspace_digit c Hc).
  destruct (Z.eqb_spec c 43); [unfold is_digit in Hc; lia|].
  destruct (Z.eqb_spec c 45); [unfold is_digit in Hc; lia|].
  rewrite (scan_digits_all AtStart 0 c ds H). cbn [forallb].
  rewrite (digit_count_digits (c :: ds) H).
  destruct (Z.ltb_spec int_max_str_digits (Z.of_nat (length (c :: ds))));
    [lia|].
  f_equal. lia.
Qed.

(** A literal of more digits is refused. *)
Lemma py_int_too_long (c : Z) (ds : str) :
  Forall is_digit (c :: ds) →
  int_max_str_digits < Z.of_nat (length (c :: ds)) →
  py_int (c :: ds) = Raise ValueError.
Proof.
  intros H Hlen. unfold py_int.
  pose proof H as H'. apply Forall_cons in H' as [Hc _].
  cbn [lstrip]. rewrite (int_isspace_digit c Hc).
  destruct (Z.eqb_spec c 43); [unfold is_digit in Hc; lia|].
  destruct (Z.eqb_spec c 45); [unfold is_digit in Hc; lia|].
  rewrite (scan_digits_all AtStart 0 c ds H). cbn [forallb].
  rewrite (digit_count_digits (c :: ds) H).
  destruct (Z.ltb_spec int_max_str_digits (Z.of_nat (length (c :: ds))));
    [done | lia].
Qed.

Lemma two_digits_digits (n : Z) : 0 ≤ n < 100 → Forall is_digit (two_digits n).
Proof.
  intros H. unfold two_digits, is_digit.
  assert (0 ≤ n / 10 < 10) by (split; [apply Z.div_pos | apply Z.div_lt_upper_bound]; lia).
  assert (0 ≤ n mod 10 < 10) by (apply Z.mod_pos_bound; lia).
  repeat constructor; lia.
Qed.

Lemma py_int_two_digits (n : Z) : 0 ≤ n < 100 → py_int (two_digits n) = Ok n.
Proof.
  intros H. unfold two_digits at 1.
  rewrite py_int_digits
    by (first [apply (two_digits_digits n H) | by cbn]).
  f_equal. unfold digits_value. cbn [foldl].
  pose proof (Z.div_mod n 10). lia.
Qed.
End StringLemmas.

(* ===================================================================== *)
(** * The due-time evaluator: properties *)
(* ===================================================================== *)

Section EvaluatorProperties.
Context {U : UnicodeData}.

(** The seven day names hold neither a space nor the letter J. *)
Lemma day_name_plain (d : str) (k : Z) :
  day_mapping !! d = Some k →
  Forall (λ x, x ≠ 32) d ∧ Forall (λ x, x ≠ 74) d.
Proof.
  intros H. apply elem_of_list_to_map_2 in H.
  repeat (apply elem_of_cons in H as [H|H];
          [injection H as -> ->; split; repeat constructor; done|]).
  by apply elem_of_nil in H.
Qed.

Lemma digits_not (c : Z) (ds : str) :
  ¬ is_digit c → Forall is_digit ds → Forall (λ x, x ≠ c) ds.
Proof.
  intros Hc H. eapply Forall_impl; [exact H|].
  intros x Hx ->. by apply Hc.
Qed.

(** The evaluator on a well-formed time of day. *)
Lemma evaluate_day_at (now : datetime) (d : str) (hh mm : Z) :
  Forall (λ x, x ≠ 32) d → Forall (λ x, x ≠ 74) d →
  0 ≤ hh < 100 → 0 ≤ mm < 100 →
  is_scheduled_time now (day_at d hh mm) =
    match day_mapping !! d with
    | Some k => Ok (bool_decide (weekday now = k ∧ hour now = hh))
    | None => Ok false
    end.
Proof.
  intros Hsp HJ Hh Hm.
  pose proof (two_digits_digits hh Hh) as Dh.
  pose proof (two_digits_digits mm Hm) as Dm.
  unfold is_scheduled_time, day_at, Jednou_denne.
  rewrite contains_absent.
  2:{ repeat (apply Forall_app; split); try done.
      - unfold sep_v. repeat constructor; done.
      - apply digits_not; [unfold is_digit; lia | done].
      - unfold colon. repeat constructor; done.
      - apply digits_not; [unfold is_digit; lia | done]. }
  unfold sep_v at 1 2. rewrite split_at_first by done.
  rewrite split_absent.
  2:{ repeat (apply Forall_app; split).
      - apply digits_not; [unfold is_digit; lia | done].
      - unfold colon. repeat constructor; done.
      - apply digits_not; [unfold is_digit; lia | done]. }
  unfold colon. rewrite split_at_first
    by (apply digits_not; [unfold is_digit; lia | done]).
  cbn [first_part]. rewrite py_int_two_digits by done.
  cbn [mbind result_bind].
  destruct (day_mapping !! d) as [k|]; [|done].
  destruct (Z.eqb_spec (weekday now) k), (Z.eqb_spec (hour now) hh); simpl;
    f_equal; symmetry;
    first [ apply bool_decide_eq_true_2; done
          | apply bool_decide_eq_false_2; intros [? ?]; done ].
Qed.

(** C3. For every entry "<day> v <HH:MM>" whose day is one of the seven
    names of [day_mapping], and every instant, [is_scheduled_time] returns
    the truth value of "the weekday of the instant is the table entry of
    the day and its hour is HH"; neither the minutes of the entry nor
    those of the instant take part. *)
Theorem weekly_entry_due (now : datetime) (d : str) (k hh mm : Z) :
  day_mapping !! d = Some k →
  0 ≤ hh < 100 →
  0 ≤ mm < 100 →
  is_scheduled_time now (day_at d hh mm) =
    Ok (bool_decide (weekday now = k ∧ hour now = hh)).
Proof.
  intros Hd Hh Hm.
  destruct (day_name_plain d k Hd) as [Hsp HJ].
  rewrite evaluate_day_at by done. by rewrite Hd.
Qed.

(** C4. For every schedule string that contains the daily marker
    "Jednou denně" and every instant, [is_scheduled_time] returns true
    exactly when the hour of the instant is 12, whatever the weekday. *)
Theorem daily_marker_due (now : datetime) (s : str) :
  contains Jednou_denne s = true →
  is_scheduled_time now s = Ok (bool_decide (hour now = 12)).
Proof.
  intros H. unfold is_scheduled_time. rewrite H. f_equal.
  destruct (Z.eqb_spec (hour now) 12); symmetry;
    [by apply bool_decide_eq_true_2 | by apply bool_decide_eq_false_2].
Qed.

(** X18. For every schedule entry without the daily marker whose day
    token is not a key of [day_mapping] and whose hour, when the entry
    has a day and a time, reads as an integer, [is_scheduled_time]
    returns false at every instant. *)
Theorem unknown_day_never_due (now : datetime) (s : str) :
  contains Jednou_denne s = false →
  day_mapping !! day_token s = None →
  hour_readable s →
  is_scheduled_time now s = Ok false.
Proof.
  intros Hm Hd Hr. unfold is_scheduled_time. rewrite Hm.
  unfold day_token in Hd. unfold hour_readable in Hr.
  destruct (split sep_v s) as [|day_name [|time_str [|? ?]]]; try done.
  destruct (Hr day_name time_str eq_refl) as [h ->].
  cbn [mbind result_bind first_part] in *. by rewrite Hd.
Qed.

(** An entry "<day> v <HH:MM>" has a readable hour and its day token is
    its day, whenever the day holds no space. *)
Lemma day_at_token (d : str) (hh mm : Z) :
  Forall (λ x, x ≠ 32) d → 0 ≤ hh < 100 → 0 ≤ mm < 100 →
  day_token (day_at d hh mm) = d ∧ hour_readable (day_at d hh mm).
Proof.
  intros Hsp Hh Hm.
  pose proof (two_digits_digits hh Hh) as Dh.
  pose proof (two_digits_digits mm Hm) as Dm.
  assert (split sep_v (day_at d hh mm) =
          [d; two_digits hh ++ colon ++ two_digits mm]) as Hs.
  { unfold day_at, sep_v. rewrite split_at_first by done.
    rewrite split_absent; [done|].
    repeat (apply Forall_app; split).
    - apply digits_not; [unfold is_digit; lia | done].
    - unfold colon. repeat constructor; done.
    - apply digits_not; [unfold is_digit; lia | done]. }
  split.
  - unfold day_token. by rewrite Hs.
  - intros d' t'. rewrite Hs. intros Heq.
    assert (t' = two_digits hh ++ colon ++ two_digits mm) as ->
      by congruence.
    exists hh. unfold colon. rewrite split_at_first
      by (apply digits_not; [unfold is_digit; lia | done]).
    cbn [first_part]. by apply py_int_two_digits.
Qed.

(** The only exception [is_scheduled_time] raises is [ValueError]. *)
Lemma is_scheduled_time_outcomes (now : datetime) (s : str) :
  (∃ b, is_scheduled_time now s = Ok b)
  ∨ is_scheduled_time now s = Raise ValueError.
Proof.
  unfold is_scheduled_time.
  destruct (contains Jednou_denne s); [eauto|].
  destruct (split sep_v s) as [|day_name [|time_str [|? ?]]]; eauto.
  unfold py_int.
  destruct (let '(_, _) := _ in _) as [h|e] eqn:Hp.
  - cbn [mbind result_bind]. destruct (day_mapping !! day_name); eauto.
    destruct (_ && _); eauto.
  - right. cbn [mbind result_bind]. f_equal.
    destruct (match lstrip _ with [] => _ | _ => _ end) as [sg bd].
    destruct (scan_digits _ _ _) as [[n r]|]; [|congruence].
    destruct (forallb _ _); [|congruence].
    destruct (_ <? _); congruence.
Qed.

(** C6. The evaluator is not total: on an entry whose time does not start
    with an integer the conversion [int(...)] raises [ValueError], at
    every instant and before the day name is even looked up. *)
Theorem non_numeric_time_raises (now : datetime) :
  is_scheduled_time now (py "Pondělí v poledne") = Raise ValueError
  ∧ is_scheduled_time now (py "Zítra v osm") = Raise ValueError.
Proof. split; reflexivity. Qed.

(** C5. An unrecognised day token does not make the evaluator return
    false: "Zítra v osm" holds no daily marker and its day token "Zítra"
    is no key of [day_mapping], and [is_scheduled_time] raises
    [ValueError] on it at every instant, the hour being converted before
    the day is looked up. *)
Theorem unknown_day_raises (now : datetime) :
  contains Jednou_denne (py "Zítra v osm") = false
  ∧ day_mapping !! day_token (py "Zítra v osm") = None
  ∧ is_scheduled_time now (py "Zítra v osm") = Raise ValueError.
Proof. repeat split. Qed.

(** The same with an hour of more digits than [int] converts. *)
Lemma unknown_day_long_hour (now : datetime) (d : str) (c : Z) (ds : str) :
  Forall (λ x, x ≠ 32) d → Forall (λ x, x ≠ 74) d →
  Forall is_digit (c :: ds) →
  int_max_str_digits < Z.of_nat (length (c :: ds)) →
  is_scheduled_time now (d ++ sep_v ++ c :: ds) = Raise ValueError.
Proof.
  intros Hsp HJ Hds Hlen. unfold is_scheduled_time, Jednou_denne.
  rewrite contains_absent.
  2:{ repeat (apply Forall_app; split); try done.
      - unfold sep_v. repeat constructor; done.
      - apply digits_not; [unfold is_digit; lia | done]. }
  unfold sep_v at 1 2. rewrite split_at_first by done.
  rewrite split_absent
    by (apply digits_not; [unfold is_digit; lia | done]).
  unfold colon. rewrite split_absent
    by (apply digits_not; [unfold is_digit; lia | done]).
  cbn [first_part]. by rewrite py_int_too_long.
Qed.
End EvaluatorProperties.

(** The literals of the source, as code points. *)
Example source_literals :
  Jednou_denne = [74; 101; 100; 110; 111; 117; 32; 100; 101; 110; 110; 283]
  ∧ Streda = [83; 116; 345; 101; 100; 97]
  ∧ sep_v = [32; 118; 32]
  ∧ Kazdy_den = [75; 97; 382; 100; 253; 32; 100; 101; 110]
  ∧ gregi = [103; 114; 101; 103; 105].
Proof. repeat split. Qed.

(** The end-to-end scenario of the specification: "Středa v 12:00" is due
    on a Wednesday at 12:07, and not at 13:07 nor on the Thursday. *)
Example wednesday_noon :
  ∀ U : UnicodeData,
    is_scheduled_time
      {| toordinal := 739021; hour := 12; minute := 7; second := 0;
         microsecond := 0 |} (py "Středa v 12:00") = Ok true
    ∧ is_scheduled_time
        {| toordinal := 739021; hour := 13; minute := 7; second := 0;
           microsecond := 0 |} (py "Středa v 12:00") = Ok false
    ∧ is_scheduled_time
        {| toordinal := 739022; hour := 12; minute := 7; second := 0;
           microsecond := 0 |} (py "Středa v 12:00") = Ok false.
Proof. intros U. repeat split; vm_compute; reflexivity. Qed.

(** A list of two entries is never due: the sweep does not split the
    schedule on ", " and the text then has three parts around " v ". *)
Example two_entries_never_due :
  ∀ (U : UnicodeData) (now : datetime),
    is_scheduled_time now (py "Středa v 12:00, Pátek v 09:00") = Ok false.
Proof. intros U now. reflexivity. Qed.

(** Witness of [weekly_entry_due]: "Středa v 12:00" on a Wednesday at 12:07. *)
Lemma weekly_entry_due_witness :
  is_scheduled_time (U := ascii_only)
    {| toordinal := 739021; hour := 12; minute := 7; second := 0;
       microsecond := 0 |}
    (py "Středa v 12:00") = Ok true.
Proof.
  exact (weekly_entry_due (U := ascii_only)
    {| toordinal := 739021; hour := 12; minute := 7; second := 0;
       microsecond := 0 |} Streda 2 12 0
    ltac:(reflexivity) ltac:(lia) ltac:(lia)).
Defined.

(* ===================================================================== *)
(** * Steps that run alike *)
(* ===================================================================== *)

Lemma bind_ext {A B} (m m' : M A) (f f' : A → M B) (w : world) :
  m w = m' w → (∀ a w1, f a w1 = f' a w1) → (m ≫= f) w = (m' ≫= f') w.
Proof.
  intros Hm Hf. unfold mbind, M_bind. rewrite Hm.
  destruct (m' w) as [[a|e] w1]; [apply Hf | done].
Qed.

Lemma try_except_ext {A} (m m' : M A) (h h' : exn → M A) (w : world) :
  m w = m' w → (∀ e w1, h e w1 = h' e w1) →
  try_except m h w = try_except m' h' w.
Proof.
  intros Hm Hh. unfold try_except. rewrite Hm.
  destruct (m' w) as [[a|e] w1]; [done | apply Hh].
Qed.

(* ===================================================================== *)
(** * What a step may do to the Preference Store *)
(* ===================================================================== *)

#[global] Instance agree_outside_preorder (K : list str) :
  PreOrder (agree_outside K).
Proof.
  split.
  - by intros s k Hk.
  - intros s1 s2 s3 H12 H23 k Hk. by rewrite (H23 k Hk), (H12 k Hk).
Qed.

Section Frames.
Context (R : relation (gmap str preference_record)) `{!PreOrder R}.

Lemma moves_ret {A} (a : A) : store_moves R (mret a).
Proof. intros w. reflexivity. Qed.

Lemma moves_raise {A} (e : exn) : store_moves R (raise (A := A) e).
Proof. intros w. reflexivity. Qed.

Lemma moves_lift {A} (r : result A) : store_moves R (lift r).
Proof. intros w. reflexivity. Qed.

Lemma moves_getitem {A} (k : str) (v : option A) : store_moves R (getitem k v).
Proof. destruct v; intros w; reflexivity. Qed.

Lemma moves_print (ev : event) : store_moves R (print ev).
Proof. intros w. reflexivity. Qed.

Lemma moves_bind {A B} (m : M A) (f : A → M B) :
  store_moves R m → (∀ a, store_moves R (f a)) → store_moves R (m ≫= f).
Proof.
  intros Hm Hf w. unfold mbind, M_bind. specialize (Hm w).
  destruct (m w) as [[a|e] w1]; cbn in *; [|done].
  etrans; [exact Hm | apply Hf].
Qed.

Lemma moves_try_except {A} (m : M A) (h : exn → M A) :
  store_moves R m → (∀ e, store_moves R (h e)) →
  store_moves R (try_except m h).
Proof.
  intros Hm Hh w. unfold try_except. specialize (Hm w).
  destruct (m w) as [[a|e] w1]; cbn in *; [done|].
  etrans; [exact Hm | apply Hh].
Qed.

Lemma moves_catch {A} (m : M A) : store_moves R m → store_moves R (catch m).
Proof.
  intros Hm w. unfold catch. specialize (Hm w). by destruct (m w).
Qed.

Lemma moves_aws_call {A} (E : env) (op : M A) :
  store_moves R op → store_moves R (aws_call E op).
Proof.
  intros Hop w. unfold aws_call. destruct (fault E (calls w)).
  - reflexivity.
  - apply (Hop (set_calls (S (calls w)) w)).
Qed.

Lemma moves_for_fold {A S} (f : S → A → M S) (l : list A) :
  (∀ s a, a ∈ l → store_moves R (f s a)) →
  ∀ s, store_moves R (for_fold f s l).
Proof.
  induction l as [|a l IH]; intros Hf s; cbn [for_fold].
  - apply moves_ret.
  - apply moves_bind; [apply Hf; by left |].
    apply IH. intros s' a' Ha'. apply Hf. by right.
Qed.

Lemma moves_for_each {A} (f : A → M unit) (l : list A) :
  (∀ a, a ∈ l → store_moves R (f a)) → store_moves R (for_each f l).
Proof.
  induction l as [|a l IH]; intros Hf; cbn [for_each].
  - apply moves_ret.
  - apply moves_bind; [apply Hf; by left |].
    intros _. apply IH. intros a' Ha'. apply Hf. by right.
Qed.
End Frames.

(** Closes the goals [store_moves R m] for the steps that only read. *)
Ltac moves_only_reads :=
  repeat first
    [ apply moves_getitem; apply _
    | apply moves_lift; apply _
    | apply moves_ret; apply _
    | apply moves_raise; apply _
    | apply moves_print; apply _
    | apply moves_bind; [apply _ | | intros ?; cbv beta zeta]
    | apply moves_try_except; [apply _ | | intros ?; cbv beta zeta]
    | apply moves_catch
    | apply moves_aws_call; [apply _ | intros ?; reflexivity]
    | match goal with
      | |- store_moves _ (if ?b then _ else _) => destruct b
      | |- store_moves _ (match ?r with Ok _ => _ | Raise _ => _ end) =>
          destruct r
      end ].

(* ===================================================================== *)
(** * The sweep: properties *)
(* ===================================================================== *)

Lemma delivered_no_fault (E : env) (first : nat) (ts : list task) :
  (∀ i, fault E i = None) → delivered E first ts = ts.
Proof.
  intros H. revert first. induction ts as [|t ts IH]; intros first; [done|].
  simpl. by rewrite H, IH.
Qed.

Lemma delivered_elem (E : env) (first i : nat) (ts : list task) (t : task) :
  ts !! i = Some t → fault E (first + i) = None → t ∈ delivered E first ts.
Proof.
  revert first i. induction ts as [|t' ts IH]; intros first i Hi Hf; [done|].
  destruct i as [|i]; simpl in *.
  - injection Hi as ->. rewrite Nat.add_0_r in Hf. rewrite Hf. by left.
  - assert (t ∈ delivered E (S first) ts) as Hin.
    { apply (IH (S first) i); [done|]. by replace (S first + i)%nat with (first + S i)%nat by lia. }
    destruct (fault E first); [done | by right].
Qed.

Section SweepProperties.
Context {U : UnicodeData} (E : env).

Lemma is_due_true (now : datetime) (item : str * preference_record) (t : task) :
  due now item t → is_due now item = true.
Proof.
  intros [Ht Hs]. unfold is_due, frekvence. unfold task_of in Ht.
  destruct (preferences item.2) as [prefs|]; [|done]. cbn in *.
  destruct (prefs !! k_frekvence_zasilani) as [s|]; [|done]. cbn in *.
  destruct (prefs !! k_email_pro_zasilani_vysledku); [|done]. cbn in *.
  destruct (prefs !! k_klicova_slova); [|done]. cbn in *.
  destruct (prefs !! k_popis_firmy); [|done]. cbn in *.
  destruct (user_role item.2); [|done]. cbn in *.
  injection Ht as <-. cbn in Hs. by rewrite Hs.
Qed.

Lemma is_due_false (now : datetime) (item : str * preference_record) :
  not_due now item → is_due now item = false.
Proof. intros (s & Hf & Hs). unfold is_due. by rewrite Hf, Hs. Qed.

(** An item that is not due leaves no trace. *)
Lemma process_item_not_due (now : datetime) (n : nat)
    (item : str * preference_record) (w : world) :
  not_due now item →
  Scheduler.process_item E now n item w = (Ok n, w).
Proof.
  intros (s & Hf & Hs). unfold Scheduler.process_item, frekvence in *.
  destruct (preferences item.2) as [prefs|]; [|done]. cbn in Hf.
  unfold mbind, M_bind, getitem, lift. cbn. rewrite Hf. cbn. by rewrite Hs.
Qed.

(** A due item costs one call to the queue; the task is enqueued and
    counted when the call succeeds, and the failure is logged when it
    does not. *)
Lemma process_item_due (now : datetime) (n : nat)
    (item : str * preference_record) (t : task) (w : world) :
  due now item t →
  ∃ w',
    store w' = store w ∧ rules w' = rules w ∧ draws w' = draws w
    ∧ calls w' = S (calls w)
    ∧ match fault E (calls w) with
      | None =>
          Scheduler.process_item E now n item w = (Ok (S n), w')
          ∧ queue w' = queue w ++ [t]
          ∧ log w' = log w ++ [Message_sent (task_user_id t)]
      | Some e =>
          Scheduler.process_item E now n item w = (Ok n, w')
          ∧ queue w' = queue w
          ∧ log w' = log w ++ [Send_failed (task_user_id t) e]
      end.
Proof.
  intros [Ht Hs]. unfold Scheduler.process_item. unfold task_of in Ht.
  destruct (preferences item.2) as [prefs|]; [|done]. cbn in Ht.
  destruct (prefs !! k_frekvence_zasilani) as [s|] eqn:E1; [|done]. cbn in Ht.
  destruct (prefs !! k_email_pro_zasilani_vysledku) as [em|] eqn:E2; [|done]. cbn in Ht.
  destruct (prefs !! k_klicova_slova) as [kw|] eqn:E3; [|done]. cbn in Ht.
  destruct (prefs !! k_popis_firmy) as [ds|] eqn:E4; [|done]. cbn in Ht.
  destruct (user_role item.2) as [rl|] eqn:E5; [|done]. cbn in Ht.
  injection Ht as <-. cbn in Hs.
  unfold mbind, M_bind, getitem, lift, try_except, Scheduler.sqs_send_message,
    aws_call, print. cbn. rewrite E1. cbn. rewrite Hs, E2. cbn.
  rewrite E3. cbn. rewrite E4. cbn.
  destruct (fault E (calls w)) as [e|]; cbn.
  - by exists (set_log (log w ++ [Send_failed item.1 e])
                (set_calls (S (calls w)) w)).
  - by eexists (set_log (log w ++ [Message_sent item.1])
                 (set_queue (queue w ++ [_]) (set_calls (S (calls w)) w))).
Qed.

(** The loop of the sweep over items that are each due or not due. *)
Lemma sweep_loop (now : datetime) (items : list (str * preference_record)) :
  ∀ (n : nat) (w : world),
  (∀ item, item ∈ items → (∃ t, due now item t) ∨ not_due now item) →
  ∃ w' evs,
    for_fold (Scheduler.process_item E now) n items w =
      (Ok (n + length (delivered E (calls w) (due_tasks now items)))%nat, w')
    ∧ store w' = store w ∧ rules w' = rules w ∧ draws w' = draws w
    ∧ calls w' = (calls w + length (due_tasks now items))%nat
    ∧ queue w' = queue w ++ delivered E (calls w) (due_tasks now items)
    ∧ log w' = log w ++ evs
    ∧ (∀ i t e, due_tasks now items !! i = Some t →
                fault E (calls w + i) = Some e →
                Send_failed (task_user_id t) e ∈ evs).
Proof.
  induction items as [|item items IH]; intros n w H.
  - exists w, []. cbn. rewrite Nat.add_0_r, !app_nil_r. repeat split; done.
  - assert (∀ it, it ∈ items → (∃ t, due now it t) ∨ not_due now it) as H'
      by (intros it Hit; apply H; by right).
    destruct (H item ltac:(by left)) as [[t Hd]|Hn].
    + destruct (process_item_due now n item t w Hd)
        as (w1 & Hst & Hru & Hdr & Hca & Hstep).
      assert (due_tasks now (item :: items) = t :: due_tasks now items) as ->.
      { unfold due_tasks. rewrite filter_cons_True
          by (rewrite (is_due_true now item t Hd); done).
        cbn. destruct Hd as [-> _]. done. }
      cbn [for_fold delivered length]. unfold mbind at 1, M_bind at 1.
      destruct (IH (match fault E (calls w) with None => S n | Some _ => n end)
                   w1 H')
        as (w' & evs & Hrun & Hst' & Hru' & Hdr' & Hca' & Hq' & Hl' & Hev').
      rewrite Hca in *.
      destruct (fault E (calls w)) as [e|] eqn:Hf;
        destruct Hstep as (-> & Hq1 & Hl1); rewrite Hrun.
      * exists w', (Send_failed (task_user_id t) e :: evs).
        repeat split; try congruence.
        -- rewrite Hca'. lia.
        -- rewrite Hl', Hl1. by rewrite <- app_assoc.
        -- intros [|i] t' e' Hi Hfi; cbn in Hi.
           ++ injection Hi as <-. rewrite Nat.add_0_r in Hfi.
              assert (e' = e) as -> by congruence. by left.
           ++ right. apply (Hev' i t' e' Hi).
              by replace (S (calls w) + i)%nat with (calls w + S i)%nat by lia.
      * exists w', (Message_sent (task_user_id t) :: evs).
        repeat split; try congruence.
        -- cbn [length]. by rewrite Nat.add_succ_r.
        -- rewrite Hca'. lia.
        -- rewrite Hq', Hq1. by rewrite <- app_assoc.
        -- rewrite Hl', Hl1. by rewrite <- app_assoc.
        -- intros [|i] t' e' Hi Hfi; cbn in Hi.
           ++ rewrite Nat.add_0_r in Hfi. congruence.
           ++ right. apply (Hev' i t' e' Hi).
              by replace (S (calls w) + i)%nat with (calls w + S i)%nat by lia.
    + assert (due_tasks now (item :: items) = due_tasks now items) as ->.
      { unfold due_tasks. rewrite filter_cons_False
          by (rewrite (is_due_false now item Hn); intros []). done. }
      cbn [for_fold]. unfold mbind at 1, M_bind at 1.
      rewrite (process_item_not_due now n item w Hn).
      apply IH, H'.
Qed.

Lemma due_tasks_spec (now : datetime) (items : list (str * preference_record)) :
  (∀ item, item ∈ items → (∃ t, due now item t) ∨ not_due now item) →
  Forall2 (due now) (filter (λ item, is_due now item) items)
          (due_tasks now items).
Proof.
  induction items as [|item items IH]; intros H; [constructor|].
  assert (∀ it, it ∈ items → (∃ t, due now it t) ∨ not_due now it) as H'
    by (intros it Hit; apply H; by right).
  unfold due_tasks in *.
  destruct (H item ltac:(by left)) as [[t Hd]|Hn].
  - rewrite filter_cons_True by (rewrite (is_due_true now item t Hd); done).
    cbn. destruct Hd as [Ht Hs]. rewrite Ht. constructor; [done|by apply IH].
  - rewrite filter_cons_False
      by (rewrite (is_due_false now item Hn); intros []).
    by apply IH.
Qed.

(** The handler when the scan fails. *)
Lemma handler_scan_failed (w : world) (e : exn) :
  fault E (calls w) = Some e →
  Scheduler.lambda_handler E w =
    (Ok {| statusCode := 500; body := Failed_to_scan e |},
     set_log (log w ++ [Started; Scan_failed e]) (set_calls (S (calls w)) w)).
Proof.
  intros Hf. unfold Scheduler.lambda_handler, Scheduler.dynamodb_scan.
  unfold mbind, M_bind, catch, aws_call, print. cbn. rewrite Hf. cbn.
  by rewrite <- app_assoc.
Qed.

(** The handler when the scan succeeds: the loop runs on the scanned
    items from the next call on. *)
Lemma handler_scan_ok (w : world) :
  fault E (calls w) = None →
  Scheduler.lambda_handler E w =
    let w0 := set_log (log w ++ [Started; Scan_response (scanned E w)])
                (set_calls (S (calls w)) w) in
    match for_fold (Scheduler.process_item E (sweep_instant E)) 0%nat
                   (scanned E w) w0 with
    | (Ok n, w') =>
        (Ok {| statusCode := 200; body := Messages_successfully_sent n |}, w')
    | (Raise e, w') => (Raise e, w')
    end.
Proof.
  intros Hf. unfold Scheduler.lambda_handler, Scheduler.dynamodb_scan.
  unfold mbind, M_bind, catch, aws_call, print. cbn. rewrite Hf. cbn.
  by rewrite <- app_assoc.
Qed.

(** C1, as amended. When no call fails and every record of the page that
    the one Scan of the sweep returns is either due (with all the fields
    of its task) or not due at the instant of the sweep, the handler
    returns 200 with the number of due records of that page as its count
    of messages sent, and appends to the queue exactly the tasks of those
    due records, one for each in the order of the scan, and nothing for
    the records that are not due. *)
Theorem sweep_enqueues_the_due (w : world) :
  (∀ i, fault E i = None) →
  (∀ item, item ∈ scanned E w →
     (∃ t, due (sweep_instant E) item t) ∨ not_due (sweep_instant E) item) →
  ∃ w' new,
    Scheduler.lambda_handler E w =
      (Ok {| statusCode := 200;
             body := Messages_successfully_sent
               (length (filter (λ item, is_due (sweep_instant E) item)
                               (scanned E w))) |}, w')
    ∧ queue w' = queue w ++ new
    ∧ Forall2 (due (sweep_instant E))
        (filter (λ item, is_due (sweep_instant E) item) (scanned E w)) new.
Proof.
  intros Hf H. rewrite handler_scan_ok by apply Hf. cbn zeta.
  destruct (sweep_loop (sweep_instant E) (scanned E w) 0%nat
              (set_log (log w ++ [Started; Scan_response (scanned E w)])
                 (set_calls (S (calls w)) w)) H)
    as (w' & evs & Hrun & _ & _ & _ & _ & Hq & _).
  rewrite Hrun. rewrite delivered_no_fault in * by done.
  pose proof (due_tasks_spec (sweep_instant E) (scanned E w) H) as HF.
  exists w', (due_tasks (sweep_instant E) (scanned E w)). split_and!.
  - by rewrite (Forall2_length _ _ _ HF).
  - exact Hq.
  - exact HF.
Qed.

(** X17. If the scan fails with [e], the handler returns 500 reporting
    [e] and the queue is as before. If the scan succeeds and every
    scanned record is due or not due, the handler returns 200 however
    the sends fail: the queue receives the tasks whose send succeeds, the
    count is their number, and for every due record its task is in the
    queue if its send succeeds and its failure is in the log if not. *)
Theorem sweep_failures (w : world) :
  (∀ e, fault E (calls w) = Some e →
     ∃ w', Scheduler.lambda_handler E w =
             (Ok {| statusCode := 500; body := Failed_to_scan e |}, w')
           ∧ queue w' = queue w
           ∧ Scan_failed e ∈ log w')
  ∧ (fault E (calls w) = None →
     (∀ item, item ∈ scanned E w →
        (∃ t, due (sweep_instant E) item t) ∨ not_due (sweep_instant E) item) →
     ∃ w', Scheduler.lambda_handler E w =
             (Ok {| statusCode := 200;
                    body := Messages_successfully_sent
                      (length (delivered E (S (calls w))
                                 (due_tasks (sweep_instant E) (scanned E w)))) |},
              w')
           ∧ queue w' =
               queue w ++ delivered E (S (calls w))
                            (due_tasks (sweep_instant E) (scanned E w))
           ∧ ∀ i t, due_tasks (sweep_instant E) (scanned E w) !! i = Some t →
               match fault E (S (calls w) + i) with
               | None => t ∈ queue w'
               | Some e => Send_failed (task_user_id t) e ∈ log w'
               end).
Proof.
  split.
  - intros e Hf. rewrite (handler_scan_failed w e Hf). eexists. split_and!.
    + done.
    + done.
    + cbn. apply elem_of_app. right. by do 2 constructor.
  - intros Hf H. rewrite handler_scan_ok by apply Hf. cbn zeta.
    destruct (sweep_loop (sweep_instant E) (scanned E w) 0%nat
                (set_log (log w ++ [Started; Scan_response (scanned E w)])
                   (set_calls (S (calls w)) w)) H)
      as (w' & evs & Hrun & _ & _ & _ & _ & Hq & Hl & Hev).
    rewrite Hrun. cbn in Hq, Hl, Hev. exists w'. split_and!.
    + done.
    + exact Hq.
    + intros i t Hi. destruct (fault E (S (calls w) + i)) as [e|] eqn:Hfi.
      * rewrite Hl. apply elem_of_app. right. exact (Hev i t e Hi Hfi).
      * rewrite Hq. apply elem_of_app. right.
        exact (delivered_elem E (S (calls w)) i _ t Hi Hfi).
Qed.

(** C9. Whatever the clock, the failures and the records are, and
    whether the handler returns or raises, the Preference Store after the
    sweep is the Preference Store before it: every record is as it was. *)
Theorem sweep_keeps_store (w : world) :
  store (Scheduler.lambda_handler E w).2 = store w
  ∧ ∀ user_id, store (Scheduler.lambda_handler E w).2 !! user_id
               = store w !! user_id.
Proof.
  assert (store_moves (=) (Scheduler.lambda_handler E)) as H.
  { unfold Scheduler.lambda_handler, Scheduler.dynamodb_scan.
    moves_only_reads. apply moves_for_fold; [apply _|].
    intros n item _. unfold Scheduler.process_item, Scheduler.sqs_send_message.
    moves_only_reads. }
  split; [symmetry; apply H | intros user_id; by rewrite <- (H w)].
Qed.
End SweepProperties.

(* ===================================================================== *)
(** * The reconciliation sweeper: properties *)
(* ===================================================================== *)

(** The keys of the users 1 to 99 are pairwise distinct. *)
Lemma user_keys_distinct : NoDup (str_of_int <$> Reconciler.user_ids).
Proof. apply (bool_decide_unpack _). vm_compute. exact I. Qed.

Lemma distinct_images {A B} (f : A → B) (l : list A) (x y : A) :
  NoDup (f <$> l) → x ∈ l → y ∈ l → f x = f y → x = y.
Proof.
  induction l as [|a l IH]; intros Hnd Hx Hy Hf; [by apply elem_of_nil in Hx|].
  rewrite fmap_cons in Hnd. apply NoDup_cons in Hnd as [Ha Hnd].
  apply elem_of_cons in Hx as [->|Hx]; apply elem_of_cons in Hy as [->|Hy].
  - done.
  - exfalso. apply Ha. rewrite Hf. by apply list_elem_of_fmap_2.
  - exfalso. apply Ha. rewrite <- Hf. by apply list_elem_of_fmap_2.
  - by apply IH.
Qed.

Section ReconcilerProperties.
Context (E : env).

(** One user, when the store answers every call. *)
Lemma check_user_step (uid : Z) (w : world) :
  fault E (calls w) = None →
  ∃ w' evs,
    Reconciler.check_user E uid w = (Ok tt, w')
    ∧ store w' = (if delete_signal (role_authority E uid)
                  then delete (str_of_int uid) (store w) else store w)
    ∧ calls w' = (if delete_signal (role_authority E uid)
                  then S (calls w) else calls w)
    ∧ log w' = log w ++ evs
    ∧ ∀ e, role_authority E uid = Fails e → error_line uid e ∈ evs.
Proof.
  intros Hf. unfold Reconciler.check_user, Reconciler.fetch_roles,
    Reconciler.delete_item, try_except, aws_call, print, lift.
  unfold mbind, M_bind. cbn.
  destruct (role_authority E uid) as [roles|e] eqn:Hr; cbn.
  - destruct (bool_decide (customer ∈ roles) || bool_decide (administrator ∈ roles));
      cbn; [|rewrite Hf]; eexists; eexists; (split; [reflexivity|]); cbn;
      (split_and!; [done | done | by rewrite <- app_assoc | done]).
  - destruct e as [k| |code|tag]; cbn.
    + eexists; eexists; (split; [reflexivity|]); cbn.
      split_and!; [done | done | done |]. intros e [= <-]. by left.
    + eexists; eexists; (split; [reflexivity|]); cbn.
      split_and!; [done | done | done |]. intros e [= <-]. by left.
    + destruct (code =? 404); cbn; [rewrite Hf|];
        eexists; eexists; (split; [reflexivity|]); cbn.
      * split_and!; [done | done | by rewrite <- app_assoc |].
        intros e [= <-]. by left.
      * split_and!; [done | done | done |]. intros e [= <-]. by left.
    + eexists; eexists; (split; [reflexivity|]); cbn.
      split_and!; [done | done | done |]. intros e [= <-]. by left.
Qed.

(** The loop over the users, when the store answers every call. *)
Lemma reconcile_loop (uids : list Z) :
  (∀ i, fault E i = None) →
  ∀ w, ∃ w' evs,
    for_each (Reconciler.check_user E) uids w = (Ok tt, w')
    ∧ (∀ k, store w' !! k =
            if bool_decide (k ∈ deleted_keys E uids) then None
            else store w !! k)
    ∧ log w' = log w ++ evs
    ∧ ∀ u e, u ∈ uids → role_authority E u = Fails e → error_line u e ∈ evs.
Proof.
  intros Hf. induction uids as [|u uids IH]; intros w.
  - exists w, []. split_and!; [done | done | by rewrite app_nil_r |].
    intros u e Hu. by apply elem_of_nil in Hu.
  - destruct (check_user_step u w (Hf _)) as (w1 & evs1 & Hrun1 & Hst1 & _ & Hl1 & He1).
    destruct (IH w1) as (w' & evs & Hrun & Hst & Hl & He).
    exists w', (evs1 ++ evs). cbn [for_each]. unfold mbind, M_bind.
    rewrite Hrun1, Hrun. split_and!.
    + done.
    + intros k. rewrite Hst, Hst1. unfold deleted_keys.
      destruct (delete_signal (role_authority E u)) eqn:Hs.
      * rewrite filter_cons_True by done. rewrite fmap_cons.
        destruct (decide (k = str_of_int u)) as [->|Hne].
        -- rewrite lookup_delete_eq.
           rewrite (bool_decide_eq_true_2 (str_of_int u ∈ str_of_int u :: _))
             by (by left).
           by destruct (bool_decide _).
        -- rewrite lookup_delete_ne by done.
           rewrite (bool_decide_ext (k ∈ str_of_int u :: _)
                      (k ∈ deleted_keys E uids)); [done|].
           split; [intros [?|?]%elem_of_cons; done | by right].
      * rewrite filter_cons_False by (rewrite Hs; done). done.
    + rewrite Hl, Hl1. by rewrite <- app_assoc.
    + intros u' e [->|Hu']%elem_of_cons Hr.
      * apply elem_of_app. left. by apply He1.
      * apply elem_of_app. right. by apply (He u').
Qed.

Lemma delete_signal_spec (r : reply) :
  delete_signal r = true ↔
    (∃ user_roles, r = Roles user_roles
                   ∧ (customer ∉ user_roles) ∧ (administrator ∉ user_roles))
    ∨ r = Fails (HTTPError 404).
Proof.
  destruct r as [l|e]; cbn.
  - rewrite negb_true_iff, orb_false_iff, !bool_decide_eq_false.
    split; [intros [? ?]; left; by exists l | intros [(l' & [= <-] & ? & ?)|?]; done].
  - destruct e as [k| |code|tag]; cbn;
      try (split; [done | by intros [(? & ? & _)|?]]).
    rewrite Z.eqb_eq. split; [intros ->; by right|].
    intros [(? & ? & _)|[= ->]]; done.
Qed.

(** C7. When the store answers every call, the handler completes, and
    for each user 1 to 99 the record under the user's key is absent
    afterwards if the authority answered with a list of roles holding
    neither "customer" nor "administrator" or with the HTTP error 404
    ([delete_signal]), and is as before otherwise; every exception raised
    by the lookup of a user is in the log. *)
Theorem reconciler_decides (w : world) (uid : Z) :
  (∀ i, fault E i = None) →
  1 ≤ uid ≤ 99 →
  ∃ w',
    Reconciler.lambda_handler E w =
      (Ok {| statusCode := 200; body := Cleanup_completed |}, w')
    ∧ store w' !! str_of_int uid =
        (if delete_signal (role_authority E uid) then None
         else store w !! str_of_int uid)
    ∧ ∀ e, role_authority E uid = Fails e → error_line uid e ∈ log w'.
Proof.
  intros Hf Huid.
  assert (uid ∈ Reconciler.user_ids) as Hin
    by (unfold Reconciler.user_ids; apply elem_of_seqZ; lia).
  destruct (reconcile_loop Reconciler.user_ids Hf w)
    as (w' & evs & Hrun & Hst & Hl & He).
  exists w'. unfold Reconciler.lambda_handler, mbind, M_bind.
  rewrite Hrun. split_and!; [done | |].
  - rewrite Hst. unfold deleted_keys.
    destruct (delete_signal (role_authority E uid)) eqn:Hs.
    + rewrite bool_decide_eq_true_2; [done|].
      apply list_elem_of_fmap_2. by apply list_elem_of_filter.
    + rewrite bool_decide_eq_false_2; [done|].
      intros (u & Hk & Hu)%list_elem_of_fmap.
      apply list_elem_of_filter in Hu as [Hsu Hu].
      assert (uid = u) as <-
        by (apply (distinct_images str_of_int Reconciler.user_ids);
            auto using user_keys_distinct).
      congruence.
  - intros e Hr. rewrite Hl. apply elem_of_app. right. by apply (He uid).
Qed.

Lemma moves_delete_item (K : list str) (key : str) :
  key ∈ K → store_moves (agree_outside K) (Reconciler.delete_item E key).
Proof.
  intros Hkey. apply moves_aws_call; [apply _|].
  intros w k Hk. cbn. apply lookup_delete_ne. by intros ->.
Qed.

Lemma moves_check_user (K : list str) (uid : Z) :
  str_of_int uid ∈ K →
  store_moves (agree_outside K) (Reconciler.check_user E uid).
Proof.
  intros Hkey. unfold Reconciler.check_user, Reconciler.fetch_roles.
  apply moves_try_except; [apply _ | |].
  - moves_only_reads. by apply moves_delete_item.
  - intros [k| |code|tag]; moves_only_reads. by apply moves_delete_item.
Qed.

Lemma delete_item_same_faults (E' : env) (key : str) (w : world) :
  (∀ n, fault E' n = fault E n) →
  Reconciler.delete_item E' key w = Reconciler.delete_item E key w.
Proof. intros Hf. unfold Reconciler.delete_item, aws_call. by rewrite Hf. Qed.

Lemma check_user_same_answers (E' : env) (uid : Z) (w : world) :
  (∀ n, fault E' n = fault E n) →
  role_authority E' uid = role_authority E uid →
  Reconciler.check_user E' uid w = Reconciler.check_user E uid w.
Proof.
  intros Hf Ha. unfold Reconciler.check_user, Reconciler.fetch_roles.
  rewrite Ha. apply try_except_ext.
  - apply bind_ext; [done|]. intros roles w1.
    apply bind_ext; [done|]. intros _ w2.
    destruct (_ || _); [done|].
    apply bind_ext; [done|]. intros _ w3.
    by apply delete_item_same_faults.
  - intros [k| |code|tag] w1; try done.
    apply bind_ext; [done|]. intros _ w2.
    destruct (code =? 404); [|done].
    apply bind_ext; [done|]. intros _ w3.
    by apply delete_item_same_faults.
Qed.

(** C10. The sweeper goes through the users 1 to 99 only: a record
    whose key is not the decimal string of one of these numbers is after
    the run as it was before, whatever the authority and the store answer
    and whether the handler returns or raises; and the run depends on the
    authority through its answers for the users 1 to 99 only. *)
Theorem reconciler_scope (w : world) :
  (∀ k, (∀ i, 1 ≤ i ≤ 99 → k ≠ str_of_int i) →
        store (Reconciler.lambda_handler E w).2 !! k = store w !! k)
  ∧ (∀ E', (∀ n, fault E' n = fault E n) →
           (∀ i, 1 ≤ i ≤ 99 → role_authority E' i = role_authority E i) →
           Reconciler.lambda_handler E' w = Reconciler.lambda_handler E w).
Proof.
  split.
  - intros k Hk.
    assert (store_moves (agree_outside (str_of_int <$> Reconciler.user_ids))
              (Reconciler.lambda_handler E)) as H.
    { unfold Reconciler.lambda_handler.
      apply moves_bind; [apply _ | | intros _; apply moves_ret; apply _].
      apply moves_for_each; [apply _|]. intros u Hu.
      apply moves_check_user. by apply list_elem_of_fmap_2. }
    apply H. intros (u & -> & Hu)%list_elem_of_fmap.
    unfold Reconciler.user_ids in Hu. apply elem_of_seqZ in Hu.
    apply (Hk u); [lia | done].
  - intros E' Hf Ha. unfold Reconciler.lambda_handler, mbind, M_bind.
    assert (∀ l w0, (∀ u, u ∈ l → 1 ≤ u ≤ 99) →
              for_each (Reconciler.check_user E') l w0 =
              for_each (Reconciler.check_user E) l w0) as Hloop.
    { induction l as [|u l IH]; intros w0 Hl; [done|].
      cbn [for_each]. unfold mbind, M_bind.
      rewrite check_user_same_answers
        by (try done; apply Ha, Hl; by left).
      destruct (Reconciler.check_user E u w0) as [[[]|e] w1]; [|done].
      apply IH. intros u' Hu'. apply Hl. by right. }
    rewrite Hloop; [done|].
    intros u Hu. unfold Reconciler.user_ids in Hu.
    apply elem_of_seqZ in Hu. lia.
Qed.
End ReconcilerProperties.

(* ===================================================================== *)
(** * The rule rebuild: properties *)
(* ===================================================================== *)

#[global] Instance creates_preorder : PreOrder creates.
Proof.
  split.
  - intros w. split_and!; [done | | done].
    exists []. by rewrite app_nil_r.
  - intros w1 w2 w3 (Hs1 & (evs1 & Hl1 & Hr1) & Ht1) (Hs2 & (evs2 & Hl2 & Hr2) & Ht2).
    split_and!.
    + congruence.
    + exists (evs1 ++ evs2). split; [by rewrite Hl2, Hl1, app_assoc|].
      intros name Hn. rewrite Hr2, Hr1; [done | |].
      * intros [c Hc]. apply Hn. exists c. apply elem_of_app. by left.
      * intros [c Hc]. apply Hn. exists c. apply elem_of_app. by right.
    + intros uid H. by apply Ht2, Ht1.
Qed.

#[global] Instance clears_preorder {U : UnicodeData} : PreOrder clears.
Proof.
  split.
  - intros w. split_and!; [done | | done | done].
    exists []. split; [by rewrite app_nil_r|]. intros name [c Hc].
    by apply elem_of_nil in Hc.
  - intros w1 w2 w3 (Hs1 & (evs1 & Hl1 & Hr1) & Hp1 & Hn1)
                     (Hs2 & (evs2 & Hl2 & Hr2) & Hp2 & Hn2).
    split_and!.
    + congruence.
    + exists (evs1 ++ evs2). split; [by rewrite Hl2, Hl1, app_assoc|].
      intros name [c [Hc|Hc]%elem_of_app].
      * apply (Hr1 name). by exists c.
      * apply (Hr2 name). by exists c.
    + intros name Hp. by rewrite Hp2, Hp1.
    + intros name Hn. by apply Hn2, Hn1.
Qed.

#[global] Instance creates_only_preorder (P : str → Prop) :
  PreOrder (creates_only P).
Proof.
  split.
  - intros w. exists []. split; [by rewrite app_nil_r|].
    intros name [c Hc]. by apply elem_of_nil in Hc.
  - intros w1 w2 w3 (evs1 & Hl1 & Hc1) (evs2 & Hl2 & Hc2).
    exists (evs1 ++ evs2). split; [by rewrite Hl2, Hl1, app_assoc|].
    intros name [c [Hc|Hc]%elem_of_app].
    + apply Hc1. by exists c.
    + apply Hc2. by exists c.
Qed.

(** A loop all of whose steps return. *)
Lemma for_each_ok (T : relation world) `{!PreOrder T} {A}
    (f : A → M unit) (l : list A) :
  (∀ a w w', a ∈ l → f a w = (Ok tt, w') → T w w') →
  ∀ w w', for_each f l w = (Ok tt, w') →
    T w w'
    ∧ ∀ a, a ∈ l → ∃ w1 w2, T w w1 ∧ f a w1 = (Ok tt, w2) ∧ T w2 w'.
Proof.
  induction l as [|a l IH]; intros Hf w w' Hrun.
  - injection Hrun as <-. split; [reflexivity|].
    intros a Ha. by apply elem_of_nil in Ha.
  - cbn [for_each] in Hrun. unfold mbind, M_bind in Hrun.
    destruct (f a w) as [[[]|e] w1] eqn:Hstep; [|done].
    assert (T w w1) as H1 by (apply (Hf a); [by left | done]).
    assert (∀ a' wa wb, a' ∈ l → f a' wa = (Ok tt, wb) → T wa wb) as Hf'
      by (intros a' wa wb Ha'; apply Hf; by right).
    destruct (IH Hf' w1 w' Hrun) as [H2 Hall].
    split; [by etrans|].
    intros a' [->|Ha']%elem_of_cons.
    + exists w, w1. split_and!; [reflexivity | done | done].
    + destruct (Hall a' Ha') as (wa & wb & Ha & Hb & Hc).
      exists wa, wb. split_and!; [by etrans | done | done].
Qed.

Lemma bind_ok_inv {A B} (m : M A) (f : A → M B) (w w' : world) (b : B) :
  (m ≫= f) w = (Ok b, w') → ∃ a w1, m w = (Ok a, w1) ∧ f a w1 = (Ok b, w').
Proof.
  unfold mbind, M_bind. destruct (m w) as [[a|e] w1]; [|done].
  intros H. by exists a, w1.
Qed.

(** Removing the targets that were listed leaves none. *)
Lemma remove_all_keys {A} (m : gmap str A) :
  foldr delete m (map_to_list m).*1 = ∅.
Proof.
  apply map_eq. intros k. rewrite lookup_empty.
  destruct (m !! k) as [x|] eqn:Hk.
  - apply lookup_foldr_delete. apply list_elem_of_fmap. exists (k, x).
    split; [done|]. by apply elem_of_map_to_list.
  - destruct (decide (k ∈ (map_to_list m).*1)).
    + by apply lookup_foldr_delete.
    + by rewrite lookup_foldr_delete_not_elem_of.
Qed.

Section RuleManagerProperties.
Context {U : UnicodeData} (E : env).

Lemma create_rule_ok (uid cron day : str) (w w' : world) :
  RuleManager.create_eventbridge_rule E uid cron day w = (Ok tt, w') →
  ∃ n name,
    1000 ≤ n ≤ 9999
    ∧ name = rule_for_user_ ++ uid ++ underscore ++ str_of_int n
    ∧ rules w' =
        <[name := {| ScheduleExpression := cron; State := ENABLED;
                     Targets := <[target_ ++ uid := worker_target uid]>
                                 (match rules w !! name with
                                  | Some r => Targets r
                                  | None => ∅
                                  end) |}]> (rules w)
    ∧ store w' = store w
    ∧ log w' = log w ++ [Created_rule name cron].
Proof.
  unfold RuleManager.create_eventbridge_rule, randint_1000_9999,
    RuleManager.put_rule, RuleManager.put_targets, aws_call, print.
  unfold mbind, M_bind. cbn.
  set (n := 1000 + entropy E (draws w) `mod` 9000).
  set (name := rule_for_user_ ++ uid ++ underscore ++ str_of_int n).
  intros H. exists n, name.
  destruct (fault E (calls w)); [done|]. cbn in H.
  destruct (fault E (S (calls w))); [done|]. cbn in H.
  rewrite lookup_insert_eq in H. cbn in H.
  injection H as <-. cbn. rewrite insert_insert_eq.
  pose proof (Z.mod_pos_bound (entropy E (draws w)) 9000).
  split_and!; try done; subst n; lia.
Qed.

Lemma print_creates (ev : event) (w : world) :
  (∀ name cron, ev ≠ Created_rule name cron) →
  creates w (set_log (log w ++ [ev]) w).
Proof.
  intros Hev. split_and!; [done | | done].
  exists [ev]. split; [done|]. intros name _. done.
Qed.

Lemma print_clears (ev : event) (w : world) :
  (∀ name cron, ev ≠ Created_rule name cron) →
  clears w (set_log (log w ++ [ev]) w).
Proof.
  intros Hev. split_and!; [done | | done | done].
  exists [ev]. split; [done|]. intros name [c Hc].
  apply list_elem_of_singleton in Hc. by apply (Hev name c).
Qed.

Lemma create_rule_creates (uid cron day : str) (w w' : world) :
  RuleManager.create_eventbridge_rule E uid cron day w = (Ok tt, w') →
  creates w w' ∧ has_worker_rule (rules w') uid.
Proof.
  intros H. apply create_rule_ok in H as (n & name & Hn & Hname & Hr & Hs & Hl).
  split; [split_and!|].
  - done.
  - exists [Created_rule name cron]. split; [done|].
    intros name' Hc. rewrite Hr. apply lookup_insert_ne. intros <-.
    apply Hc. exists cron. by apply list_elem_of_singleton.
  - intros uid' (n' & r' & Hn' & Hr' & Ht').
    exists n'. rewrite Hr.
    destruct (decide (name = rule_for_user_ ++ uid' ++ underscore ++ str_of_int n'))
      as [Heq|Hne].
    + rewrite <- Heq in *. eexists.
      split_and!; [lia | lia | apply lookup_insert_eq |].
      cbn. rewrite Hr'.
      destruct (decide (uid = uid')) as [->|Hu].
      * by rewrite lookup_insert_eq.
      * rewrite lookup_insert_ne; [done|]. unfold target_. by intros [= ?].
    + rewrite lookup_insert_ne by done. by exists r'.
  - exists n. rewrite Hr, <- Hname. eexists.
    split_and!; [lia | lia | apply lookup_insert_eq |].
    cbn. by rewrite lookup_insert_eq.
Qed.

Lemma process_day_with_time_creates (uid d : str) (w w' : world) :
  RuleManager.process_day_with_time E uid d w = (Ok tt, w') →
  creates w w' ∧ has_worker_rule (rules w') uid.
Proof.
  unfold RuleManager.process_day_with_time. unfold mbind at 1, M_bind at 1.
  destruct (contains Kazdy_den d); unfold mbind at 1, M_bind at 1, print; cbn;
    intros [H1 H2]%create_rule_creates; (split; [|done]);
    (etrans; [|exact H1]); by apply print_creates.
Qed.

Lemma process_user_preferences_creates (uid : str) (prefs : gmap str str)
    (w w' : world) :
  RuleManager.process_user_preferences E uid prefs w = (Ok tt, w') →
  creates w w'
  ∧ ∀ s, prefs !! k_frekvence_zasilani = Some s → s ≠ [] →
         has_worker_rule (rules w') uid.
Proof.
  unfold RuleManager.process_user_preferences.
  destruct (prefs !! k_frekvence_zasilani) as [s|].
  2:{ intros [= <-]. split; [reflexivity | done]. }
  case_bool_decide as Hs.
  { intros [= <-]. split; [reflexivity|]. intros s' [= <-]. done. }
  intros Hrun.
  apply (for_each_ok creates) in Hrun as [HT Hall].
  2:{ intros d wa wb _ Hd. by apply process_day_with_time_creates in Hd as [? _]. }
  split; [done|]. intros s' [= <-] _.
  destruct (split comma_space s) as [|d ds] eqn:Hsp;
    [by apply split_nonempty in Hsp|].
  destruct (Hall d ltac:(by left)) as (w1 & w2 & _ & Hd & (_ & _ & Hkeep)).
  apply Hkeep. by apply process_day_with_time_creates in Hd as [_ ?].
Qed.

Lemma process_record_creates (item : str * preference_record) (w w' : world) :
  RuleManager.process_record E item w = (Ok tt, w') →
  creates w w' ∧ (eligible item → has_worker_rule (rules w') item.1).
Proof.
  unfold RuleManager.process_record.
  destruct (preferences item.2) as [prefs|] eqn:Hp.
  2:{ intros [= <-]. split; [reflexivity|].
      intros [_ (? & ? & ? & _)]. congruence. }
  destruct (bool_decide (item.1 ≠ []) && bool_decide (prefs ≠ ∅)) eqn:Hb.
  - unfold mbind, M_bind, print. cbn.
    intros [H1 H2]%process_user_preferences_creates. split.
    + etrans; [|exact H1]. by apply print_creates.
    + intros [_ (prefs' & s & Hp' & Hs & Hne)].
      assert (prefs' = prefs) as -> by congruence. by apply (H2 s).
  - intros [= <-]. split; [reflexivity|].
    intros [Hu (prefs' & s & Hp' & Hs & Hne)].
    assert (prefs' = prefs) as -> by congruence.
    apply andb_false_iff in Hb as [Hb|Hb]; apply bool_decide_eq_false in Hb.
    + by destruct Hb.
    + destruct Hb. intros ->. by rewrite lookup_empty in Hs.
Qed.

Lemma creates_only_mono (P Q : str → Prop) (w w' : world) :
  (∀ u, P u → Q u) → creates_only P w w' → creates_only Q w w'.
Proof.
  intros HPQ (evs & Hl & Hc). exists evs. split; [done|].
  intros name Hn. destruct (Hc name Hn) as (u & n & Hu & Hn' & ->).
  exists u, n. auto.
Qed.

Lemma print_creates_only (P : str → Prop) (ev : event) (w : world) :
  (∀ name cron, ev ≠ Created_rule name cron) →
  creates_only P w (set_log (log w ++ [ev]) w).
Proof.
  intros Hev. exists [ev]. split; [done|]. intros name [c Hc].
  apply list_elem_of_singleton in Hc. by destruct (Hev name c).
Qed.

Lemma create_rule_creates_only (uid cron day : str) (w w' : world) :
  RuleManager.create_eventbridge_rule E uid cron day w = (Ok tt, w') →
  creates_only (λ u, u = uid) w w'.
Proof.
  intros H. apply create_rule_ok in H as (n & name & Hn & Hname & _ & _ & Hl).
  exists [Created_rule name cron]. split; [done|].
  intros name' [c Hc]. apply list_elem_of_singleton in Hc.
  assert (name' = name) as -> by congruence.
  exists uid, n. split_and!; [done | lia | lia | done].
Qed.

Lemma process_day_with_time_creates_only (uid d : str) (w w' : world) :
  RuleManager.process_day_with_time E uid d w = (Ok tt, w') →
  creates_only (λ u, u = uid) w w'.
Proof.
  unfold RuleManager.process_day_with_time. unfold mbind at 1, M_bind at 1.
  destruct (contains Kazdy_den d); unfold mbind at 1, M_bind at 1, print; cbn;
    intros H1%create_rule_creates_only;
    (etrans; [|exact H1]); by apply print_creates_only.
Qed.

Lemma process_record_creates_only (item : str * preference_record)
    (w w' : world) :
  RuleManager.process_record E item w = (Ok tt, w') →
  creates_only (λ u, eligible item ∧ item.1 = u) w w'.
Proof.
  unfold RuleManager.process_record.
  destruct (preferences item.2) as [prefs|] eqn:Hp;
    [|by intros [= <-]].
  destruct (bool_decide (item.1 ≠ []) && bool_decide (prefs ≠ ∅)) eqn:Hb;
    [|by intros [= <-]].
  apply andb_true_iff in Hb as [Hu%bool_decide_eq_true _].
  unfold mbind, M_bind, print. cbn.
  unfold RuleManager.process_user_preferences.
  destruct (prefs !! k_frekvence_zasilani) as [s|] eqn:Hs.
  2:{ intros [= <-]. by apply print_creates_only. }
  case_bool_decide as Hne.
  { intros [= <-]. by apply print_creates_only. }
  intros Hrun.
  apply (for_each_ok (creates_only (λ u, u = item.1))) in Hrun as [HT _].
  2:{ intros d wa wb _ Hd. by apply process_day_with_time_creates_only in Hd. }
  etrans; [by apply (print_creates_only _ (Processing_preferences item.1))|].
  eapply creates_only_mono; [|exact HT].
  intros u ->. split; [|done]. split; [done|]. by exists prefs, s.
Qed.

Lemma delete_rule_ok (name : str) (w w' : world) :
  RuleManager.delete_rule E name w = (Ok tt, w') →
  store w' = store w ∧ log w' = log w
  ∧ rules w' = delete name (rules w).
Proof.
  unfold RuleManager.delete_rule, aws_call.
  destruct (fault E (calls w)); [done|]. cbn.
  destruct (rules w !! name) as [r|] eqn:Hr.
  - destruct (decide (Targets r = ∅)); [|done]. by intros [= <-].
  - intros [= <-]. cbn. by rewrite delete_id.
Qed.

Lemma remove_targets_from_rule_ok (name : str) (w w' : world) :
  RuleManager.remove_targets_from_rule E name w = (Ok tt, w') →
  store w' = store w
  ∧ (∃ evs, log w' = log w ++ evs ∧ ∀ n, ¬ created_in evs n)
  ∧ ∀ n, n ≠ name → rules w' !! n = rules w !! n.
Proof.
  unfold RuleManager.remove_targets_from_rule.
  intros (ids & w1 & H1 & H2)%bind_ok_inv.
  unfold RuleManager.list_targets_by_rule, aws_call in H1.
  destruct (fault E (calls w)); [done|]. cbn in H1.
  destruct (rules w !! name) as [r|] eqn:Hr; [|done].
  injection H1 as <- <-.
  destruct ((map_to_list (Targets r)).*1) as [|i ids].
  - injection H2 as <-. split_and!; [done | | done].
    exists []. split; [by rewrite app_nil_r|].
    intros n [c Hc]. by apply elem_of_nil in Hc.
  - apply bind_ok_inv in H2 as ([] & w2 & H2 & H3).
    unfold RuleManager.remove_targets, aws_call in H2. cbn in H2.
    destruct (fault E (S (calls w))); [done|]. rewrite Hr in H2.
    injection H2 as <-. injection H3 as <-. cbn. split_and!; [done | |].
    + exists [Targets_removed name]. split; [done|].
      intros n [c Hc]. by apply list_elem_of_singleton in Hc.
    + intros n Hn. by rewrite lookup_insert_ne.
Qed.

Lemma clear_rule_clears (name : str) (w w' : world) :
  RuleManager.clear_rule E name w = (Ok tt, w') →
  clears w w'
  ∧ (RuleManager.protected name = false → rules w' !! name = None).
Proof.
  unfold RuleManager.clear_rule.
  destruct (RuleManager.protected name) eqn:Hp.
  { unfold print. intros [= <-]. split; [by apply print_clears | done]. }
  intros ([] & w1 & H1 & H2)%bind_ok_inv.
  apply bind_ok_inv in H2 as ([] & w2 & H2 & H3).
  apply remove_targets_from_rule_ok in H1 as (Hs1 & (evs & Hl1 & Hc1) & Hr1).
  apply delete_rule_ok in H2 as (Hs2 & Hl2 & Hr2).
  injection H3 as <-. unfold clears. cbn. rewrite Hr2.
  split; [split_and!|].
  - congruence.
  - exists (evs ++ [Deleted_rule name]). rewrite Hl2, Hl1, app_assoc.
    split; [done|]. intros n [c [Hc|Hc]%elem_of_app].
    + apply (Hc1 n). by exists c.
    + by apply list_elem_of_singleton in Hc.
  - intros n Hn. assert (n ≠ name) by (intros ->; congruence).
    rewrite lookup_delete_ne by done. by apply Hr1.
  - intros n Hn. destruct (decide (n = name)) as [->|Hne].
    + apply lookup_delete_eq.
    + rewrite lookup_delete_ne by done. by rewrite Hr1.
  - intros _. apply lookup_delete_eq.
Qed.

(** C2, as amended. When the rebuild completes with status 200: a rule
    is created only under a name "rule_for_user_<user_id>_<number>", the
    user_id that of a scanned record with a non-empty user_id and a
    non-empty frekvence_zasilani and the number from 1000 to 9999; every
    other name holds its earlier rule unchanged if it is protected (its
    lower-cased name contains "gregi"), and holds no rule if it is not
    protected and was on the page of rules that the clearing listed (or
    held none before); and for every such scanned record there is a rule
    "rule_for_user_<user_id>_<number>" whose target "target_<user_id>"
    points at the search worker with the user_id as input. *)
Theorem rebuild_replaces_rules (w w' : world) :
  RuleManager.lambda_handler E w =
    (Ok {| statusCode := 200; body := Rules_recreated |}, w') →
  ∃ evs, log w' = log w ++ evs
    ∧ (∀ name, created_in evs name →
         rule_name_of (eligible_user (scanned E w)) name)
    ∧ (∀ name, ¬ created_in evs name →
         (RuleManager.protected name = true →
          rules w' !! name = rules w !! name)
         ∧ (RuleManager.protected name = false →
            name ∈ listed E w ∨ rules w !! name = None →
            rules w' !! name = None))
    ∧ records_have_rule E w w'.
Proof.
  unfold RuleManager.lambda_handler, try_except.
  destruct ((print Clearing_rules ≫= _) w) as [[r0|e] w0] eqn:Hbody; [|done].
  intros [= -> ->].
  apply bind_ok_inv in Hbody as ([] & wa & H1 & Hbody). injection H1 as <-.
  apply bind_ok_inv in Hbody as ([] & wb & Hclear & Hbody).
  apply bind_ok_inv in Hbody as ([] & wc & H1 & Hbody). injection H1 as <-.
  apply bind_ok_inv in Hbody as (items & wd & Hscan & Hbody).
  apply bind_ok_inv in Hbody as ([] & we & Hloop & Hret). injection Hret as <-.
  (* the clearing *)
  apply bind_ok_inv in Hclear as (names & wa' & Hlist & Hclear).
  unfold RuleManager.list_rules, aws_call in Hlist. cbn in Hlist.
  destruct (fault E (calls w)); [done|]. injection Hlist as <- <-.
  fold (listed E w) in Hclear.
  apply (for_each_ok clears) in Hclear as [Hc Hcall].
  2:{ intros a wx wy _ Ha. by apply clear_rule_clears in Ha as [? _]. }
  destruct Hc as (Hs1 & (evs1 & Hl1 & Hn1) & Hp1 & Hg1). cbn in *.
  assert (∀ name, RuleManager.protected name = false →
            name ∈ listed E w ∨ rules w !! name = None →
            rules wb !! name = None) as Hmid.
  { intros name Hp [Hin|Hnone]; [|by apply Hg1].
    destruct (Hcall name Hin) as (w1 & w2 & _ & Hstep & (_ & _ & _ & Hg2)).
    apply clear_rule_clears in Hstep as [_ Hnone]. by apply Hg2, Hnone. }
  (* the scan *)
  unfold RuleManager.table_scan, aws_call in Hscan. cbn in Hscan.
  destruct (fault E _); [done|]. injection Hscan as <- <-. cbn in *.
  rewrite Hs1 in Hloop. fold (scanned E w) in Hloop.
  (* the creation *)
  pose proof Hloop as Honly.
  apply (for_each_ok (creates_only (eligible_user (scanned E w))))
    in Honly as [(evs2' & Hl2' & Hc2') _].
  2:{ intros a wx wy Hin Ha. apply process_record_creates_only in Ha.
      eapply creates_only_mono; [|exact Ha].
      intros u [Hel Hu]. by exists a. }
  apply (for_each_ok creates) in Hloop as [Hc Hrall].
  2:{ intros a wx wy _ Ha. by apply process_record_creates in Ha as [? _]. }
  destruct Hc as (Hs2 & (evs2 & Hl2 & Hf2) & _). cbn in *.
  assert (evs2' = evs2) as ->
    by (rewrite Hl2 in Hl2'; by apply app_inv_head in Hl2').
  exists ([Clearing_rules] ++ evs1 ++ [Processing_users] ++ evs2).
  split_and!.
  - rewrite Hl2, Hl1. by rewrite <- !app_assoc.
  - intros name [c Hc]. apply Hc2'. exists c.
    rewrite !elem_of_app in Hc. destruct Hc as [Hc|[Hc|[Hc|Hc]]].
    + by apply list_elem_of_singleton in Hc.
    + destruct (Hn1 name). by exists c.
    + by apply list_elem_of_singleton in Hc.
    + done.
  - intros name Hn.
    assert (rules we !! name = rules wb !! name) as ->.
    { apply Hf2. intros [c Hc]. apply Hn. exists c.
      rewrite !elem_of_app. auto. }
    split; [intros Hp; by apply Hp1 | by apply Hmid].
  - intros item Hitem Hel.
    destruct (Hrall item Hitem) as (w1 & w2 & _ & Hstep & (_ & _ & Hkeep)).
    apply Hkeep. by apply process_record_creates in Hstep as [_ ?]; auto.
Qed.

Section Completion.
Hypothesis calm : ∀ i, fault E i = None.

Lemma clear_rule_returns (name : str) (w : world) :
  is_Some (rules w !! name) →
  ∃ w', RuleManager.clear_rule E name w = (Ok tt, w')
        ∧ ∀ n, n ≠ name → rules w' !! n = rules w !! n.
Proof.
  intros [r Hr]. unfold RuleManager.clear_rule.
  destruct (RuleManager.protected name); [by eexists|].
  unfold RuleManager.remove_targets_from_rule, RuleManager.list_targets_by_rule,
    RuleManager.remove_targets, RuleManager.delete_rule, aws_call, print.
  unfold mbind, M_bind. cbn. rewrite !calm, Hr. cbn.
  pose proof (remove_all_keys (Targets r)) as Hall.
  destruct ((map_to_list (Targets r)).*1) as [|i ids] eqn:Hids.
  - cbn. rewrite calm, Hr. cbn.
    assert (Targets r = ∅) as Hempty.
    { apply map_to_list_empty_iff. by destruct (map_to_list (Targets r)). }
    destruct (decide (Targets r = ∅)); [|done]. eexists. split; [done|].
    intros n Hn. cbn. by rewrite lookup_delete_ne.
  - cbn -[foldr]. rewrite ?calm, Hr. cbn -[foldr]. rewrite ?calm. cbn -[foldr].
    rewrite lookup_insert_eq. cbn -[foldr]. rewrite Hall.
    destruct (decide (∅ = ∅)) as [_|]; [|done]. eexists. split; [done|].
    intros n Hn. cbn. by rewrite lookup_delete_ne, lookup_insert_ne.
Qed.

Lemma clear_loop_returns (names : list str) :
  NoDup names →
  ∀ w, (∀ n, n ∈ names → is_Some (rules w !! n)) →
       ∃ w', for_each (RuleManager.clear_rule E) names w = (Ok tt, w').
Proof.
  induction 1 as [|name names Hnotin Hnd IH]; intros w Hw; [by eexists|].
  destruct (clear_rule_returns name w) as (w1 & Hstep & Hfr);
    [apply Hw; by left|].
  cbn [for_each]. unfold mbind, M_bind. rewrite Hstep.
  apply IH. intros n Hn. rewrite Hfr; [apply Hw; by right|].
  by intros ->.
Qed.

Lemma create_rule_returns (uid cron day : str) (w : world) :
  ∃ w', RuleManager.create_eventbridge_rule E uid cron day w = (Ok tt, w').
Proof.
  unfold RuleManager.create_eventbridge_rule, randint_1000_9999,
    RuleManager.put_rule, RuleManager.put_targets, aws_call, print.
  unfold mbind, M_bind. cbn. rewrite ?calm. cbn. rewrite ?calm. cbn.
  rewrite lookup_insert_eq. by eexists.
Qed.

Lemma for_each_returns {A} (f : A → M unit) (l : list A) :
  (∀ a w, ∃ w', f a w = (Ok tt, w')) →
  ∀ w, ∃ w', for_each f l w = (Ok tt, w').
Proof.
  intros Hf. induction l as [|a l IH]; intros w; [by eexists|].
  destruct (Hf a w) as [w1 H1]. cbn [for_each]. unfold mbind, M_bind.
  rewrite H1. apply IH.
Qed.

Lemma process_record_returns (item : str * preference_record) (w : world) :
  ∃ w', RuleManager.process_record E item w = (Ok tt, w').
Proof.
  unfold RuleManager.process_record.
  destruct (preferences item.2) as [prefs|]; [|by eexists].
  destruct (_ && _); [|by eexists].
  unfold mbind, M_bind, print. cbn.
  unfold RuleManager.process_user_preferences.
  destruct (prefs !! k_frekvence_zasilani) as [s|]; [|by eexists].
  case_bool_decide; [by eexists|].
  apply for_each_returns. intros d w1.
  unfold RuleManager.process_day_with_time. unfold mbind at 1, M_bind at 1.
  destruct (contains Kazdy_den d); unfold mbind at 1, M_bind at 1, print; cbn;
    apply create_rule_returns.
Qed.

(** When no call fails the rebuild completes, whatever the rules and the
    records are. *)
Lemma rebuild_completes (w : world) :
  ∃ w', RuleManager.lambda_handler E w =
          (Ok {| statusCode := 200; body := Rules_recreated |}, w').
Proof.
  unfold RuleManager.lambda_handler, try_except, RuleManager.clear_all_rules,
    RuleManager.list_rules, RuleManager.table_scan, aws_call.
  unfold mbind, M_bind, print. cbn. rewrite calm. cbn.
  edestruct (clear_loop_returns
               (take (rules_page E) (map_to_list (rules w)).*1)) as [w1 ->].
  - eapply sublist_NoDup; [|apply sublist_take]. apply NoDup_fst_map_to_list.
  - intros n Hn. apply (subseteq_take _ _ _) in Hn.
    apply list_elem_of_fmap in Hn as (x & -> & Hx). cbn.
    destruct x as [k r]. apply elem_of_map_to_list in Hx. by exists r.
  - cbn. rewrite calm. cbn.
    edestruct (for_each_returns (RuleManager.process_record E)) as [w2 ->].
    + apply process_record_returns.
    + by eexists.
Qed.
End Completion.
End RuleManagerProperties.


(** The statement of C2 fails: the rebuild completes, the rule of user
    "5", which is not protected, and the rule of user "gregi", which is,
    are both there afterwards and both with the new schedule. *)
Lemma rebuild_claim_fails :
  (RuleManager.lambda_handler (U := ascii_only) env_1000 world_1000).1
    = Ok {| statusCode := 200; body := Rules_recreated |}
  ∧ ¬ unprotected_absent (U := ascii_only) world_1000
        (RuleManager.lambda_handler (U := ascii_only) env_1000 world_1000).2
  ∧ ¬ protected_untouched (U := ascii_only) world_1000
        (RuleManager.lambda_handler (U := ascii_only) env_1000 world_1000).2
  ∧ ¬ rebuild_claim (U := ascii_only) env_1000 world_1000
        (RuleManager.lambda_handler (U := ascii_only) env_1000 world_1000).2.
Proof.
  assert (¬ unprotected_absent (U := ascii_only) world_1000
        (RuleManager.lambda_handler (U := ascii_only) env_1000 world_1000).2) as HA.
  { intros H. specialize (H (py "rule_for_user_5_1000") (old_rule (py "5"))).
    assert (rules world_1000 !! py "rule_for_user_5_1000"
            = Some (old_rule (py "5"))) as H1
      by (vm_compute; reflexivity).
    assert (RuleManager.protected (U := ascii_only) (py "rule_for_user_5_1000") = false)
      as H2 by (vm_compute; reflexivity).
    specialize (H H1 H2). vm_compute in H. discriminate H. }
  assert (¬ protected_untouched (U := ascii_only) world_1000
        (RuleManager.lambda_handler (U := ascii_only) env_1000 world_1000).2) as HB.
  { intros H.
    specialize (H (py "rule_for_user_gregi_1000") (old_rule (py "gregi"))).
    assert (rules world_1000 !! py "rule_for_user_gregi_1000"
            = Some (old_rule (py "gregi"))) as H1
      by (vm_compute; reflexivity).
    assert (RuleManager.protected (U := ascii_only) (py "rule_for_user_gregi_1000") = true)
      as H2 by (vm_compute; reflexivity).
    specialize (H H1 H2). vm_compute in H. discriminate H. }
  split_and!; [vm_compute; reflexivity | exact HA | exact HB |].
  intros (H & _ & _). by apply HA.
Qed.

(** The statement of C1 fails, in two ways. When the page of the Scan
    ends before the table does, the due records after it get nothing:
    of the three records of [world_three], two are due, the page holds
    the first two scanned, and the count is 1. When the evaluator raises
    on a record, the sweep stops there with [ValueError]: of the three
    records of [world_unreadable], two are due. No call fails in either
    run. *)
Lemma sweep_claim_fails :
  (∀ i, fault env_short_page i = None)
  ∧ ¬ sweep_claim (U := ascii_only) env_short_page world_three
  ∧ (∀ i, fault env_calm i = None)
  ∧ ¬ sweep_claim (U := ascii_only) env_calm world_unreadable.
Proof.
  split_and!.
  - done.
  - intros (w' & Hrun & _). vm_compute in Hrun. discriminate Hrun.
  - done.
  - intros (w' & Hrun & _). vm_compute in Hrun. discriminate Hrun.
Qed.

Example sweep_on_a_short_page :
  length (filter (λ item, is_due (U := ascii_only)
                            (sweep_instant env_short_page) item)
                 (map_to_list (store world_three))) = 2%nat
  ∧ (Scheduler.lambda_handler (U := ascii_only) env_short_page world_three).1
    = Ok {| statusCode := 200; body := Messages_successfully_sent 1 |}
  ∧ task_user_id <$> queue (Scheduler.lambda_handler (U := ascii_only)
                              env_short_page world_three).2 = [py "2"].
Proof. repeat split; vm_compute; reflexivity. Qed.

Section SweepDefect.
Context {U : UnicodeData}.

(** C8. A failing send is not all that the sweep has to survive: in
    [world_unreadable], with the first send failing, the failure of the
    send to user "7" is logged (the last line of the log) and skipped,
    and the sweep then stops with
    [ValueError] at the record of user "2", whose time the evaluator
    cannot read; the record of user "1", which is due, is the next one
    scanned and is never dispatched, and the queue stays empty. *)
Theorem sweep_failure_not_isolated :
  let run := Scheduler.lambda_handler env_first_send_fails world_unreadable in
  (scanned env_first_send_fails world_unreadable).*1
    = [py "7"; py "2"; py "1"]
  ∧ run.1 = Raise ValueError
  ∧ last (log run.2) = Some (Send_failed (py "7") (ServiceError 503))
  ∧ is_due (sweep_instant env_first_send_fails)
      (py "1", record_with (py "Jednou denně")) = true
  ∧ queue run.2 = [].
Proof.
  split_and!; vm_compute; reflexivity.
Qed.
End SweepDefect.

(* ===================================================================== *)
(** * The properties at work *)
(* ===================================================================== *)

(** Witness of [daily_marker_due]. *)
Lemma daily_marker_due_witness :
  is_scheduled_time (U := ascii_only) (plus_hours wednesday_1007 2)
    (py "Jednou denně") = Ok true.
Proof.
  exact (daily_marker_due (U := ascii_only) (plus_hours wednesday_1007 2)
           (py "Jednou denně") ltac:(reflexivity)).
Defined.

(** Witness of [unknown_day_never_due]: "Svátek" is no day of the table. *)
Lemma unknown_day_never_due_witness :
  is_scheduled_time (U := ascii_only) (plus_hours wednesday_1007 2)
    (py "Svátek v 12:00") = Ok false.
Proof.
  apply (unknown_day_never_due (U := ascii_only)).
  - reflexivity.
  - reflexivity.
  - intros day_name time_str H. vm_compute in H. injection H as <- <-.
    exists 12. reflexivity.
Defined.

Lemma world_three_scanned (item : str * preference_record) :
  item ∈ scanned env_calm world_three →
  (∃ t, due (U := ascii_only) (sweep_instant env_calm) item t)
  ∨ not_due (U := ascii_only) (sweep_instant env_calm) item.
Proof.
  intros H.
  assert (scanned env_calm world_three =
          [ (py "7", record_with (py "Pátek v 09:30"));
            (py "2", record_with (py "Jednou denně"));
            (py "1", record_with (py "Středa v 12:00")) ]) as Hs
    by (vm_compute; reflexivity).
  rewrite Hs in H.
  repeat (apply elem_of_cons in H as [->|H]).
  - right. eexists. split; vm_compute; reflexivity.
  - left. eexists. split; vm_compute; reflexivity.
  - left. eexists. split; vm_compute; reflexivity.
  - by apply elem_of_nil in H.
Defined.

(** Witness of [sweep_enqueues_the_due]: of the three users of
    [world_three], two are due on a Wednesday at 12:07. *)
Lemma sweep_enqueues_the_due_witness :
  ∃ w' new,
    Scheduler.lambda_handler (U := ascii_only) env_calm world_three =
      (Ok {| statusCode := 200;
             body := Messages_successfully_sent
               (length (filter (λ item, is_due (U := ascii_only)
                                          (sweep_instant env_calm) item)
                               (scanned env_calm world_three))) |}, w')
    ∧ queue w' = queue world_three ++ new
    ∧ Forall2 (due (U := ascii_only) (sweep_instant env_calm))
        (filter (λ item, is_due (U := ascii_only) (sweep_instant env_calm) item)
                (scanned env_calm world_three)) new.
Proof.
  apply (sweep_enqueues_the_due (U := ascii_only) env_calm world_three).
  - intros i. reflexivity.
  - exact world_three_scanned.
Defined.

Example sweep_counts_two :
  (Scheduler.lambda_handler (U := ascii_only) env_calm world_three).1 =
    Ok {| statusCode := 200; body := Messages_successfully_sent 2 |}
  ∧ task_user_id <$> queue (Scheduler.lambda_handler (U := ascii_only)
                              env_calm world_three).2 = [py "2"; py "1"].
Proof. split; vm_compute; reflexivity. Qed.

(** Witness of [sweep_failures], on a failing scan and on a failing send. *)
Lemma sweep_failures_witness :
  (∃ w', Scheduler.lambda_handler (U := ascii_only) env_scan_fails world_three =
           (Ok {| statusCode := 500;
                  body := Failed_to_scan (ServiceError 500) |}, w')
         ∧ queue w' = queue world_three
         ∧ Scan_failed (ServiceError 500) ∈ log w')
  ∧ (∃ w', Scheduler.lambda_handler (U := ascii_only) env_first_send_fails
             world_three =
             (Ok {| statusCode := 200;
                    body := Messages_successfully_sent
                      (length (delivered env_first_send_fails
                                 (S (calls world_three))
                                 (due_tasks (U := ascii_only)
                                    (sweep_instant env_first_send_fails)
                                    (scanned env_first_send_fails world_three)))) |}, w')
           ∧ queue w' =
               queue world_three
               ++ delivered env_first_send_fails (S (calls world_three))
                    (due_tasks (U := ascii_only)
                       (sweep_instant env_first_send_fails)
                       (scanned env_first_send_fails world_three))
           ∧ ∀ i t, due_tasks (U := ascii_only)
                      (sweep_instant env_first_send_fails)
                      (scanned env_first_send_fails world_three) !! i = Some t →
               match fault env_first_send_fails (S (calls world_three) + i) with
               | None => t ∈ queue w'
               | Some e => Send_failed (task_user_id t) e ∈ log w'
               end).
Proof.
  split.
  - apply (sweep_failures (U := ascii_only) env_scan_fails world_three).
    reflexivity.
  - apply (sweep_failures (U := ascii_only) env_first_send_fails world_three).
    + reflexivity.
    + exact world_three_scanned.
Defined.

Example sweep_skips_failed_send :
  (Scheduler.lambda_handler (U := ascii_only) env_first_send_fails
     world_three).1 =
    Ok {| statusCode := 200; body := Messages_successfully_sent 1 |}
  ∧ task_user_id <$> queue (Scheduler.lambda_handler (U := ascii_only)
                              env_first_send_fails world_three).2 = [py "1"].
Proof. split; vm_compute; reflexivity. Qed.

(** The defect of C6 in the sweep: a record whose time is not a number
    makes the handler raise instead of returning. *)
Example sweep_aborts_on_unreadable_time :
  ∀ w,
    store w = {[ py "1" := record_with (py "Pondělí v poledne") ]} →
    fault env_calm (calls w) = None →
    (Scheduler.lambda_handler (U := ascii_only) env_calm w).1 = Raise ValueError.
Proof.
  intros w Hs _. rewrite handler_scan_ok by reflexivity. cbn zeta.
  unfold scanned. rewrite Hs, map_to_list_singleton. reflexivity.
Qed.

(** Witness of [reconciler_decides]: user 7 is not known (404). *)
Lemma reconciler_decides_witness :
  ∃ w',
    Reconciler.lambda_handler env_calm world_three =
      (Ok {| statusCode := 200; body := Cleanup_completed |}, w')
    ∧ store w' !! str_of_int 7 =
        (if delete_signal (role_authority env_calm 7) then None
         else store world_three !! str_of_int 7)
    ∧ ∀ e, role_authority env_calm 7 = Fails e → error_line 7 e ∈ log w'.
Proof.
  apply (reconciler_decides env_calm world_three 7).
  - intros i. reflexivity.
  - lia.
Defined.

Example reconciler_on_three :
  (map_to_list (store (Reconciler.lambda_handler env_calm world_three).2)).*1
    = [py "1"].
Proof. vm_compute. reflexivity. Qed.

(** Witness of [reconciler_scope]: the key "100" is out of reach. *)
Lemma reconciler_scope_witness :
  store (Reconciler.lambda_handler env_calm world_three).2 !! py "100"
    = store world_three !! py "100".
Proof.
  apply (proj1 (reconciler_scope env_calm world_three) (py "100")).
  intros i Hi.
  assert (py "100" ∉ str_of_int <$> Reconciler.user_ids) as Hout
    by (apply (bool_decide_unpack _); vm_compute; exact I).
  intros Heq. apply Hout. rewrite Heq. apply list_elem_of_fmap_2.
  unfold Reconciler.user_ids. apply elem_of_seqZ. lia.
Defined.

(** Witness of [rebuild_replaces_rules]: a rebuild over the two old
    rules of [world_1000] in which the random number is 5242. *)
Lemma rebuild_replaces_rules_witness :
  ∃ evs,
    log (RuleManager.lambda_handler (U := ascii_only) env_calm world_1000).2
      = log world_1000 ++ evs
    ∧ (∀ name, created_in evs name →
         rule_name_of (eligible_user (scanned env_calm world_1000)) name)
    ∧ (∀ name, ¬ created_in evs name →
         (RuleManager.protected (U := ascii_only) name = true →
          rules (RuleManager.lambda_handler (U := ascii_only)
                   env_calm world_1000).2 !! name = rules world_1000 !! name)
         ∧ (RuleManager.protected (U := ascii_only) name = false →
            name ∈ listed env_calm world_1000
            ∨ rules world_1000 !! name = None →
            rules (RuleManager.lambda_handler (U := ascii_only)
                     env_calm world_1000).2 !! name = None))
    ∧ records_have_rule env_calm world_1000
        (RuleManager.lambda_handler (U := ascii_only) env_calm world_1000).2.
Proof.
  apply (rebuild_replaces_rules (U := ascii_only) env_calm world_1000).
  vm_compute. reflexivity.
Defined.

(** In that run the old rule of user "5" is cleared, the protected rule
    of user "gregi" stays as it was, and both users get a new rule. *)
Example rebuild_on_old_rules :
  let after :=
    rules (RuleManager.lambda_handler (U := ascii_only)
             env_calm world_1000).2 in
  after !! py "rule_for_user_5_1000" = None
  ∧ after !! py "rule_for_user_gregi_1000" = Some (old_rule (py "gregi"))
  ∧ ScheduleExpression <$> after !! py "rule_for_user_5_5242"
      = Some (py "cron(00 10 ? * 2 *)")
  ∧ ScheduleExpression <$> after !! py "rule_for_user_gregi_5242"
      = Some (py "cron(00 10 ? * 2 *)").
Proof. repeat split; vm_compute; reflexivity. Qed.

(* ===================================================================== *)
(** * The sweep: more properties *)
(* ===================================================================== *)

Lemma for_fold_app {A S} (f : S → A → M S) (l1 l2 : list A) (s : S) (w : world) :
  for_fold f s (l1 ++ l2) w =
    match for_fold f s l1 w with
    | (Ok s1, w1) => for_fold f s1 l2 w1
    | (Raise e, w1) => (Raise e, w1)
    end.
Proof.
  revert s w. induction l1 as [|a l1 IH]; intros s w; [done|].
  cbn [for_fold app]. unfold mbind, M_bind.
  destruct (f s a w) as [[s1|e] w1]; [apply IH | done].
Qed.

Section SweepMore.
Context {U : UnicodeData} (E : env).

(** The step on a record whose schedule the evaluator cannot read. *)
Lemma process_item_unreadable (now : datetime) (n : nat)
    (item : str * preference_record) (w : world) (s : str) (e : exn) :
  frekvence item.2 = Some s →
  is_scheduled_time now s = Raise e →
  Scheduler.process_item E now n item w = (Raise e, w).
Proof.
  intros Hs Hraise. unfold Scheduler.process_item. unfold frekvence in Hs.
  destruct (preferences item.2) as [prefs|]; [|done]. cbn in Hs.
  unfold mbind, M_bind, getitem, lift. cbn. rewrite Hs. cbn.
  by rewrite Hraise.
Qed.

(** X1. The failure of the evaluator on one record stops the sweep: when
    the scan succeeds, the records before the first one whose schedule
    makes [is_scheduled_time] raise are each due or not due, the handler
    raises [ValueError]; the queue has received the tasks of the due
    records before that record whose send succeeded, and nothing for the
    records after it. *)
Theorem sweep_stops_at_unreadable (w : world)
    (before after : list (str * preference_record))
    (bad : str * preference_record) (s : str) :
  fault E (calls w) = None →
  scanned E w = before ++ bad :: after →
  (∀ item, item ∈ before →
     (∃ t, due (sweep_instant E) item t) ∨ not_due (sweep_instant E) item) →
  frekvence bad.2 = Some s →
  is_scheduled_time (sweep_instant E) s = Raise ValueError →
  ∃ w', Scheduler.lambda_handler E w = (Raise ValueError, w')
        ∧ queue w' = queue w
            ++ delivered E (S (calls w)) (due_tasks (sweep_instant E) before).
Proof.
  intros Hf Hscan Hbefore Hs Hraise.
  rewrite handler_scan_ok by done. cbn zeta. rewrite Hscan, for_fold_app.
  destruct (sweep_loop E (sweep_instant E) before 0%nat
              (set_log (log w ++ [Started; Scan_response (before ++ bad :: after)])
                 (set_calls (S (calls w)) w)) Hbefore)
    as (w1 & evs & Hrun & _ & _ & _ & _ & Hq & _).
  rewrite Hrun. cbn [for_fold]. unfold mbind at 1, M_bind at 1.
  rewrite (process_item_unreadable _ _ _ _ s ValueError) by done.
  exists w1. split; [done|]. exact Hq.
Qed.

Lemma weekday_plus_two (t : datetime) :
  0 ≤ hour t < 24 →
  hour (plus_hours t 2) = (hour t + 2) mod 24
  ∧ weekday (plus_hours t 2) =
      (weekday t + (if 22 <=? hour t then 1 else 0)) mod 7.
Proof.
  intros H. unfold plus_hours, weekday. cbn. split; [done|].
  assert ((hour t + 2) / 24 = if 22 <=? hour t then 1 else 0) as ->.
  { destruct (Z.leb_spec 22 (hour t)).
    - symmetry. apply Z.div_unique with (r := hour t + 2 - 24); lia.
    - apply Z.div_small. lia. }
  rewrite Zplus_mod_idemp_l. f_equal. lia.
Qed.

(** X2. The sweep in terms of the UTC clock of the run: a weekly entry
    "<day> v <HH:MM>" is due exactly when the UTC hour plus two, modulo 24,
    is HH and the UTC weekday, moved to the next day from 22:00 UTC on, is
    the day of the entry; a daily schedule is due exactly at 10 UTC. *)
Theorem sweep_due_in_utc (d : str) (k hh mm : Z) (daily : str) :
  0 ≤ hour (utcnow E) < 24 →
  day_mapping !! d = Some k →
  0 ≤ hh < 100 → 0 ≤ mm < 100 →
  contains Jednou_denne daily = true →
  is_scheduled_time (sweep_instant E) (day_at d hh mm) =
    Ok (bool_decide
          ((weekday (utcnow E) + (if 22 <=? hour (utcnow E) then 1 else 0))
             mod 7 = k
           ∧ (hour (utcnow E) + 2) mod 24 = hh))
  ∧ is_scheduled_time (sweep_instant E) daily =
      Ok (bool_decide (hour (utcnow E) = 10)).
Proof.
  intros Hh Hd Hhh Hmm Hdaily.
  destruct (weekday_plus_two (utcnow E) Hh) as [Hhour Hday].
  destruct (day_name_plain d k Hd) as [Hsp HJ]. split.
  - rewrite evaluate_day_at by done. rewrite Hd. unfold sweep_instant.
    by rewrite Hhour, Hday.
  - unfold is_scheduled_time. rewrite Hdaily. unfold sweep_instant.
    rewrite Hhour. f_equal.
    destruct (Z.eqb_spec ((hour (utcnow E) + 2) mod 24) 12) as [H12|H12];
      symmetry.
    + apply bool_decide_eq_true_2.
      destruct (Z.leb_spec 22 (hour (utcnow E))).
      * rewrite <- (Z_mod_plus_full _ (-1)) in H12.
        rewrite Z.mod_small in H12; lia.
      * rewrite Z.mod_small in H12; lia.
    + apply bool_decide_eq_false_2. intros H10. apply H12.
      rewrite H10. reflexivity.
Qed.
End SweepMore.

(* ===================================================================== *)
(** * Schedules of several entries *)
(* ===================================================================== *)

Section SeveralEntries.
Context {U : UnicodeData}.

Lemma split_cons_other (c : Z) (s : str) :
  c ≠ 32 → split sep_v (c :: s) = cons_first c (split sep_v s).
Proof.
  intros Hc. unfold split, sep_v. cbn [split_from].
  rewrite (startswith_head_ne 32 c [118; 32] s Hc). done.
Qed.

Lemma split_cons_space (c : Z) (s : str) :
  c ≠ 118 → split sep_v (32 :: c :: s) = cons_first 32 (split sep_v (c :: s)).
Proof.
  intros Hc. unfold split, sep_v.
  change (split_from [32; 118; 32] 0 (32 :: c :: s)) with
    (if startswith [32; 118; 32] (32 :: c :: s)
     then [] :: split_from [32; 118; 32] (length [32; 118; 32] - 1) (c :: s)
     else cons_first 32 (split_from [32; 118; 32] 0 (c :: s))).
  cbn [startswith]. rewrite Z.eqb_refl. cbn [andb].
  destruct (Z.eqb_spec 118 c); [congruence | done].
Qed.

Lemma split_plain_prefix (a s : str) :
  Forall (λ x, x ≠ 32) a →
  split sep_v (a ++ s) = foldr cons_first (split sep_v s) a.
Proof.
  induction 1 as [|c a Hc Ha IH]; [done|].
  cbn [app foldr]. by rewrite split_cons_other, IH.
Qed.

Lemma split_sep_v_first (a s : str) :
  Forall (λ x, x ≠ 32) a → split sep_v (a ++ sep_v ++ s) = a :: split sep_v s.
Proof. intros Ha. unfold sep_v. by apply split_at_first. Qed.

Lemma cons_first_length (c : Z) (parts : list str) :
  parts ≠ [] → length (cons_first c parts) = length parts.
Proof. by destruct parts. Qed.

Lemma foldr_cons_first_length (a : str) (parts : list str) :
  parts ≠ [] → length (foldr cons_first parts a) = length parts
               ∧ foldr cons_first parts a ≠ [].
Proof.
  intros Hp. induction a as [|c a [IH1 IH2]]; [done|].
  cbn [foldr]. split.
  - by rewrite cons_first_length.
  - by destruct (foldr cons_first parts a).
Qed.

Lemma day_name_initial (d : str) (k : Z) :
  day_mapping !! d = Some k → ∃ c d', d = c :: d' ∧ c ≠ 118.
Proof.
  intros H. apply elem_of_list_to_map_2 in H.
  repeat (apply elem_of_cons in H as [H|H];
          [injection H as -> ->; eexists _, _; split; [reflexivity|done]|]).
  by apply elem_of_nil in H.
Qed.

(** X3. A schedule that starts with two weekly entries joined by ", ", as
    the intake writes a form with several frequency values, is never due:
    the sweep does not split the schedule into its entries, and
    [is_scheduled_time] returns false at every instant, whatever the days
    and times are and whatever follows (unless the daily marker occurs). *)
Theorem several_entries_never_due (now : datetime)
    (d1 d2 : str) (k1 k2 hh mm : Z) (rest : str) :
  day_mapping !! d1 = Some k1 →
  day_mapping !! d2 = Some k2 →
  0 ≤ hh < 100 → 0 ≤ mm < 100 →
  contains Jednou_denne rest = false →
  is_scheduled_time now
    (day_at d1 hh mm ++ comma_space ++ d2 ++ sep_v ++ rest) = Ok false.
Proof.
  intros Hd1 Hd2 Hh Hm Hrest.
  destruct (day_name_plain d1 k1 Hd1) as [Hsp1 HJ1].
  destruct (day_name_plain d2 k2 Hd2) as [Hsp2 HJ2].
  destruct (day_name_initial d2 k2 Hd2) as (c & d2' & -> & Hc).
  pose proof (two_digits_digits hh Hh) as Dh.
  pose proof (two_digits_digits mm Hm) as Dm.
  unfold is_scheduled_time.
  assert (contains Jednou_denne
            (day_at d1 hh mm ++ comma_space ++ (c :: d2') ++ sep_v ++ rest)
          = false) as ->.
  { unfold day_at. rewrite <- !app_assoc.
    assert (∀ a s, Forall (λ x, x ≠ 74) a → contains Jednou_denne s = false →
                   contains Jednou_denne (a ++ s) = false) as Happ.
    { intros a s Ha Hs. induction Ha as [|x a Hx Ha IH]; [done|].
      cbn [app contains]. unfold Jednou_denne at 1.
      rewrite (startswith_head_ne 74 x _ _ Hx). exact IH. }
    repeat (apply Happ; [first
      [ done
      | apply digits_not; [unfold is_digit; lia | done]
      | by repeat constructor ] |]).
    exact Hrest. }
  assert (2 < length (split sep_v
            (day_at d1 hh mm ++ comma_space ++ (c :: d2') ++ sep_v ++ rest)))%nat
    as Hlen.
  { unfold day_at. rewrite <- !app_assoc.
    rewrite split_sep_v_first by done. cbn [length].
    assert (Forall (λ x, x ≠ 32) (two_digits hh ++ colon ++ two_digits mm ++ [44]))
      as Hplain.
    { repeat (apply Forall_app; split).
      - apply digits_not; [unfold is_digit; lia | done].
      - by repeat constructor.
      - apply digits_not; [unfold is_digit; lia | done].
      - by repeat constructor. }
    replace (two_digits hh ++ colon ++ two_digits mm ++ comma_space
               ++ (c :: d2') ++ sep_v ++ rest)
      with ((two_digits hh ++ colon ++ two_digits mm ++ [44])
              ++ 32 :: c :: (d2' ++ sep_v ++ rest))
      by (by rewrite <- !app_assoc).
    rewrite split_plain_prefix by exact Hplain.
    rewrite split_cons_space by done.
    change (c :: d2' ++ sep_v ++ rest) with ((c :: d2') ++ sep_v ++ rest).
    rewrite split_sep_v_first by done.
    assert (split sep_v rest ≠ []) as Hne by apply split_nonempty.
    match goal with
    | |- context [length (foldr cons_first ?p ?a)] =>
        destruct (foldr_cons_first_length a p) as [-> _]; [done|]
    end.
    cbn. destruct (split sep_v rest); [done | cbn; lia]. }
  destruct (split sep_v _) as [|p1 [|p2 [|p3 ps]]]; cbn in Hlen; try lia; done.
Qed.
End SeveralEntries.

(* ===================================================================== *)
(** * Steps that leave a service alone *)
(* ===================================================================== *)

Section Leaves.
Context {B : Type} (f : world → B).

Lemma leaves_ret {A} (a : A) : leaves f (mret a).
Proof. by intros w. Qed.

Lemma leaves_raise {A} (e : exn) : leaves f (raise (A := A) e).
Proof. by intros w. Qed.

Lemma leaves_lift {A} (r : result A) : leaves f (lift r).
Proof. by intros w. Qed.

Lemma leaves_getitem {A} (k : str) (v : option A) : leaves f (getitem k v).
Proof. by destruct v; intros w. Qed.

Lemma leaves_bind {A C} (m : M A) (k : A → M C) :
  leaves f m → (∀ a, leaves f (k a)) → leaves f (m ≫= k).
Proof.
  intros Hm Hk w. unfold mbind, M_bind. specialize (Hm w).
  destruct (m w) as [[a|e] w1]; cbn in *; [|done].
  by rewrite (Hk a w1).
Qed.

Lemma leaves_try_except {A} (m : M A) (h : exn → M A) :
  leaves f m → (∀ e, leaves f (h e)) → leaves f (try_except m h).
Proof.
  intros Hm Hh w. unfold try_except. specialize (Hm w).
  destruct (m w) as [[a|e] w1]; cbn in *; [done|].
  by rewrite (Hh e w1).
Qed.

Lemma leaves_for_each {A} (k : A → M unit) (l : list A) :
  (∀ a, leaves f (k a)) → leaves f (for_each k l).
Proof.
  intros Hk. induction l as [|a l IH]; cbn [for_each].
  - apply leaves_ret.
  - apply leaves_bind; [apply Hk | by intros _].
Qed.

Lemma leaves_aws_call {A} (E : env) (op : M A) :
  (∀ w, f (set_calls (S (calls w)) w) = f w) →
  leaves f op → leaves f (aws_call E op).
Proof.
  intros Hc Hop w. unfold aws_call. destruct (fault E (calls w)); [apply Hc|].
  by rewrite Hop.
Qed.
End Leaves.

Lemma leaves_print {B} (f : world → B) (ev : event) :
  (∀ w l, f (set_log l w) = f w) → leaves f (print ev).
Proof. intros H w. apply H. Qed.

(* ===================================================================== *)
(** * The rule manager: more properties *)
(* ===================================================================== *)

Lemma day_to_cron_known (d : str) :
  day_to_cron d =
    match day_mapping !! d with
    | Some k => cron_weekly ((k + 1) mod 7 + 1)
    | None => cron_default
    end.
Proof.
  unfold day_to_cron.
  destruct (day_mapping !! d) as [k|] eqn:Hk.
  - apply elem_of_list_to_map_2 in Hk.
    repeat (apply elem_of_cons in Hk as [Hk|Hk];
            [injection Hk as -> ->; vm_compute; reflexivity|]).
    by apply elem_of_nil in Hk.
  - apply not_elem_of_list_to_map in Hk.
    assert (day_to_cron_map !! d = None) as ->; [|done].
    apply not_elem_of_list_to_map. exact Hk.
Qed.

(** X4. The two tables of day names agree: for each of the seven names
    of the sweep's [day_mapping], with weekday k (Monday 0), the rule
    manager's [day_to_cron] gives the weekly cron at 10:00 of the cron day
    of the week (k + 1) mod 7 + 1 (Sunday 1), and for every other name the
    daily default. *)
Theorem day_tables_agree (d : str) :
  day_to_cron d =
    match day_mapping !! d with
    | Some k => cron_weekly ((k + 1) mod 7 + 1)
    | None => cron_default
    end.
Proof. exact (day_to_cron_known d). Qed.

Lemma decimal_digits_digits (fuel : nat) (n : Z) (acc : str) :
  0 ≤ n → Forall is_digit acc → Forall is_digit (decimal_digits fuel n acc).
Proof.
  revert n acc. induction fuel as [|fuel IH]; intros n acc Hn Hacc.
  - cbn. constructor; [|done].
    pose proof (Z.mod_pos_bound n 10). unfold is_digit. lia.
  - cbn [decimal_digits].
    assert (Forall is_digit ((48 + n `mod` 10) :: acc)) as Hacc'.
    { constructor; [|done].
      pose proof (Z.mod_pos_bound n 10). unfold is_digit. lia. }
    destruct (n <? 10); [done|].
    apply IH; [|done]. apply Z.div_pos; lia.
Qed.

Lemma str_of_int_digits (n : Z) : 0 ≤ n → Forall is_digit (str_of_int n).
Proof.
  intros Hn. unfold str_of_int.
  destruct (Z.ltb_spec n 0); [lia|]. by apply decimal_digits_digits.
Qed.

Section RuleManagerMore.
Context {U : UnicodeData} (E : env).

Lemma lower_from_no_g (before s : str) :
  Forall (λ c, c < 128 ∧ c ≠ 103 ∧ c ≠ 71) s →
  Forall (λ c, c ≠ 103) (lower_from before s).
Proof.
  intros H. revert before. induction H as [|c s (Hc & Hg & HG) Hs IH];
    intros before; [constructor|].
  cbn [lower_from]. destruct (Z.ltb_spec c 128); [|lia].
  destruct ((65 <=? c) && (c <=? 90)); cbn; constructor; try apply IH; lia.
Qed.

(** The name of a rule made for a user whose id is ASCII without the
    letter g is not protected. *)
Lemma rule_name_unprotected (uid : str) (n : Z) :
  Forall (λ c, c < 128 ∧ c ≠ 103 ∧ c ≠ 71) uid → 0 ≤ n →
  RuleManager.protected (rule_for_user_ ++ uid ++ underscore ++ str_of_int n)
    = false.
Proof.
  intros Huid Hn. unfold RuleManager.protected, lower, gregi.
  apply contains_absent. apply lower_from_no_g.
  repeat (apply Forall_app; split).
  - by repeat constructor.
  - done.
  - by repeat constructor.
  - eapply Forall_impl; [apply (str_of_int_digits n Hn)|].
    unfold is_digit. intros c Hc. cbn. lia.
Qed.

(** X5. What [create_eventbridge_rule] leaves when it returns: a rule
    "rule_for_user_<user_id>_<n>" with 1000 <= n <= 9999, enabled, with
    the given cron expression and the target "target_<user_id>" of the
    search function; the targets that rule already had under other ids
    stay, every other rule and the Preference Store are as before; and
    when the user id is ASCII without the letter g the rule is not
    protected, so the clearing of the next rebuild removes it. *)
Theorem create_rule_result (uid cron day : str) (w w' : world) :
  RuleManager.create_eventbridge_rule E uid cron day w = (Ok tt, w') →
  ∃ n r,
    1000 ≤ n ≤ 9999
    ∧ rules w' !! (rule_for_user_ ++ uid ++ underscore ++ str_of_int n) = Some r
    ∧ ScheduleExpression r = cron ∧ State r = ENABLED
    ∧ Targets r !! (target_ ++ uid) = Some (worker_target uid)
    ∧ (∀ id r0, id ≠ target_ ++ uid →
         rules w !! (rule_for_user_ ++ uid ++ underscore ++ str_of_int n)
           = Some r0 →
         Targets r !! id = Targets r0 !! id)
    ∧ (∀ name, name ≠ rule_for_user_ ++ uid ++ underscore ++ str_of_int n →
         rules w' !! name = rules w !! name)
    ∧ store w' = store w
    ∧ (Forall (λ c, c < 128 ∧ c ≠ 103 ∧ c ≠ 71) uid →
       RuleManager.protected
         (rule_for_user_ ++ uid ++ underscore ++ str_of_int n) = false).
Proof.
  intros H. apply create_rule_ok in H as (n & name & Hn & -> & Hr & Hs & Hl).
  exists n. eexists. rewrite Hr. split_and!.
  - lia.
  - lia.
  - apply lookup_insert_eq.
  - done.
  - done.
  - cbn. apply lookup_insert_eq.
  - intros id r0 Hid Hr0. cbn [Targets]. rewrite Hr0.
    by rewrite lookup_insert_ne.
  - intros name Hname. by rewrite lookup_insert_ne.
  - done.
  - intros Huid. apply rule_name_unprotected; [done | lia].
Qed.

Lemma contains_app_absent (c : Z) (p a s : str) :
  Forall (λ x, x ≠ c) a → contains (c :: p) s = false →
  contains (c :: p) (a ++ s) = false.
Proof.
  intros Ha Hs. induction Ha as [|x a Hx Ha IH]; [done|].
  cbn [app contains]. by rewrite (startswith_head_ne c x _ _ Hx).
Qed.

(** The entry "<day> v <HH:MM>" as the rule manager reads it. *)
Lemma process_weekly_entry (uid d : str) (k hh mm : Z) (w : world) :
  day_mapping !! d = Some k → 0 ≤ hh < 100 → 0 ≤ mm < 100 →
  RuleManager.process_day_with_time E uid (day_at d hh mm) w =
    (print (Day_preference d uid);;
     RuleManager.create_eventbridge_rule E uid
       (cron_weekly ((k + 1) mod 7 + 1)) d) w.
Proof.
  intros Hd Hh Hm. unfold RuleManager.process_day_with_time.
  destruct (day_name_plain d k Hd) as [Hsp HJ].
  destruct (day_at_token d hh mm Hsp Hh Hm) as [Htok _].
  unfold day_token in Htok.
  assert (contains Kazdy_den (day_at d hh mm) = false) as ->.
  { unfold Kazdy_den, day_at.
    pose proof (two_digits_digits hh Hh) as Dh.
    pose proof (two_digits_digits mm Hm) as Dm.
    apply contains_absent. repeat (apply Forall_app; split).
    - apply elem_of_list_to_map_2 in Hd.
      repeat (apply elem_of_cons in Hd as [Hd|Hd];
              [injection Hd as -> ->; by repeat constructor|]).
      by apply elem_of_nil in Hd.
    - by repeat constructor.
    - apply digits_not; [unfold is_digit; lia | done].
    - by repeat constructor.
    - apply digits_not; [unfold is_digit; lia | done]. }
  rewrite Htok, day_to_cron_known, Hd. reflexivity.
Qed.

(** X6. The rule manager does not read the time of an entry: for a day
    of the table, the entries "<day> v <HH:MM>" of all times run the same
    steps, and a run that returns leaves a rule of the user whose
    expression is the weekly cron of that day at 10:00. *)
Theorem rule_ignores_time (uid d : str) (k hh mm hh' mm' : Z) (w : world) :
  day_mapping !! d = Some k →
  0 ≤ hh < 100 → 0 ≤ mm < 100 → 0 ≤ hh' < 100 → 0 ≤ mm' < 100 →
  RuleManager.process_day_with_time E uid (day_at d hh mm) w =
    RuleManager.process_day_with_time E uid (day_at d hh' mm') w
  ∧ ∀ w', RuleManager.process_day_with_time E uid (day_at d hh mm) w
            = (Ok tt, w') →
      ∃ n r, 1000 ≤ n ≤ 9999
        ∧ rules w' !! (rule_for_user_ ++ uid ++ underscore ++ str_of_int n)
            = Some r
        ∧ ScheduleExpression r = cron_weekly ((k + 1) mod 7 + 1).
Proof.
  intros Hd Hh Hm Hh' Hm'. split.
  - by rewrite !(process_weekly_entry uid d k).
  - intros w'. rewrite (process_weekly_entry uid d k) by done.
    intros ([] & w1 & _ & Hc)%bind_ok_inv.
    apply create_rule_ok in Hc as (n & name & Hn & -> & Hr & _).
    exists n. eexists. rewrite Hr. split_and!; [lia | lia | apply lookup_insert_eq | done].
Qed.

(** X7. Removing the targets first makes the deletion go through: when
    [remove_targets_from_rule] returns, the rule is still there with its
    schedule and no target, every other rule is as before, and
    [delete_rule], unless its call fails, deletes the rule. *)
Theorem targets_removed_then_deleted (name : str) (w w1 : world) :
  RuleManager.remove_targets_from_rule E name w = (Ok tt, w1) →
  (∃ r, rules w !! name = Some r
        ∧ rules w1 !! name =
            Some {| ScheduleExpression := ScheduleExpression r;
                    State := State r; Targets := ∅ |})
  ∧ (∀ n, n ≠ name → rules w1 !! n = rules w !! n)
  ∧ (fault E (calls w1) = None →
     ∃ w2, RuleManager.delete_rule E name w1 = (Ok tt, w2)
           ∧ rules w2 = delete name (rules w)).
Proof.
  unfold RuleManager.remove_targets_from_rule.
  intros (ids & w0 & H1 & H2)%bind_ok_inv.
  unfold RuleManager.list_targets_by_rule, aws_call in H1.
  destruct (fault E (calls w)); [done|]. cbn in H1.
  destruct (rules w !! name) as [r|] eqn:Hr; [|done].
  injection H1 as <- <-.
  pose proof (remove_all_keys (Targets r)) as Hall.
  assert (rules w1 !! name =
            Some {| ScheduleExpression := ScheduleExpression r;
                    State := State r; Targets := ∅ |}
          ∧ ∀ n, n ≠ name → rules w1 !! n = rules w !! n) as [Hname Hother].
  { destruct ((map_to_list (Targets r)).*1) as [|i ids] eqn:Hids.
    - injection H2 as <-. cbn. split; [|done]. rewrite Hr.
      assert (Targets r = ∅) as Hempty.
      { apply map_to_list_empty_iff. by destruct (map_to_list (Targets r)). }
      destruct r. cbn in *. by rewrite Hempty.
    - apply bind_ok_inv in H2 as ([] & w2 & H2 & H3).
      unfold RuleManager.remove_targets, aws_call in H2. cbn -[foldr] in H2.
      destruct (fault E (S (calls w))); [done|]. rewrite Hr in H2.
      cbn -[foldr] in H2. rewrite Hall in H2.
      injection H2 as <-. injection H3 as <-. cbn.
      split; [apply lookup_insert_eq|].
      intros n Hn. by rewrite lookup_insert_ne. }
  split_and!.
  - by exists r.
  - exact Hother.
  - intros Hf. unfold RuleManager.delete_rule, aws_call. rewrite Hf.
    cbn [rules set_calls]. rewrite Hname. cbn.
    destruct (decide (∅ = ∅)) as [_|]; [|done]. eexists. split; [done|]. cbn.
    apply map_eq. intros n. destruct (decide (n = name)) as [->|Hn].
    + by rewrite !lookup_delete_eq.
    + rewrite !lookup_delete_ne by done. by apply Hother.
Qed.

Lemma leaves_store_queue_eventbridge {A} (op : M A) :
  (∀ w, store (op w).2 = store w ∧ queue (op w).2 = queue w) →
  leaves (λ w, (store w, queue w)) (aws_call E op).
Proof.
  intros H. apply leaves_aws_call; [done|]. intros w.
  destruct (H w) as [-> ->]. done.
Qed.

(** X8. The rule manager acts on the rules only: whatever the
    environment and whether the rebuild completes or fails, the
    Preference Store and the queue are after the handler as before. *)
Theorem rebuild_keeps_store_and_queue (w : world) :
  store (RuleManager.lambda_handler E w).2 = store w
  ∧ queue (RuleManager.lambda_handler E w).2 = queue w.
Proof.
  assert (leaves (λ w, (store w, queue w)) (RuleManager.lambda_handler E)) as H.
  { assert (∀ ev, leaves (λ w, (store w, queue w)) (print ev)) as Hprint
      by (intros ev; by apply leaves_print).
    assert (∀ a b c, leaves (λ w, (store w, queue w))
                       (RuleManager.create_eventbridge_rule E a b c)) as Hcreate.
    { intros a b c. unfold RuleManager.create_eventbridge_rule.
      apply leaves_bind; [by intros w0|]. intros n.
      apply leaves_bind.
      { apply leaves_store_queue_eventbridge. by intros w0. }
      intros _. apply leaves_bind; [|by intros _].
      apply leaves_store_queue_eventbridge. intros w0.
      by destruct (rules w0 !! _). }
    assert (∀ name, leaves (λ w, (store w, queue w))
                      (RuleManager.clear_rule E name)) as Hclear.
    { intros name. unfold RuleManager.clear_rule.
      destruct (RuleManager.protected name); [apply Hprint|].
      apply leaves_bind.
      { unfold RuleManager.remove_targets_from_rule. apply leaves_bind.
        - apply leaves_store_queue_eventbridge. intros w0.
          by destruct (rules w0 !! _).
        - intros [|i ids]; [apply leaves_ret|].
          apply leaves_bind; [|by intros _].
          apply leaves_store_queue_eventbridge. intros w0.
          by destruct (rules w0 !! _). }
      intros _. apply leaves_bind; [|by intros _].
      apply leaves_store_queue_eventbridge. intros w0.
      destruct (rules w0 !! _) as [r|]; [|done].
      by destruct (decide (Targets r = ∅)). }
    unfold RuleManager.lambda_handler.
    apply leaves_try_except.
    2:{ intros e. apply leaves_bind; [apply Hprint | intros _; apply leaves_ret]. }
    apply leaves_bind; [apply Hprint | intros _].
    apply leaves_bind.
    { unfold RuleManager.clear_all_rules. apply leaves_bind.
      - apply leaves_store_queue_eventbridge. by intros w0.
      - intros names. by apply leaves_for_each. }
    intros _. apply leaves_bind; [apply Hprint | intros _].
    apply leaves_bind.
    { apply leaves_store_queue_eventbridge. by intros w0. }
    intros items. apply leaves_bind; [|intros _; apply leaves_ret].
    apply leaves_for_each. intros item. unfold RuleManager.process_record.
    destruct (preferences item.2) as [prefs|]; [|apply leaves_ret].
    destruct (_ && _); [|apply leaves_ret].
    apply leaves_bind; [apply Hprint | intros _].
    unfold RuleManager.process_user_preferences.
    destruct (prefs !! k_frekvence_zasilani) as [s|]; [|apply leaves_ret].
    case_bool_decide; [apply leaves_ret|].
    apply leaves_for_each. intros d. unfold RuleManager.process_day_with_time.
    apply leaves_bind.
    - destruct (contains Kazdy_den d);
        (apply leaves_bind; [apply Hprint | intros _; apply leaves_ret]).
    - intros [c dp]. apply Hcreate. }
  specialize (H w). cbn in H. by injection H.
Qed.
End RuleManagerMore.

(* ===================================================================== *)
(** * The reconciliation sweeper: more properties *)
(* ===================================================================== *)

#[global] Instance shrinks_preorder : PreOrder shrinks.
Proof.
  split.
  - intros s. unfold shrinks. reflexivity.
  - intros s1 s2 s3 H12 H23. unfold shrinks in *. by etrans.
Qed.

Section ReconcilerMore.
Context (E : env).

Lemma shrinks_delete_item (key : str) :
  store_moves shrinks (Reconciler.delete_item E key).
Proof.
  apply moves_aws_call; [apply _|].
  intros w. cbn. unfold shrinks. apply delete_subseteq.
Qed.

Lemma shrinks_check_user (uid : Z) :
  store_moves shrinks (Reconciler.check_user E uid).
Proof.
  unfold Reconciler.check_user, Reconciler.fetch_roles.
  apply moves_try_except; [apply _ | |].
  - moves_only_reads. apply shrinks_delete_item.
  - intros [k| |code|tag]; moves_only_reads. apply shrinks_delete_item.
Qed.

Lemma leaves_queue_rules_check_user (uid : Z) :
  leaves (λ w, (queue w, rules w)) (Reconciler.check_user E uid).
Proof.
  assert (∀ ev, leaves (λ w, (queue w, rules w)) (print ev)) as Hprint
    by (intros ev; by apply leaves_print).
  assert (∀ key, leaves (λ w, (queue w, rules w))
                   (Reconciler.delete_item E key)) as Hdel.
  { intros key. apply leaves_aws_call; [done | by intros w]. }
  unfold Reconciler.check_user, Reconciler.fetch_roles.
  apply leaves_try_except.
  - apply leaves_bind; [apply leaves_lift | intros roles].
    apply leaves_bind; [apply Hprint | intros _].
    destruct (_ || _); [apply Hprint|].
    apply leaves_bind; [apply Hprint | intros _; apply Hdel].
  - intros [k| |code|tag]; try apply Hprint.
    apply leaves_bind; [apply Hprint | intros _].
    destruct (code =? 404); [|apply leaves_ret].
    apply leaves_bind; [apply Hprint | intros _; apply Hdel].
Qed.

(** X9. The sweeper only deletes: whatever the authority and the store
    answer and whether the handler returns or raises, every record of the
    store afterwards was there before and is unchanged (no record is
    created or rewritten), and the queue and the rules are as before. *)
Theorem reconciler_only_deletes (w : world) :
  store (Reconciler.lambda_handler E w).2 ⊆ store w
  ∧ (∀ k r, store (Reconciler.lambda_handler E w).2 !! k = Some r →
            store w !! k = Some r)
  ∧ queue (Reconciler.lambda_handler E w).2 = queue w
  ∧ rules (Reconciler.lambda_handler E w).2 = rules w.
Proof.
  assert (store_moves shrinks (Reconciler.lambda_handler E)) as Hs.
  { unfold Reconciler.lambda_handler.
    apply moves_bind; [apply _ | | intros _; apply moves_ret; apply _].
    apply moves_for_each; [apply _|]. intros u _. apply shrinks_check_user. }
  assert (leaves (λ w, (queue w, rules w)) (Reconciler.lambda_handler E)) as Hl.
  { unfold Reconciler.lambda_handler.
    apply leaves_bind; [|intros _; apply leaves_ret].
    apply leaves_for_each. apply leaves_queue_rules_check_user. }
  specialize (Hs w). specialize (Hl w). cbn in Hl. injection Hl as Hq Hr.
  split_and!; [exact Hs | | done | done].
  intros k r Hk. by apply (lookup_weaken _ _ _ _ Hk Hs).
Qed.

(** X10. Running the sweeper again changes nothing: when the store
    answers every call, a second run with the same answers of the
    authority leaves the store of the first run as it is. *)
Theorem reconciler_runs_twice (w : world) :
  (∀ i, fault E i = None) →
  store (Reconciler.lambda_handler E (Reconciler.lambda_handler E w).2).2
    = store (Reconciler.lambda_handler E w).2.
Proof.
  intros Hf.
  assert (∀ w0, ∃ w1, (Reconciler.lambda_handler E w0).2 = w1
    ∧ ∀ k, store w1 !! k =
           if bool_decide (k ∈ deleted_keys E Reconciler.user_ids) then None
           else store w0 !! k) as Hrun.
  { intros w0.
    destruct (reconcile_loop E Reconciler.user_ids Hf w0)
      as (w1 & evs & Hloop & Hst & _).
    exists w1. split; [|done].
    unfold Reconciler.lambda_handler, mbind, M_bind. by rewrite Hloop. }
  destruct (Hrun w) as (w1 & -> & H1).
  destruct (Hrun w1) as (w2 & -> & H2).
  apply map_eq. intros k. rewrite H2, H1.
  by destruct (bool_decide _).
Qed.
End ReconcilerMore.

(* ===================================================================== *)
(** * The intake of a form: properties *)
(* ===================================================================== *)

Lemma join_cons (sep p : str) (l : list str) :
  l ≠ [] → join sep (p :: l) = p ++ sep ++ join sep l.
Proof. by destruct l. Qed.

(** Splitting what was joined gives the values back, when no value holds
    a comma. *)
Lemma split_join_comma_space (v : str) (vs : list str) :
  Forall (Forall (λ c, c ≠ 44)) (v :: vs) →
  split comma_space (join comma_space (v :: vs)) = v :: vs.
Proof.
  revert v. induction vs as [|v' vs IH]; intros v H.
  - apply Forall_cons in H as [Hv _]. cbn [join].
    unfold comma_space. by apply split_absent.
  - apply Forall_cons in H as [Hv H]. rewrite join_cons by done.
    unfold comma_space at 1 2. rewrite split_at_first by done.
    fold comma_space. by rewrite IH.
Qed.

Section IntakeProperties.
Context {U : UnicodeData} (E : env) (decode : str → result form).

(** X11. The intake handler always returns, with 200 or 500, and acts
    on the Preference Store only. It returns 200 exactly when the event
    has a body, the body is base64-encoded and decodes to a form, and the
    call to the table succeeds; the item of the form is then the record
    under the form's user_id (the empty string when the form has none)
    and every other record is as before. In every other case (a body
    that is not base64-encoded is one) it returns 500 and the store is as
    before. *)
Theorem intake_outcomes (event : http_event) (s : site) :
  ∃ r s',
    Intake.lambda_handler E decode event s = (Ok r, s')
    ∧ queue (aws s') = queue (aws s) ∧ rules (aws s') = rules (aws s)
    ∧ invocations s' = invocations s
    ∧ ((r = {| http_status := 200; http_body := updated_successfully |}
        ∧ ∃ body parsed,
            event_body event = Some body
            ∧ isBase64Encoded event = true
            ∧ decode body = Ok parsed
            ∧ fault E (calls (aws s)) = None
            ∧ store (aws s') =
                <[first_of parsed f_user_id := item_of parsed]> (store (aws s)))
       ∨ (r = {| http_status := 500; http_body := error_processing_data |}
          ∧ store (aws s') = store (aws s)
          ∧ (∀ body parsed,
               event_body event = Some body → isBase64Encoded event = true →
               decode body = Ok parsed →
               is_Some (fault E (calls (aws s)))))).
Proof.
  unfold Intake.lambda_handler, site_try_except, Intake.put_item, in_world,
    aws_call, jot, getitem, lift, raise.
  unfold mbind, N_bind, M_bind, mret, N_ret, M_ret. cbn.
  destruct (event_body event) as [body|]; cbn.
  2:{ eexists _, _. split; [done|]. split_and!; try done. right.
      split_and!; [done | done |]. intros ? ? [=]. }
  destruct (isBase64Encoded event); cbn.
  2:{ eexists _, _. split; [done|]. split_and!; try done. right.
      split_and!; [done | done |]. intros ? ? _ [=]. }
  destruct (decode body) as [parsed|e] eqn:Hd; cbn.
  2:{ eexists _, _. split; [done|]. split_and!; try done. right.
      split_and!; [done | done |]. intros ? ? [= <-] _ ?. congruence. }
  destruct (fault E (calls (aws s))) as [e|] eqn:Hf; cbn.
  - eexists _, _. split; [done|]. split_and!; try done. right.
    split_and!; [done | done |]. intros ? ? _ _ _. by eexists.
  - eexists _, _. split; [done|]. split_and!; try done. left.
    split; [done|]. by exists body, parsed.
Qed.

(** X12. The step of the sweep on a record written by the intake never
    raises [KeyError], the record having every field the step reads.
    When the evaluator finds the joined frequency values due, the step
    makes its one call to the queue: if the call succeeds the task with
    the user id, the role and the joined values of the form is appended
    and the count goes up by one, if it fails the queue and the count
    stay; when it finds them not due the step changes nothing; when it
    cannot read them the step raises [ValueError] and changes nothing. *)
Theorem intake_record_swept (parsed : form) (user_id : str)
    (now : datetime) (n : nat) (w : world) :
  let item := (user_id, item_of parsed) in
  let schedule := join comma_space (values_of parsed f_frekvence_zasilani) in
  let t :=
    {| task_user_id := user_id;
       task_email :=
         join comma_space (values_of parsed f_email_pro_zasilani_vysledku);
       task_keywords := join comma_space (values_of parsed f_klicova_slova);
       task_description := join comma_space (values_of parsed f_popis_firmy);
       task_role := first_of parsed f_user_role;
       task_frekvence_zasilani := schedule |} in
  (∀ key, (Scheduler.process_item E now n item w).1 ≠ Raise (KeyError key))
  ∧ match is_scheduled_time now schedule with
    | Ok true =>
        ∃ w', store w' = store w
          ∧ match fault E (calls w) with
            | None =>
                Scheduler.process_item E now n item w = (Ok (S n), w')
                ∧ queue w' = queue w ++ [t]
            | Some _ =>
                Scheduler.process_item E now n item w = (Ok n, w')
                ∧ queue w' = queue w
            end
    | Ok false => Scheduler.process_item E now n item w = (Ok n, w)
    | Raise e =>
        e = ValueError
        ∧ Scheduler.process_item E now n item w = (Raise ValueError, w)
    end.
Proof.
  intros item schedule t.
  assert (frekvence item.2 = Some schedule) as Hfr by reflexivity.
  destruct (is_scheduled_time now schedule) as [[|]|e] eqn:Hb.
  - assert (due now item t) as Hdue by (split; [reflexivity | exact Hb]).
    destruct (process_item_due E now n item t w Hdue)
      as (w' & Hst & _ & _ & _ & Hrun).
    destruct (fault E (calls w)) as [e|].
    + destruct Hrun as (Hrun & Hq & _). split.
      * intros key. by rewrite Hrun.
      * exists w'. by split_and!.
    + destruct Hrun as (Hrun & Hq & _). split.
      * intros key. by rewrite Hrun.
      * exists w'. by split_and!.
  - assert (not_due now item) as Hn by by exists schedule.
    rewrite (process_item_not_due E now n item w Hn). by split.
  - assert (e = ValueError) as ->.
    { destruct (is_scheduled_time_outcomes now schedule) as [[b Hok]|Hr];
        congruence. }
    rewrite (process_item_unreadable E now n item w schedule ValueError)
      by done.
    by split.
Qed.

(** X13. From the form to the rules: when no frequency value of a form
    holds a comma (and not all there is is one empty value), the rule
    manager, on the record the intake wrote, processes exactly the
    submitted values, one after the other: splitting on ", " undoes the
    joining with ", ". *)
Theorem rules_per_submitted_value (parsed : form) (user_id : str)
    (v : str) (vs : list str) (prefs : gmap str str) (w : world) :
  parsed !! f_frekvence_zasilani = Some (v, vs) →
  Forall (Forall (λ c, c ≠ 44)) (v :: vs) →
  join comma_space (v :: vs) ≠ [] →
  preferences (item_of parsed) = Some prefs →
  split comma_space (join comma_space (v :: vs)) = v :: vs
  ∧ RuleManager.process_user_preferences E user_id prefs w =
      for_each (RuleManager.process_day_with_time E user_id) (v :: vs) w.
Proof.
  intros Hp Hcomma Hne Hprefs.
  pose proof (split_join_comma_space v vs Hcomma) as Hsplit.
  split; [done|].
  assert (prefs !! k_frekvence_zasilani =
            Some (join comma_space (values_of parsed f_frekvence_zasilani)))
    as Hlook by (injection Hprefs as <-; reflexivity).
  assert (values_of parsed f_frekvence_zasilani = v :: vs) as Hvs
    by (unfold values_of; by rewrite Hp).
  rewrite Hvs in Hlook.
  unfold RuleManager.process_user_preferences.
  destruct (prefs !! k_frekvence_zasilani) as [sp|] eqn:Hl.
  - assert (sp = join comma_space (v :: vs)) as -> by congruence.
    rewrite bool_decide_eq_false_2 by done. by rewrite Hsplit.
  - discriminate.
Qed.
End IntakeProperties.

(* ===================================================================== *)
(** * The worker: properties *)
(* ===================================================================== *)

Section WorkerProperties.
Context {U : UnicodeData} (E : env).

(** One record: the search function is invoked with the user id of the
    record, or the step raises and nothing is invoked. *)
Lemma hand_off_step (record : sqs_record) (s : site) :
  (∃ uid s', Worker.hand_off E record s = (Ok tt, s')
             ∧ user_id_of record = Some uid
             ∧ fault E (calls (aws s)) = None
             ∧ invocations s' = invocations s ++ [uid]
             ∧ calls (aws s') = S (calls (aws s))
             ∧ same_services (aws s) (aws s'))
  ∨ (∃ e s', Worker.hand_off E record s = (Raise e, s')
             ∧ (user_id_of record = None ∨ fault E (calls (aws s)) = Some e)
             ∧ invocations s' = invocations s
             ∧ same_services (aws s) (aws s')).
Proof.
  unfold Worker.hand_off, Worker.invoke_search, Worker.json_loads, site_call,
    in_world, jot, getitem, raise, user_id_of.
  unfold mbind, N_bind, mret, N_ret, M_ret. cbn.
  destruct (record_body record) as [[|fields]|]; cbn.
  - right. eexists _, _. by split_and!; [done | left | done |].
  - destruct (fields !! k_user_id) as [uid|]; cbn.
    + destruct (fault E (calls (aws s))) as [e|] eqn:Hf; cbn.
      * right. eexists _, _. by split_and!; [done | right | done |].
      * left. eexists _, _. by split_and!.
    + right. eexists _, _. by split_and!; [done | left | done |].
  - right. eexists _, _. by split_and!; [done | left | done |].
Qed.

#[global] Instance same_services_preorder : PreOrder same_services.
Proof.
  split.
  - by intros w.
  - intros w1 w2 w3 (? & ? & ? & ?) (? & ? & ? & ?).
    unfold same_services. split_and!; congruence.
Qed.

(** The loop: the records are handed off in order up to the first one
    that fails. *)
Lemma hand_off_loop (records : list sqs_record) :
  ∀ s, ∃ new r s',
    site_for_each (Worker.hand_off E) records s = (r, s')
    ∧ invocations s' = invocations s ++ new
    ∧ Forall2 (λ record uid, user_id_of record = Some uid)
        (take (length new) records) new
    ∧ same_services (aws s) (aws s')
    ∧ match r with
      | Ok _ => length new = length records
      | Raise e =>
          (length new < length records)%nat
          ∧ ∃ record, records !! length new = Some record
              ∧ (user_id_of record = None
                 ∨ fault E (calls (aws s) + length new) = Some e)
      end
    ∧ (∀ i, (i < length new)%nat → fault E (calls (aws s) + i) = None).
Proof.
  induction records as [|record records IH]; intros s.
  - exists [], (Ok tt), s. cbn. rewrite app_nil_r.
    split_and!; try done. intros i Hi. lia.
  - cbn [site_for_each]. unfold mbind at 1, N_bind at 1.
    destruct (hand_off_step record s)
      as [(uid & s1 & -> & Huid & Hf & Hinv & Hcalls & Hsame)
         |(e & s1 & -> & Hwhy & Hinv & Hsame)].
    + destruct (IH s1) as (new & r & s' & Hrun & Hinv' & Hall & Hsame' & Hr & Hfs).
      exists (uid :: new), r, s'. rewrite Hrun. split_and!.
      * done.
      * rewrite Hinv', Hinv. by rewrite <- app_assoc.
      * cbn. by constructor.
      * by etrans.
      * destruct r as [[]|e]; cbn.
        -- by rewrite Hr.
        -- destruct Hr as (Hlt & rec & Hrec & Hwhy). split; [lia|].
           exists rec. split; [done|]. destruct Hwhy as [?|Hwhy]; [by left|].
           right. rewrite Hcalls in Hwhy.
           by replace (calls (aws s) + S (length new))%nat
             with (S (calls (aws s)) + length new)%nat by lia.
      * intros [|i] Hi; cbn in Hi.
        -- by rewrite Nat.add_0_r.
        -- replace (calls (aws s) + S i)%nat with (calls (aws s1) + i)%nat
             by lia.
           apply Hfs. lia.
    + exists [], (Raise e), s1. cbn. rewrite app_nil_r. split_and!; try done.
      * lia.
      * exists record. split; [done|]. rewrite Nat.add_0_r. done.
      * intros i Hi. lia.
Qed.

(** X14. The worker hands the records off in order and stops at the
    first one that fails: the search function has been invoked, once each
    and in order, with the user ids of a prefix of the records; the
    handler returns 200 when that prefix is all the records, and raises
    when the next record has no readable user_id or its call fails, the
    records after it getting no invocation. The store, the queue and the
    rules are as before. *)
Theorem worker_hands_off_prefix (records : list sqs_record) (s : site) :
  ∃ new r s',
    Worker.lambda_handler E (Some records) s = (r, s')
    ∧ invocations s' = invocations s ++ new
    ∧ Forall2 (λ record uid, user_id_of record = Some uid)
        (take (length new) records) new
    ∧ same_services (aws s) (aws s')
    ∧ match r with
      | Ok resp =>
          resp = {| http_status := 200; http_body := all_handed_off |}
          ∧ length new = length records
      | Raise e =>
          (length new < length records)%nat
          ∧ ∃ record, records !! length new = Some record
              ∧ (user_id_of record = None
                 ∨ fault E (calls (aws s) + length new) = Some e)
      end.
Proof.
  destruct (hand_off_loop records s)
    as (new & r & s' & Hrun & Hinv & Hall & Hsame & Hr & _).
  unfold Worker.lambda_handler, in_world, getitem.
  unfold mbind, N_bind, mret, N_ret, M_ret. cbn.
  replace (with_aws (aws s) s) with s by (by destruct s).
  rewrite Hrun. destruct r as [[]|e].
  - exists new. eexists _, _. by split_and!.
  - exists new. eexists _, _. by split_and!.
Qed.

Lemma user_id_of_task (t : task) :
  user_id_of (record_of_task t) = Some (task_user_id t).
Proof. reflexivity. Qed.

Lemma user_ids_of_tasks (ts : list task) (new : list str) :
  Forall2 (λ record uid, user_id_of record = Some uid)
    (record_of_task <$> ts) new →
  new = task_user_id <$> ts.
Proof.
  revert new. induction ts as [|t ts IH]; intros new H; cbn in H.
  - by apply Forall2_nil_inv_l in H.
  - apply Forall2_cons_inv_l in H as (uid & new' & Huid & H & ->).
    rewrite user_id_of_task in Huid. injection Huid as <-.
    cbn. f_equal. by apply IH.
Qed.

(** The worker on the records of tasks, when no call fails. *)
Lemma worker_on_tasks (ts : list task) (s : site) :
  (∀ i, fault E i = None) →
  ∃ s', Worker.lambda_handler E (Some (record_of_task <$> ts)) s =
          (Ok {| http_status := 200; http_body := all_handed_off |}, s')
        ∧ invocations s' = invocations s ++ (task_user_id <$> ts)
        ∧ same_services (aws s) (aws s').
Proof.
  intros Hf.
  destruct (hand_off_loop (record_of_task <$> ts) s)
    as (new & r & s' & Hrun & Hinv & Hall & Hsame & Hr & _).
  unfold Worker.lambda_handler, in_world, getitem.
  unfold mbind, N_bind, mret, N_ret, M_ret. cbn.
  replace (with_aws (aws s) s) with s by (by destruct s).
  rewrite Hrun. destruct r as [[]|e].
  - rewrite take_ge in Hall by lia.
    apply user_ids_of_tasks in Hall as ->. by eexists.
  - destruct Hr as (_ & record & Hrec & [Hnone|Hfault]).
    + apply list_lookup_fmap_Some in Hrec as (t & -> & _).
      by rewrite user_id_of_task in Hnone.
    + by rewrite Hf in Hfault.
Qed.

Lemma task_of_user_id (item : str * preference_record) (t : task) :
  task_of item = Some t → task_user_id t = item.1.
Proof.
  unfold task_of. intros Ht.
  destruct (preferences item.2) as [prefs|]; [|done]. cbn in *.
  destruct (prefs !! k_frekvence_zasilani) as [s|]; [|done]. cbn in *.
  destruct (prefs !! k_email_pro_zasilani_vysledku); [|done]. cbn in *.
  destruct (prefs !! k_klicova_slova); [|done]. cbn in *.
  destruct (prefs !! k_popis_firmy); [|done]. cbn in *.
  destruct (user_role item.2); [|done]. cbn in *.
  by injection Ht as <-.
Qed.

Lemma due_user_ids (now : datetime) (items : list (str * preference_record))
    (ts : list task) :
  Forall2 (due now) items ts → task_user_id <$> ts = items.*1.
Proof.
  induction 1 as [|item t items ts [Ht _] _ IH]; [done|].
  cbn. by rewrite IH, (task_of_user_id item t Ht).
Qed.

(** X15. From the sweep to the search: when no call fails and every
    scanned record is due or not due, a sweep on an empty queue followed
    by the worker on the messages then in the queue invokes the search
    function once for each due record, in the order of the scan, with the
    user id of the record, and the worker returns 200. *)
Theorem sweep_then_worker (s : site) :
  (∀ i, fault E i = None) →
  queue (aws s) = [] →
  (∀ item, item ∈ scanned E (aws s) →
     (∃ t, due (sweep_instant E) item t) ∨ not_due (sweep_instant E) item) →
  ∃ s',
    (let w' := (Scheduler.lambda_handler E (aws s)).2 in
     Worker.lambda_handler E (Some (record_of_task <$> queue w'))
       (with_aws w' s)) =
      (Ok {| http_status := 200; http_body := all_handed_off |}, s')
    ∧ invocations s' =
        invocations s
        ++ (filter (λ item, is_due (sweep_instant E) item)
                   (scanned E (aws s))).*1
    ∧ store (aws s') = store (aws s).
Proof.
  intros Hf Hq H. cbn zeta.
  rewrite handler_scan_ok by apply Hf. cbn zeta.
  destruct (sweep_loop E (sweep_instant E) (scanned E (aws s)) 0%nat
              (set_log (log (aws s) ++ [Started; Scan_response (scanned E (aws s))])
                 (set_calls (S (calls (aws s))) (aws s))) H)
    as (w' & evs & Hrun & Hst & _ & _ & _ & Hqueue & _).
  rewrite Hrun. cbn [snd].
  rewrite delivered_no_fault in Hqueue by done. cbn in Hqueue, Hst.
  rewrite Hq in Hqueue. cbn in Hqueue. rewrite Hqueue.
  destruct (worker_on_tasks (due_tasks (sweep_instant E) (scanned E (aws s)))
              (with_aws w' s) Hf) as (s' & -> & Hinv & Hsame & _).
  exists s'. split; [done|]. split.
  - rewrite Hinv. cbn. f_equal.
    apply (due_user_ids (sweep_instant E)). by apply due_tasks_spec.
  - cbn in Hsame. by rewrite Hsame.
Qed.
End WorkerProperties.

(* ===================================================================== *)
(** * The keywords of a record: properties *)
(* ===================================================================== *)

Lemma split_from_Forall (P : Z → Prop) (sep : str) (s : str) :
  Forall P s → ∀ k, Forall (Forall P) (split_from sep k s).
Proof.
  induction 1 as [|c s Hc Hs IH]; intros k; cbn.
  - by repeat constructor.
  - destruct k as [|k]; [|apply IH].
    destruct (startswith sep (c :: s)).
    + constructor; [done | apply IH].
    + specialize (IH 0%nat).
      destruct (split_from sep 0 s) as [|p ps]; [by repeat constructor|].
      apply Forall_cons in IH as [Hp Hps]. by repeat constructor.
Qed.

(** The parts of a split on one character do not hold the character. *)
Lemma split_single_Forall (c : Z) (s : str) :
  Forall (Forall (λ x, x ≠ c)) (split [c] s).
Proof.
  unfold split. induction s as [|b s IH]; cbn.
  - by repeat constructor.
  - rewrite andb_true_r. destruct (Z.eqb_spec c b) as [->|Hne].
    + by constructor.
    + destruct (split_from [c] 0 s) as [|p ps]; [by repeat constructor|].
      apply Forall_cons in IH as [Hp Hps]. by repeat constructor.
Qed.

Lemma join_Forall (P : Z → Prop) (sep : str) (l : list str) :
  Forall P sep → Forall (Forall P) l → Forall P (join sep l).
Proof.
  intros Hsep. induction 1 as [|p l Hp Hl IH]; [done|].
  destruct l as [|q l]; [done|]. rewrite join_cons by done.
  rewrite !Forall_app. by split_and!.
Qed.

Lemma replace_Forall (P : Z → Prop) (old new s : str) :
  Forall P new → Forall P s → Forall P (replace old new s).
Proof.
  intros Hnew Hs. apply join_Forall; [done|]. by apply split_from_Forall.
Qed.

(** Replacing a character removes it. *)
Lemma replace_single (c : Z) (new s : str) :
  Forall (λ x, x ≠ c) new → Forall (λ x, x ≠ c) (replace [c] new s).
Proof. intros Hnew. apply join_Forall; [done|]. apply split_single_Forall. Qed.

Section KeywordProperties.
Context {U : UnicodeData}.

Lemma drop_space_suffix (s : str) : ∃ pre, s = pre ++ drop_space s.
Proof.
  induction s as [|c s [pre IH]]; [by exists []|]. cbn.
  destruct (str_isspace c); [|by exists []].
  exists (c :: pre). cbn. by f_equal.
Qed.

Lemma drop_space_head (s : str) (c : Z) (r : str) :
  drop_space s = c :: r → str_isspace c = false.
Proof.
  induction s as [|b s IH]; [done|]. cbn.
  destruct (str_isspace b) eqn:Hb; [done|]. by intros [= <- _].
Qed.

Lemma drop_space_fixed (c : Z) (s : str) :
  str_isspace c = false → drop_space (c :: s) = c :: s.
Proof. intros H. cbn. by rewrite H. Qed.

Lemma drop_space_Forall (P : Z → Prop) (s : str) :
  Forall P s → Forall P (drop_space s).
Proof.
  destruct (drop_space_suffix s) as [pre Hs]. intros H.
  rewrite Hs in H. by apply Forall_app in H as [_ ?].
Qed.

Lemma strip_Forall (P : Z → Prop) (s : str) :
  Forall P s → Forall P (strip s).
Proof.
  intros H. unfold strip.
  by apply Forall_reverse, drop_space_Forall, Forall_reverse, drop_space_Forall.
Qed.

(** What [strip] returns neither starts nor ends with white space. *)
Lemma strip_ends (s : str) (c : Z) :
  head (strip s) = Some c ∨ last (strip s) = Some c → str_isspace c = false.
Proof.
  unfold strip.
  destruct (drop_space_suffix (reverse (drop_space s))) as [pre Hpre].
  set (b := drop_space (reverse (drop_space s))) in *.
  intros [Hh|Hl].
  - (* the first character is the first of [drop_space s] *)
    apply (f_equal reverse) in Hpre.
    rewrite reverse_involutive, reverse_app in Hpre.
    destruct (reverse b) as [|x k]; [done|]. cbn in Hh. injection Hh as ->.
    cbn in Hpre. by apply drop_space_head in Hpre.
  - rewrite last_reverse in Hl.
    destruct b as [|x k] eqn:Hb; [done|]. cbn in Hl. injection Hl as ->.
    by apply drop_space_head in Hb.
Qed.

(** X16. The keywords of a record: at most twenty; each has at least
    two characters, neither starts nor ends with white space, and holds
    no semicolon and no vertical bar (both count as separators). *)
Theorem keywords_clean (keyword_string : str) :
  (length (clean_and_split_keywords keyword_string) ≤ 20)%nat
  ∧ Forall (λ keyword,
      (2 ≤ length keyword)%nat
      ∧ (∀ c, head keyword = Some c ∨ last keyword = Some c →
              str_isspace c = false)
      ∧ Forall (λ c, c ≠ 59 ∧ c ≠ 124) keyword)
    (clean_and_split_keywords keyword_string).
Proof.
  unfold clean_and_split_keywords.
  case_bool_decide; [split; [cbn; lia | constructor]|].
  split; [rewrite length_take; lia|].
  apply Forall_take, Forall_fmap, Forall_forall.
  intros keyword [Hkeep Hin]%list_elem_of_filter. cbn.
  unfold keeps_keyword in Hkeep.
  apply andb_prop_elim in Hkeep as [_ Hlen%bool_decide_unpack].
  split_and!; [lia | apply strip_ends |].
  apply strip_Forall. clear Hlen. revert keyword Hin. apply Forall_forall.
  apply split_from_Forall.
  assert (∀ s, Forall (λ c, c ≠ 59) s → Forall (λ c, c ≠ 124) s →
               Forall (λ c, c ≠ 59 ∧ c ≠ 124) s) as Hboth.
  { intros s H1 H2. apply Forall_forall. intros c Hc. split.
    - by eapply Forall_forall in H1.
    - by eapply Forall_forall in H2. }
  apply replace_Forall; [by repeat constructor|].
  apply join_Forall; [by repeat constructor|].
  apply split_from_Forall. apply Hboth.
  - apply replace_Forall; [by repeat constructor|].
    apply replace_single. by repeat constructor.
  - apply replace_single. by repeat constructor.
Qed.
End KeywordProperties.

(* ===================================================================== *)
(** * The further properties at work *)
(* ===================================================================== *)

(** Witness of [sweep_stops_at_unreadable]: user 7 is due and enqueued,
    user 2 stops the sweep, user 1 (due every day) is not reached. *)
Lemma sweep_stops_at_unreadable_witness :
  ∃ w',
    Scheduler.lambda_handler (U := ascii_only) env_calm world_unreadable =
      (Raise ValueError, w')
    ∧ queue w' =
        queue world_unreadable
        ++ delivered env_calm (S (calls world_unreadable))
             (due_tasks (U := ascii_only) (sweep_instant env_calm)
                [ (py "7", record_with (py "Středa v 12:00")) ]).
Proof.
  apply (sweep_stops_at_unreadable (U := ascii_only) env_calm world_unreadable
           [ (py "7", record_with (py "Středa v 12:00")) ]
           [ (py "1", record_with (py "Jednou denně")) ]
           (py "2", record_with (py "Pondělí v poledne"))
           (py "Pondělí v poledne")).
  - reflexivity.
  - vm_compute. reflexivity.
  - intros item H. apply list_elem_of_singleton in H as ->.
    left. eexists. split; vm_compute; reflexivity.
  - reflexivity.
  - vm_compute. reflexivity.
Defined.

Example sweep_stopped_after_one :
  task_user_id <$> queue (Scheduler.lambda_handler (U := ascii_only)
                            env_calm world_unreadable).2 = [py "7"].
Proof. vm_compute. reflexivity. Qed.

(** Witness of [sweep_due_in_utc]: at 10:07 UTC on a Wednesday. *)
Lemma sweep_due_in_utc_witness :
  is_scheduled_time (U := ascii_only) (sweep_instant env_calm)
    (day_at Streda 12 0) =
    Ok (bool_decide
          ((weekday (utcnow env_calm)
            + (if 22 <=? hour (utcnow env_calm) then 1 else 0)) mod 7 = 2
           ∧ (hour (utcnow env_calm) + 2) mod 24 = 12))
  ∧ is_scheduled_time (U := ascii_only) (sweep_instant env_calm)
      (py "Jednou denně") =
      Ok (bool_decide (hour (utcnow env_calm) = 10)).
Proof.
  apply (sweep_due_in_utc (U := ascii_only) env_calm Streda 2 12 0
           (py "Jednou denně")).
  - cbn. lia.
  - reflexivity.
  - lia.
  - lia.
  - reflexivity.
Defined.

(** Witness of [several_entries_never_due]: on a Wednesday at 12, with
    Wednesday at 12 as the first of two entries. *)
Lemma several_entries_never_due_witness :
  is_scheduled_time (U := ascii_only) (plus_hours wednesday_1007 2)
    (day_at Streda 12 0 ++ comma_space ++ Patek ++ sep_v ++ py "09:30")
    = Ok false.
Proof.
  apply (several_entries_never_due (U := ascii_only)
           (plus_hours wednesday_1007 2) Streda Patek 2 4 12 0 (py "09:30")).
  - reflexivity.
  - reflexivity.
  - lia.
  - lia.
  - reflexivity.
Defined.

(** Witness of [create_rule_result]. *)
Lemma create_rule_result_witness :
  ∃ n r,
    1000 ≤ n ≤ 9999
    ∧ rules (RuleManager.create_eventbridge_rule env_calm (py "5")
               cron_default Pondeli world_three).2
        !! (rule_for_user_ ++ py "5" ++ underscore ++ str_of_int n) = Some r
    ∧ ScheduleExpression r = cron_default ∧ State r = ENABLED
    ∧ Targets r !! (target_ ++ py "5") = Some (worker_target (py "5"))
    ∧ (∀ id r0, id ≠ target_ ++ py "5" →
         rules world_three
           !! (rule_for_user_ ++ py "5" ++ underscore ++ str_of_int n)
           = Some r0 →
         Targets r !! id = Targets r0 !! id)
    ∧ (∀ name,
         name ≠ rule_for_user_ ++ py "5" ++ underscore ++ str_of_int n →
         rules (RuleManager.create_eventbridge_rule env_calm (py "5")
                  cron_default Pondeli world_three).2 !! name
           = rules world_three !! name)
    ∧ store (RuleManager.create_eventbridge_rule env_calm (py "5")
               cron_default Pondeli world_three).2 = store world_three
    ∧ (Forall (λ c, c < 128 ∧ c ≠ 103 ∧ c ≠ 71) (py "5") →
       RuleManager.protected (U := ascii_only)
         (rule_for_user_ ++ py "5" ++ underscore ++ str_of_int n) = false).
Proof.
  apply (create_rule_result (U := ascii_only) env_calm (py "5") cron_default
           Pondeli world_three).
  vm_compute. reflexivity.
Defined.

(** Witness of [rule_ignores_time]: Monday at 10:00 and at 18:30. *)
Lemma rule_ignores_time_witness :
  RuleManager.process_day_with_time env_calm (py "5") (day_at Pondeli 10 0)
    world_three =
    RuleManager.process_day_with_time env_calm (py "5") (day_at Pondeli 18 30)
      world_three
  ∧ ∀ w', RuleManager.process_day_with_time env_calm (py "5")
            (day_at Pondeli 10 0) world_three = (Ok tt, w') →
      ∃ n r, 1000 ≤ n ≤ 9999
        ∧ rules w' !! (rule_for_user_ ++ py "5" ++ underscore ++ str_of_int n)
            = Some r
        ∧ ScheduleExpression r = cron_weekly ((0 + 1) mod 7 + 1).
Proof.
  apply (rule_ignores_time (U := ascii_only) env_calm (py "5") Pondeli 0 10 0 18 30 world_three).
  - reflexivity.
  - lia.
  - lia.
  - lia.
  - lia.
Defined.

(** Witness of [targets_removed_then_deleted], on an old rule of user 5. *)
Lemma targets_removed_then_deleted_witness :
  (∃ r, rules world_1000 !! py "rule_for_user_5_1000" = Some r
        ∧ rules (RuleManager.remove_targets_from_rule env_1000
                   (py "rule_for_user_5_1000") world_1000).2
            !! py "rule_for_user_5_1000" =
            Some {| ScheduleExpression := ScheduleExpression r;
                    State := State r; Targets := ∅ |})
  ∧ (∀ n, n ≠ py "rule_for_user_5_1000" →
       rules (RuleManager.remove_targets_from_rule env_1000
                (py "rule_for_user_5_1000") world_1000).2 !! n
         = rules world_1000 !! n)
  ∧ (fault env_1000
       (calls (RuleManager.remove_targets_from_rule env_1000
                 (py "rule_for_user_5_1000") world_1000).2) = None →
     ∃ w2, RuleManager.delete_rule env_1000 (py "rule_for_user_5_1000")
             (RuleManager.remove_targets_from_rule env_1000
                (py "rule_for_user_5_1000") world_1000).2 = (Ok tt, w2)
           ∧ rules w2 = delete (py "rule_for_user_5_1000") (rules world_1000)).
Proof.
  apply (targets_removed_then_deleted env_1000 (py "rule_for_user_5_1000")
           world_1000).
  vm_compute. reflexivity.
Defined.

(** Witness of [reconciler_runs_twice]. *)
Lemma reconciler_runs_twice_witness :
  store (Reconciler.lambda_handler env_calm
           (Reconciler.lambda_handler env_calm world_three).2).2
    = store (Reconciler.lambda_handler env_calm world_three).2.
Proof.
  apply (reconciler_runs_twice env_calm world_three).
  intros i. reflexivity.
Defined.

(** Witness of [rules_per_submitted_value], on the form of user 5. *)
Lemma rules_per_submitted_value_witness :
  split comma_space
    (join comma_space [py "Pondělí v 10:00"; py "Středa v 12:00"])
    = [py "Pondělí v 10:00"; py "Středa v 12:00"]
  ∧ RuleManager.process_user_preferences env_calm (py "5") prefs_example
      world_three =
      for_each (RuleManager.process_day_with_time env_calm (py "5"))
        [py "Pondělí v 10:00"; py "Středa v 12:00"] world_three.
Proof.
  apply (rules_per_submitted_value env_calm form_example (py "5")
           (py "Pondělí v 10:00") [py "Středa v 12:00"] prefs_example
           world_three).
  - reflexivity.
  - apply (bool_decide_unpack _). vm_compute. exact I.
  - discriminate.
  - reflexivity.
Defined.

Example intake_of_the_form :
  let s := (Intake.lambda_handler env_calm (λ _, Ok form_example)
              {| event_body := Some (py "dXNlcl9pZD01");
                 isBase64Encoded := true |} site_three).2 in
  frekvence <$> store (aws s) !! py "5"
    = Some (Some (py "Pondělí v 10:00, Středa v 12:00"))
  ∧ (Intake.lambda_handler env_calm (λ _, Ok form_example)
       {| event_body := Some (py "user_id=5"); isBase64Encoded := false |}
       site_three).1
    = Ok {| http_status := 500; http_body := error_processing_data |}.
Proof. split; vm_compute; reflexivity. Qed.

(** Witness of [sweep_then_worker]: the two due users of [world_three]. *)
Lemma sweep_then_worker_witness :
  ∃ s',
    (let w' := (Scheduler.lambda_handler (U := ascii_only) env_calm
                  (aws site_three)).2 in
     Worker.lambda_handler env_calm (Some (record_of_task <$> queue w'))
       (with_aws w' site_three)) =
      (Ok {| http_status := 200; http_body := all_handed_off |}, s')
    ∧ invocations s' =
        invocations site_three
        ++ (filter (λ item, is_due (U := ascii_only)
                              (sweep_instant env_calm) item)
                   (scanned env_calm (aws site_three))).*1
    ∧ store (aws s') = store (aws site_three).
Proof.
  apply (sweep_then_worker (U := ascii_only) env_calm site_three).
  - intros i. reflexivity.
  - reflexivity.
  - exact world_three_scanned.
Defined.

Example worker_invokes_the_due :
  invocations
    (Worker.lambda_handler env_calm
       (Some (record_of_task <$>
                queue (Scheduler.lambda_handler (U := ascii_only) env_calm
                         world_three).2))
       site_three).2 = [py "2"; py "1"].
Proof. vm_compute. reflexivity. Qed.

Example worker_stops_at_bad_record :
  let run :=
    Worker.lambda_handler env_calm
      (Some [ {| record_body := Some (Json_object {[ k_user_id := py "1" ]}) |};
              {| record_body := Some Not_json |};
              {| record_body := Some (Json_object {[ k_user_id := py "2" ]}) |} ])
      site_three in
  run.1 = Raise ValueError ∧ invocations run.2 = [py "1"].
Proof. split; vm_compute; reflexivity. Qed.

Example keywords_of_a_record :
  clean_and_split_keywords (U := ascii_only)
    (py "mosty; silnice|  tunely ,a, ,,xx")
    = [py "mosty"; py "silnice"; py "tunely"; py "xx"].
Proof. vm_compute. reflexivity. Qed.
